(** * web_mini/css.py: the CSS minifier as a pipeline of text rewrites

    A shallow embedding of [src/web_mini/css.py].  Python [str] values are
    modelled as [string]; every character is read as the code point of the
    same number, so the model covers texts whose code points are below 256.
    The [re] patterns of the module are written as terms of a small regular
    expression type and run by a backtracking matcher with Python's
    priorities (leftmost alternative first, greedy repetitions longest
    first, lazy repetitions shortest first).  [re.sub], [str.replace] and
    [str.strip] are written out as functions on strings.

    The modules [clrs] (colour converters), [const] (the table of
    replaceable colours) and [recache] (pattern cache) are not part of the
    embedded file: the converters and the table are parameters of the
    development, the pattern cache only hands each function its compiled
    pattern.  Where an example needs a converter that computes,
    [Clrs.hsl_to_hex] models the one for [hsl()] from the spec. *)

From Stdlib Require Import String Ascii List Arith ZArith QArith Qround Lia Bool.
Import ListNotations.
Open Scope list_scope.
Open Scope string_scope.
Open Scope nat_scope.

(** ** Characters and strings *)

Module Str.

Definition dquote : ascii := ascii_of_nat 34.
Definition squote : ascii := ascii_of_nat 39.

Definition code (c : ascii) : nat := nat_of_ascii c.

Definition in_range (lo hi c : ascii) : bool :=
  (code lo <=? code c) && (code c <=? code hi).

Definition is_chr (x c : ascii) : bool := Ascii.eqb x c.

Fixpoint one_of (cs : string) (c : ascii) : bool :=
  match cs with
  | EmptyString => false
  | String x cs' => Ascii.eqb x c || one_of cs' c
  end.

(** [str.isspace] and the pattern escape [\s] on code points below 256. *)
Definition is_space (c : ascii) : bool :=
  let n := code c in
  ((9 <=? n) && (n <=? 13)) || ((28 <=? n) && (n <=? 32))
  || (n =? 133) || (n =? 160).

(** [\d] on code points below 256. *)
Definition is_digit (c : ascii) : bool := in_range "0" "9" c.

Definition is_alpha (c : ascii) : bool :=
  in_range "a" "z" c || in_range "A" "Z" c.

Definition is_hex (c : ascii) : bool :=
  is_digit c || in_range "a" "f" c || in_range "A" "F" c.

(** [s.startswith(p)] together with the rest of [s]. *)
Fixpoint strip_prefix (p s : string) : option string :=
  match p with
  | EmptyString => Some s
  | String x p' =>
      match s with
      | EmptyString => None
      | String c s' => if Ascii.eqb x c then strip_prefix p' s' else None
      end
  end.

Definition starts_with (p s : string) : bool :=
  match strip_prefix p s with Some _ => true | None => false end.

(** [p in s] *)
Fixpoint contains (p s : string) : bool :=
  starts_with p s ||
  match s with
  | EmptyString => false
  | String _ s' => contains p s'
  end.

Fixpoint skip (n : nat) (s : string) : string :=
  match n with
  | O => s
  | S n' => match s with EmptyString => EmptyString | String _ s' => skip n' s' end
  end.

(** [s.replace(old, new)]: the occurrences of [old] are found from the
    left and do not overlap.  [wait] counts the characters of the current
    occurrence that are still to be passed over.  With an empty [old],
    Python puts [new] before every character and at the end. *)
Fixpoint replace_from (old new : string) (wait : nat) (s : string) : string :=
  match s with
  | EmptyString =>
      match old, wait with
      | EmptyString, O => new
      | _, _ => EmptyString
      end
  | String c s' =>
      match wait with
      | S w => replace_from old new w s'
      | O =>
          if starts_with old s
          then match old with
               | EmptyString => new ++ String c (replace_from old new 0 s')
               | String _ old' => new ++ replace_from old new (String.length old') s'
               end
          else String c (replace_from old new 0 s')
      end
  end.

Definition replace (old new s : string) : string := replace_from old new 0 s.

Fixpoint lstrip (s : string) : string :=
  match s with
  | EmptyString => EmptyString
  | String c s' => if is_space c then lstrip s' else s
  end.

(** What is left of [s] when its trailing white space is removed. *)
Fixpoint rstrip (s : string) : string :=
  match s with
  | EmptyString => EmptyString
  | String c s' =>
      match rstrip s' with
      | EmptyString => if is_space c then EmptyString else String c EmptyString
      | r => String c r
      end
  end.

(** [s.strip()] *)
Definition strip (s : string) : string := rstrip (lstrip s).

(** [s[i]] where the index is in range. *)
Definition at_ (s : string) (i : nat) : option ascii := String.get i s.

Definition chr (o : option ascii) : string :=
  match o with Some c => String c EmptyString | None => EmptyString end.

Definition same (a b : option ascii) : bool :=
  match a, b with
  | Some x, Some y => Ascii.eqb x y
  | _, _ => false
  end.

End Str.

Import Str.

(** ** Regular expressions, as far as the patterns of css.py need them *)

Module Re.

Definition charset := ascii -> bool.

Inductive regex : Type :=
| Eps
| Chr (p : charset)
| Seq (r1 r2 : regex)
| Alt (r1 r2 : regex)
| Rep (lazy : bool) (lo : nat) (hi : option nat) (p : charset)
| Grp (n : nat) (r : regex)
| Ref (n : nat).

(** The groups set so far while matching, last binding first. *)
Definition env := list (nat * string).

Fixpoint lookup (g : env) (n : nat) : option string :=
  match g with
  | [] => None
  | (m, w) :: g' => if Nat.eqb m n then Some w else lookup g' n
  end.

Definition bound (g : env) (n : nat) : string :=
  match lookup g n with Some w => w | None => EmptyString end.

(** A match object: the whole match, then the groups 1, 2, ... *)
Definition re_match := list string.

(** [m.group(n)], and [\n] in a template. *)
Definition group (m : re_match) (n : nat) : string := nth n m EmptyString.

Fixpoint ngroups (r : regex) : nat :=
  match r with
  | Seq r1 r2 | Alt r1 r2 => Nat.max (ngroups r1) (ngroups r2)
  | Grp n r1 => Nat.max n (ngroups r1)
  | _ => 0
  end.

(** The text between the start [s] of a match and what is left of it. *)
Definition captured (s rest : string) : string :=
  substring 0 (String.length s - String.length rest) s.

Definition more (hi : option nat) : bool :=
  match hi with Some O => false | _ => true end.

Definition less (hi : option nat) : option nat :=
  match hi with Some n => Some (Nat.pred n) | None => None end.

(** [p{lo,hi}] followed by the continuation [k]. *)
Fixpoint rep {R} (p : charset) (lazy : bool) (lo : nat) (hi : option nat)
    (s : string) (k : string -> option R) : option R :=
  match lo with
  | S lo' =>
      match s with
      | String c s' =>
          if more hi && p c then rep p lazy lo' (less hi) s' k else None
      | EmptyString => None
      end
  | O =>
      match s with
      | String c s' =>
          if more hi && p c
          then if lazy
               then match k s with
                    | Some x => Some x
                    | None => rep p lazy 0 (less hi) s' k
                    end
               else match rep p lazy 0 (less hi) s' k with
                    | Some x => Some x
                    | None => k s
                    end
          else k s
      | EmptyString => k s
      end
  end.

(** Backtracking match of [r] at the start of [s], then [k]. *)
Fixpoint rmatch {R} (r : regex) (g : env) (s : string)
    (k : env -> string -> option R) : option R :=
  match r with
  | Eps => k g s
  | Chr p =>
      match s with
      | String c s' => if p c then k g s' else None
      | EmptyString => None
      end
  | Seq r1 r2 => rmatch r1 g s (fun g' s' => rmatch r2 g' s' k)
  | Alt r1 r2 =>
      match rmatch r1 g s k with
      | Some x => Some x
      | None => rmatch r2 g s k
      end
  | Rep lazy lo hi p => rep p lazy lo hi s (k g)
  | Grp n r1 => rmatch r1 g s (fun g' s' => k ((n, captured s s') :: g') s')
  | Ref n =>
      match lookup g n with
      | Some w =>
          match strip_prefix w s with
          | Some s' => k g s'
          | None => None
          end
      | None => None
      end
  end.

Definition match_obj (r : regex) (whole : string) (g : env) : re_match :=
  whole :: map (bound g) (seq 1 (ngroups r)).

(** [pat.match(s)]: the match object and the text after the match. *)
Definition match_at (r : regex) (s : string) : option (re_match * string) :=
  rmatch r [] s (fun g s' => Some (match_obj r (captured s s') g, s')).

(** [pat.sub(repl, s)] with a template or a function that returns a string.
    [wait] counts the characters of the current match still to be passed
    over; after an empty match the scan moves on by one character. *)
Fixpoint sub_from (r : regex) (repl : re_match -> string) (wait : nat)
    (s : string) : string :=
  match s with
  | EmptyString =>
      match wait, match_at r s with
      | O, Some (g, _) => repl g
      | _, _ => EmptyString
      end
  | String c s' =>
      match wait with
      | S w => sub_from r repl w s'
      | O =>
          match match_at r s with
          | Some (g, rest) =>
              match String.length s - String.length rest with
              | O => repl g ++ String c (sub_from r repl 0 s')
              | S w => repl g ++ sub_from r repl w s'
              end
          | None => String c (sub_from r repl 0 s')
          end
      end
  end.

Definition sub (r : regex) (repl : re_match -> string) (s : string) : string :=
  sub_from r repl 0 s.

(** [pat.sub(f, s)] where the function [f] may raise: the first failure
    ends the substitution. *)
Definition cons_out (a : option string) (b : option string) : option string :=
  match a, b with
  | Some x, Some y => Some (x ++ y)
  | _, _ => None
  end.

Fixpoint sub_cb_from (r : regex) (f : re_match -> option string) (wait : nat)
    (s : string) : option string :=
  match s with
  | EmptyString =>
      match wait, match_at r s with
      | O, Some (g, _) => f g
      | _, _ => Some EmptyString
      end
  | String c s' =>
      match wait with
      | S w => sub_cb_from r f w s'
      | O =>
          match match_at r s with
          | Some (g, rest) =>
              match f g with
              | None => None
              | Some x =>
                  match String.length s - String.length rest with
                  | O => cons_out (Some (x ++ String c EmptyString))
                                  (sub_cb_from r f 0 s')
                  | S w => cons_out (Some x) (sub_cb_from r f w s')
                  end
              end
          | None => cons_out (Some (String c EmptyString)) (sub_cb_from r f 0 s')
          end
      end
  end.

Definition sub_cb (r : regex) (f : re_match -> option string) (s : string)
  : option string := sub_cb_from r f 0 s.

(** Pattern syntax *)
Fixpoint lit (w : string) : regex :=
  match w with
  | EmptyString => Eps
  | String c EmptyString => Chr (is_chr c)
  | String c w' => Seq (Chr (is_chr c)) (lit w')
  end.

Fixpoint seqs (rs : list regex) : regex :=
  match rs with
  | [] => Eps
  | [r] => r
  | r :: rs' => Seq r (seqs rs')
  end.

(** [w1|w2|...], the words tried from left to right. *)
Fixpoint words (ws : list string) : regex :=
  match ws with
  | [] => Chr (fun _ => false)
  | [w] => lit w
  | w :: ws' => Alt (lit w) (words ws')
  end.

Definition star (p : charset) : regex := Rep false 0 None p.
Definition plus (p : charset) : regex := Rep false 1 None p.
Definition opt (p : charset) : regex := Rep false 0 (Some 1) p.
Definition lazy_star (p : charset) : regex := Rep true 0 None p.
Definition times (n : nat) (p : charset) : regex := Rep false n (Some n) p.
Definition any : charset := fun _ => true.
Definition none_of (cs : string) : charset := fun c => negb (one_of cs c).

End Re.

Import Re.

(** ** The patterns of css.py

    Each pattern is the argument of [@css_fns.recache(...)] above the
    function that uses it. *)

Module Pat.

(** [/\*.*?\*/] with [re.S] *)
Definition comments : regex :=
  seqs [lit "/*"; lazy_star any; lit "*/"].

(** [([a-zA-Z]+)=Q([a-zA-Z0-9-_\.]+)Q\]] where Q stands for the double
    quote; in the class, the hyphen after the range 0-9 is a literal. *)
Definition selector_value (c : ascii) : bool :=
  is_alpha c || is_digit c || one_of "-_." c.

Definition unquote_selectors : regex :=
  seqs [Grp 1 (plus is_alpha); Chr (is_chr "="); Chr (is_chr dquote);
        Grp 2 (plus selector_value); Chr (is_chr dquote); Chr (is_chr "]")].

(** [url\(] then group 1, a double or single quote, then group 2, any run
    of characters other than the closing parenthesis, as long as possible,
    then [\1\)]. *)
Definition url_quotes : regex :=
  seqs [lit "url("; Grp 1 (Chr (fun c => is_chr dquote c || is_chr squote c));
        Grp 2 (star (none_of ")")); Ref 1; Chr (is_chr ")")].

(** [\s*({|}|:|;|,)\s*] *)
Definition whitespace : regex :=
  seqs [star is_space;
        Grp 1 (words ["{"; "}"; ":"; ";"; ","]);
        star is_space].

(** [;;+] *)
Definition semicolons : regex :=
  seqs [Chr (is_chr ";"); plus (is_chr ";")].

(** [(border|opacity):none] *)
Definition none_to_zero : regex :=
  seqs [Grp 1 (words ["border"; "opacity"]); lit ":none"].

(** The units of [css_sub_zero_units], in the order of the pattern. *)
Definition units : list string :=
  ["em"; "ex"; "cap"; "ch"; "ic"; "rem"; "lh"; "rlh"; "vw"; "vh";
   "vi"; "vb"; "vmin"; "vmax"; "cqw"; "cqh"; "cqi"; "cqb"; "cqmin"; "cqmax";
   "cm"; "mm"; "Q"; "in"; "pc"; "pt"; "px"; "deg"; "grad"; "rad"; "turn";
   "s"; "ms"; "Hz"; "kHz"; "dpi"; "dpcm"; "dppx"; "x"; "fr"; "%"].

(** [([\s:])(0)(em|ex|...|fr|%)] *)
Definition zero_units : regex :=
  seqs [Grp 1 (Chr (fun c => is_space c || is_chr ":" c));
        Grp 2 (lit "0");
        Grp 3 (words units)].

(** [(:|\s)0+\.(\d+)] *)
Definition floats : regex :=
  seqs [Grp 1 (Alt (lit ":") (Chr is_space)); plus (is_chr "0");
        Chr (is_chr "."); Grp 2 (plus is_digit)].

Definition digit_or_dot (c : ascii) : bool := is_digit c || is_chr "." c.

(** [rgb\((\d+),\s*(\d+),\s*(\d+)\)] *)
Definition rgb : regex :=
  seqs [lit "rgb("; Grp 1 (plus is_digit); Chr (is_chr ","); star is_space;
        Grp 2 (plus is_digit); Chr (is_chr ","); star is_space;
        Grp 3 (plus is_digit); Chr (is_chr ")")].

(** [hsl\((\d+),\s*([\d.]+)%?,\s*([\d.]+)%?\)] *)
Definition hsl : regex :=
  seqs [lit "hsl("; Grp 1 (plus is_digit); Chr (is_chr ","); star is_space;
        Grp 2 (plus digit_or_dot); opt (is_chr "%"); Chr (is_chr ",");
        star is_space;
        Grp 3 (plus digit_or_dot); opt (is_chr "%"); Chr (is_chr ")")].

(** [#([0-9a-fA-F]{6})] *)
Definition hex : regex :=
  seqs [Chr (is_chr "#"); Grp 1 (times 6 is_hex)].

(** [rgba\((\d+),\s*(\d+),\s*(\d+),\s*([\d.]+)\)] *)
Definition rgba : regex :=
  seqs [lit "rgba("; Grp 1 (plus is_digit); Chr (is_chr ","); star is_space;
        Grp 2 (plus is_digit); Chr (is_chr ","); star is_space;
        Grp 3 (plus is_digit); Chr (is_chr ","); star is_space;
        Grp 4 (plus digit_or_dot); Chr (is_chr ")")].

(** [hsla\((\d+),\s*([\d.]+)%?,\s*([\d.]+)%?,\s*([\d.]+)\)] *)
Definition hsla : regex :=
  seqs [lit "hsla("; Grp 1 (plus is_digit); Chr (is_chr ","); star is_space;
        Grp 2 (plus digit_or_dot); opt (is_chr "%"); Chr (is_chr ",");
        star is_space;
        Grp 3 (plus digit_or_dot); opt (is_chr "%"); Chr (is_chr ",");
        star is_space;
        Grp 4 (plus digit_or_dot); Chr (is_chr ")")].

(** [[^\}\{]+\{\}] *)
Definition empty_rules : regex :=
  seqs [plus (none_of "}{"); lit "{}"].

End Pat.

(** ** The rewrite rules and the pipeline *)

Section Css.

(** [const.REPLACABLE_CLRS.items()]: the pairs of the table, in its order. *)
Variable REPLACABLE_CLRS : list (string * string).

(** The converters of [clrs]; each is called by [re.sub] with the match
    and may raise, which is the result [None]. *)
Variable rgb_to_hex hsl_to_hex rgba_to_hex hsla_to_hex : re_match -> option string.

Definition css_remove_comments (css : string) : string :=
  sub Pat.comments (fun _ => EmptyString) css.

Definition css_unquote_selectors (css : string) : string :=
  sub Pat.unquote_selectors (fun m => group m 1 ++ "=" ++ group m 2 ++ "]") css.

Definition css_remove_url_quotes (css : string) : string :=
  sub Pat.url_quotes (fun m => "url(" ++ group m 2 ++ ")") css.

Definition css_remove_whitespace (css : string) : string :=
  strip (replace ") and" ")and"
           (replace "and (" "and(" (sub Pat.whitespace (fun m => group m 1) css))).

Definition css_remove_semicolons (css : string) : string :=
  sub Pat.semicolons (fun _ => EmptyString) (replace ";}" "}" css).

Definition css_none_to_zero (css : string) : string :=
  sub Pat.none_to_zero (fun m => group m 1 ++ ":0") css.

Definition css_sub_zero_units (css : string) : string :=
  sub Pat.zero_units (fun m => group m 1 ++ group m 2) css.

Definition css_shorten_floats (css : string) : string :=
  sub Pat.floats (fun m => group m 1 ++ "." ++ group m 2) css.

Definition css_rgb2hex (css : string) : option string :=
  sub_cb Pat.rgb rgb_to_hex css.

Definition css_hsl2hex (css : string) : option string :=
  sub_cb Pat.hsl hsl_to_hex css.

Definition css_sub_clrs (css : string) : string :=
  fold_left (fun css '(builtin, hexclr) => replace (":" ++ builtin) hexclr css)
            REPLACABLE_CLRS css.

(** The inner function of [css_shorten_hex]. *)
Definition shorten_clr (m : re_match) : string :=
  let clr := group m 1 in
  if forallb (fun idx => same (at_ clr idx) (at_ clr (idx + 1))) [0; 2; 4]
  then "#" ++ chr (at_ clr 0) ++ chr (at_ clr 2) ++ chr (at_ clr 4)
  else "#" ++ clr.

Definition css_shorten_hex (css : string) : string :=
  sub Pat.hex shorten_clr css.

Definition css_rgba2hex (css : string) : option string :=
  sub_cb Pat.rgba rgba_to_hex css.

Definition css_hsla2hex (css : string) : option string :=
  sub_cb Pat.hsla hsla_to_hex css.

Definition css_remove_empty_rules (css : string) : string :=
  sub Pat.empty_rules (fun _ => EmptyString) css.

Definition css_font_weights (css : string) : string :=
  replace "font-weight:bold" "font-weight:700"
    (replace "font-weight:normal" "font-weight:400" css).

Definition bind (a : option string) (f : string -> option string)
  : option string :=
  match a with Some x => f x | None => None end.

Notation "x <- a ;; b" := (bind a (fun x => b))
  (at level 61, a at next level, right associativity).

(** [minify_css]: every rule once, in this order. *)
Definition minify_css (css : string) : option string :=
  let css := css_remove_comments css in
  let css := css_remove_whitespace css in
  let css := css_unquote_selectors css in
  let css := css_remove_url_quotes css in
  let css := css_remove_semicolons css in
  let css := css_none_to_zero css in
  let css := css_sub_zero_units css in
  let css := css_shorten_floats css in
  css <- css_rgb2hex css ;;
  css <- css_hsl2hex css ;;
  let css := css_sub_clrs css in
  let css := css_shorten_hex css in
  css <- css_rgba2hex css ;;
  css <- css_hsla2hex css ;;
  let css := css_remove_empty_rules css in
  let css := css_font_weights css in
  Some css.

End Css.

(** ** What a match is, and where a pattern occurs *)

Module Sem.

Fixpoint all (p : charset) (w : string) : bool :=
  match w with
  | EmptyString => true
  | String c w' => p c && all p w'
  end.

Definition fits (hi : option nat) (n : nat) : Prop :=
  match hi with Some h => n <= h | None => True end.

(** [Matches r g w g']: with the groups [g] set, [r] can match exactly
    the text [w], which leaves the groups [g']. *)
Inductive Matches : regex -> env -> string -> env -> Prop :=
| MEps g : Matches Eps g EmptyString g
| MChr p c g : p c = true -> Matches (Chr p) g (String c EmptyString) g
| MSeq r1 r2 g w1 g1 w2 g2 :
    Matches r1 g w1 g1 -> Matches r2 g1 w2 g2 ->
    Matches (Seq r1 r2) g (w1 ++ w2) g2
| MAltL r1 r2 g w g' : Matches r1 g w g' -> Matches (Alt r1 r2) g w g'
| MAltR r1 r2 g w g' : Matches r2 g w g' -> Matches (Alt r1 r2) g w g'
| MRep lazy lo hi p w g :
    all p w = true -> lo <= String.length w -> fits hi (String.length w) ->
    Matches (Rep lazy lo hi p) g w g
| MGrp n r g w g' : Matches r g w g' -> Matches (Grp n r) g w ((n, w) :: g')
| MRef n g w : lookup g n = Some w -> Matches (Ref n) g w g.

(** Some match of [r] starts at some position of [s]. *)
Fixpoint occurs (r : regex) (s : string) : bool :=
  match match_at r s with
  | Some _ => true
  | None =>
      match s with
      | EmptyString => false
      | String _ s' => occurs r s'
      end
  end.

(** What is left of [s] after its longest prefix of characters in [p]. *)
Fixpoint skip_while (p : charset) (s : string) : string :=
  match s with
  | EmptyString => EmptyString
  | String c s' => if p c then skip_while p s' else s
  end.

(** [s] begins with the character [c]. *)
Definition begins (c : ascii) (s : string) : bool :=
  match s with
  | EmptyString => false
  | String d _ => Ascii.eqb c d
  end.

End Sem.

Import Sem.

(** ** Sample collaborators

    The table of [const] and the converters of [clrs] are parameters of
    the rules.  The closed examples below run the pipeline with the
    following ones. *)

Module Sample.

(** Modelled from the spec: the one entry of the Replaceable Color Table
    that the spec names, the keyword [white] with its 3-digit hex string. *)
Definition REPLACABLE_CLRS : list (string * string) := [("white", "#fff")].

(** Stand-ins for the converters: the spec has them return [#rrggbb], or
    [#rrggbbaa] with an alpha channel, and these two return white in that
    notation for every match.  No example below depends on which colour a
    converter returns. *)
Definition hex6 (m : re_match) : option string := Some "#ffffff".
Definition hex8 (m : re_match) : option string := Some "#ffffffff".

Definition minify_css : string -> option string :=
  minify_css REPLACABLE_CLRS hex6 hex6 hex8 hex8.

End Sample.

(** ** Conditions on the table *)

(** A keyword begins with a letter. *)
Definition key_named (k : string) : bool :=
  match k with
  | EmptyString => false
  | String c _ => is_alpha c
  end.

Definition keys_named (tbl : list (string * string)) : Prop :=
  Forall (fun kv => key_named (fst kv) = true) tbl.

(** Some colon of [s] is followed by a letter. *)
Fixpoint colon_letter (s : string) : bool :=
  match s with
  | EmptyString => false
  | String c s' =>
      (is_chr ":" c && match s' with String d _ => is_alpha d | EmptyString => false end)
      || colon_letter s'
  end.

(** A hex colour with alpha channel: [#] and eight hex digits. *)
Definition is_hex8 (h : string) : bool :=
  match h with
  | String c d => is_chr "#" c && (String.length d =? 8) && all is_hex d
  | EmptyString => false
  end.

(** ** Conditions on the rules and on the converters *)


Definition returned (o : option string) : string :=
  match o with Some h => h | None => EmptyString end.



(** ** Characters that no part of a pattern accepts *)

(** No character class of [r] accepts [b], and [r] has no backreference:
    a match of [r] cannot go past a [b]. *)
Fixpoint rejects (r : regex) (b : ascii) : bool :=
  match r with
  | Eps => true
  | Chr p => negb (p b)
  | Seq r1 r2 | Alt r1 r2 => rejects r1 b && rejects r2 b
  | Rep _ _ _ p => negb (p b)
  | Grp _ r1 => rejects r1 b
  | Ref _ => false
  end.

Definition brace_free (s : string) : bool := all (none_of "}{") s.

(** The result of a match with the text [u] added to what it leaves. *)
Definition past (u : string) (o : option (re_match * string))
  : option (re_match * string) :=
  match o with
  | Some (m, rest) => Some (m, rest ++ u)
  | None => None
  end.

(** Every match of [r] takes at least one character. *)
Definition consuming (r : regex) : Prop :=
  forall s m rest, match_at r s = Some (m, rest) ->
  String.length rest < String.length s.

(** The first twelve rules of [minify_css], up to [css_shorten_hex]: the
    text that reaches the two conversions with an alpha channel. *)
Definition before_alpha_conversions (tbl : list (string * string))
    (rgb hsl : re_match -> option string) (css : string) : option string :=
  let css := css_remove_comments css in
  let css := css_remove_whitespace css in
  let css := css_unquote_selectors css in
  let css := css_remove_url_quotes css in
  let css := css_remove_semicolons css in
  let css := css_none_to_zero css in
  let css := css_sub_zero_units css in
  let css := css_shorten_floats css in
  bind (css_rgb2hex rgb css) (fun css =>
  bind (css_hsl2hex hsl css) (fun css =>
  Some (css_shorten_hex (css_sub_clrs tbl css)))).

(** ** Shapes of texts *)

(** A text that does not begin with a character of [p]. *)
Definition stops (p : charset) (s : string) : Prop :=
  match s with String c _ => p c = false | EmptyString => True end.

(** The first of the words [ws] that begins the text [t]. *)
Fixpoint first_word (ws : list string) (t : string) : option string :=
  match ws with
  | [] => None
  | w :: ws' => if starts_with w t then Some w else first_word ws' t
  end.

(** The text [%] or nothing. *)
Definition percent (b : bool) : string := if b then "%" else EmptyString.

(** The four colour notations, with the white space that may follow a
    comma and the percent signs that may follow saturation and lightness. *)
Definition rgb_call (r w1 g w2 b : string) : string :=
  "rgb(" ++ r ++ "," ++ w1 ++ g ++ "," ++ w2 ++ b ++ ")".

Definition rgba_call (r w1 g w2 b w3 a : string) : string :=
  "rgba(" ++ r ++ "," ++ w1 ++ g ++ "," ++ w2 ++ b ++ "," ++ w3 ++ a ++ ")".

Definition hsl_call (h w1 s : string) (p1 : bool) (w2 l : string) (p2 : bool)
  : string :=
  "hsl(" ++ h ++ "," ++ w1 ++ s ++ percent p1 ++ "," ++ w2 ++ l ++ percent p2
  ++ ")".

Definition hsla_call (h w1 s : string) (p1 : bool) (w2 l : string) (p2 : bool)
    (w3 a : string) : string :=
  "hsla(" ++ h ++ "," ++ w1 ++ s ++ percent p1 ++ "," ++ w2 ++ l ++ percent p2
  ++ "," ++ w3 ++ a ++ ")".

(** A run of decimal digits, and a run of digits and points. *)
Definition digits (w : string) : Prop :=
  w <> EmptyString /\ all is_digit w = true.

Definition digits_or_dots (w : string) : Prop :=
  w <> EmptyString /\ all Pat.digit_or_dot w = true.

(** ** White space next to punctuation *)

(** The characters around which [css_remove_whitespace] removes white
    space. *)
Definition is_punct (c : ascii) : bool := one_of "{}:;," c.

(** White space and one of these characters, in either order. *)
Definition touches (c d : ascii) : bool :=
  (is_space c && is_punct d) || (is_punct c && is_space d).

Definition first_char (s : string) : option ascii :=
  match s with String c _ => Some c | EmptyString => None end.

Fixpoint last_char (s : string) : option ascii :=
  match s with
  | EmptyString => None
  | String c s' =>
      match s' with EmptyString => Some c | String _ _ => last_char s' end
  end.

Definition joint (x y : option ascii) : bool :=
  match x, y with
  | Some c, Some d => negb (touches c d)
  | _, _ => true
  end.

(** No two neighbours in [s] are white space and punctuation. *)
Fixpoint no_touch (s : string) : bool :=
  match s with
  | EmptyString => true
  | String c s' => joint (Some c) (first_char s') && no_touch s'
  end.

Definition spaced (o : option ascii) : bool :=
  match o with Some c => is_space c | None => false end.

Definition punctuated (o : option ascii) : bool :=
  match o with Some c => is_punct c | None => false end.

(** After its leading white space, [s] begins with punctuation. *)
Definition punct_led (s : string) : bool :=
  punctuated (first_char (skip_while is_space s)).

(** ** The calls of the converters *)

(** The calls that [pat.sub(f, s)] makes while it scans [s]: every match
    it hands to [f], with what [f] returns, in the order of the calls and
    up to the first call that fails.  [wait] is the counter of
    [sub_cb_from]. *)
Fixpoint calls_from (r : regex) (f : re_match -> option string) (wait : nat)
    (s : string) : list (re_match * option string) :=
  match s with
  | EmptyString =>
      match wait, match_at r s with
      | O, Some (g, _) => [(g, f g)]
      | _, _ => []
      end
  | String c s' =>
      match wait with
      | S w => calls_from r f w s'
      | O =>
          match match_at r s with
          | Some (g, rest) =>
              (g, f g) ::
              match f g with
              | None => []
              | Some _ =>
                  match String.length s - String.length rest with
                  | O => calls_from r f 0 s'
                  | S w => calls_from r f w s'
                  end
              end
          | None => calls_from r f 0 s'
          end
      end
  end.

Definition calls (r : regex) (f : re_match -> option string) (s : string)
  : list (re_match * option string) := calls_from r f 0 s.

(** The first eight rules of [minify_css], which call no converter. *)
Definition plain_rules (css : string) : string :=
  css_shorten_floats (css_sub_zero_units (css_none_to_zero
    (css_remove_semicolons (css_remove_url_quotes (css_unquote_selectors
      (css_remove_whitespace (css_remove_comments css))))))).

(** The calls of the four converters in one run of [minify_css] on [css]:
    those of [css_rgb2hex] on the text of the first eight rules, then, as
    far as the run gets, those of [css_hsl2hex], [css_rgba2hex] and
    [css_hsla2hex], each on the text that reaches it. *)
Definition handed (tbl : list (string * string))
    (rgb hsl rgba hsla : re_match -> option string) (css : string)
  : list (re_match * option string) :=
  let c8 := plain_rules css in
  calls Pat.rgb rgb c8 ++
  match css_rgb2hex rgb c8 with
  | None => []
  | Some c9 =>
      calls Pat.hsl hsl c9 ++
      match css_hsl2hex hsl c9 with
      | None => []
      | Some c10 =>
          let c12 := css_shorten_hex (css_sub_clrs tbl c10) in
          calls Pat.rgba rgba c12 ++
          match css_rgba2hex rgba c12 with
          | None => []
          | Some c13 => calls Pat.hsla hsla c13
          end
      end
  end.

(** Every call returned. *)
Definition all_returned (l : list (re_match * option string)) : bool :=
  forallb (fun c => match snd c with Some _ => true | None => false end) l.


(** ** Texts on which a second run has nothing to do *)

(** [P] holds of [s] or of a text that [s] ends with. *)
Fixpoint somewhere (P : string -> bool) (s : string) : bool :=
  P s || match s with
         | EmptyString => false
         | String _ s' => somewhere P s'
         end.

(** A hex colour that [css_shorten_hex] makes shorter begins [s]. *)
Definition shortens_here (s : string) : bool :=
  match match_at Pat.hex s with
  | Some (m, _) => negb (String.eqb (shorten_clr m) (group m 0))
  | None => false
  end.

(** No rule of the first fifteen finds text to rewrite in [s]: no match of
    a pattern, for [css_remove_whitespace] no white space next to
    punctuation or at the ends and neither of the two texts it replaces,
    no keyword of the table after a colon, no hex colour with doubled
    digits. *)
Definition settled (tbl : list (string * string)) (s : string) : bool :=
  negb (occurs Pat.comments s)
  && (no_touch s && negb (contains "and (" s) && negb (contains ") and" s)
      && negb (spaced (first_char s)) && negb (spaced (last_char s)))
  && negb (occurs Pat.unquote_selectors s)
  && negb (occurs Pat.url_quotes s)
  && (negb (contains ";}" s) && negb (occurs Pat.semicolons s))
  && negb (occurs Pat.none_to_zero s)
  && negb (occurs Pat.zero_units s)
  && negb (occurs Pat.floats s)
  && negb (occurs Pat.rgb s)
  && negb (occurs Pat.hsl s)
  && forallb (fun kv => negb (contains (":" ++ fst kv) s)) tbl
  && negb (somewhere shortens_here s)
  && negb (occurs Pat.rgba s)
  && negb (occurs Pat.hsla s)
  && negb (occurs Pat.empty_rules s).

(** ** A hex colour and the empty rules around it *)

(** The text [post] behind a colour goes on without a brace up to [{}]:
    the colour stands in front of the braces of an empty rule. *)
Definition heads_empty_rule (post : string) : bool :=
  starts_with "{}" (skip_while (none_of "}{") post).

(** [a] is empty or ends with a brace. *)
Definition closed (a : string) : bool :=
  match last_char a with
  | Some b => negb (none_of "}{" b)
  | None => true
  end.

(** ** A converter that does not clamp *)

Module Clrs.

(** Modelled from the spec: [clrs.hsl_to_hex], which is not under src/.
    Spec 4.1 has it apply the standard HSL-to-RGB conversion to the hue in
    degrees and to saturation and lightness in percent, round each channel
    to the nearest integer and format the three as hex bytes behind [#];
    it has the converter assume well-formed groups and perform no
    validation of its own.  The model does that arithmetic exactly, on
    rationals, for whatever groups the pattern hands over: the hue is any
    run of digits, saturation and lightness are runs of digits and points,
    read as [float] reads them, and a run that is no numeral is the
    failure [None]. *)

Definition digit (c : ascii) : Z := Z.of_nat (code c - 48).

Fixpoint int_from (acc : Z) (w : string) : Z :=
  match w with
  | EmptyString => acc
  | String c w' => int_from (10 * acc + digit c)%Z w'
  end.

(** [int(w)] for a run of digits. *)
Definition int (w : string) : Z := int_from 0 w.

Fixpoint take_while (p : charset) (w : string) : string :=
  match w with
  | EmptyString => EmptyString
  | String c w' => if p c then String c (take_while p w') else EmptyString
  end.

(** [float(w)] for a run of digits and points: digits, at most one point
    and at least one digit. *)
Definition float (w : string) : option Q :=
  let whole := take_while is_digit w in
  match skip_while is_digit w with
  | EmptyString =>
      match whole with
      | EmptyString => None
      | _ => Some (inject_Z (int whole))
      end
  | String c frac =>
      if is_chr "." c && all is_digit frac
         && negb (String.length (whole ++ frac) =? 0)
      then Some (Qmake (int (whole ++ frac))
                       (Z.to_pos (10 ^ Z.of_nat (String.length frac))))
      else None
  end.

Definition hex_digit (n : Z) : ascii :=
  match String.get (Z.to_nat n) "0123456789abcdef" with
  | Some c => c
  | None => "0"%char
  end.

Fixpoint hex_from (fuel : nat) (n : Z) (acc : string) : string :=
  match fuel with
  | O => acc
  | S fuel' =>
      let acc' := String (hex_digit (n mod 16)) acc in
      if (n / 16 =? 0)%Z then acc' else hex_from fuel' (n / 16)%Z acc'
  end.

(** [format(n, "x")] for a number that is not negative. *)
Definition hex (n : Z) : string :=
  hex_from (S (Z.to_nat (Z.log2 n))) n EmptyString.

(** [format(n, "02x")]: at least two characters, the sign of a negative
    number included. *)
Definition hex2 (n : Z) : string :=
  if (n <? 0)%Z then "-" ++ hex (- n)
  else if String.length (hex n) <? 2 then "0" ++ hex n else hex n.

Definition qmin (a b : Q) : Q := if Qle_bool a b then a else b.
Definition qmax (a b : Q) : Q := if Qle_bool a b then b else a.

Definition mod12 (x : Q) : Q := (x - inject_Z (12 * Qfloor (x / 12)))%Q.

(** One channel of the standard conversion, as a fraction: [n] is 0 for
    red, 8 for green and 4 for blue, [h] the hue in degrees, [s] and [l]
    saturation and lightness as fractions. *)
Definition channel (n h s l : Q) : Q :=
  let k := mod12 (n + h / 30)%Q in
  let a := (s * qmin l (1 - l))%Q in
  (l - a * qmax (-1) (qmin (qmin (k - 3) (9 - k)) 1))%Q.

Definition nearest (x : Q) : Z := Qfloor (x + (1 # 2))%Q.

Definition byte (v : Q) : string := hex2 (nearest (v * 255)%Q).

Definition hsl_to_hex (m : re_match) : option string :=
  match float (group m 2), float (group m 3) with
  | Some s, Some l =>
      let h := inject_Z (int (group m 1)) in
      let s := (s / 100)%Q in
      let l := (l / 100)%Q in
      Some ("#" ++ byte (channel 0 h s l) ++ byte (channel 8 h s l)
                ++ byte (channel 4 h s l))
  | _, _ => None
  end.

End Clrs.

(** A stand-in for [clrs.rgba_to_hex] that fails where the alpha group is
    a lone point, which is no number, and returns a colour for every
    other match. *)
Definition fails_on_point (m : re_match) : option string :=
  if String.eqb (group m 4) "." then None else Some "#01020380".

(** ** Strings *)

Lemma length_app (a b : string) :
  String.length (a ++ b) = String.length a + String.length b.
Proof. induction a as [|c a IH]; simpl; [reflexivity | now rewrite IH]. Qed.

Lemma app_assoc (a b c : string) : (a ++ b) ++ c = a ++ (b ++ c).
Proof. induction a as [|x a IH]; simpl; [reflexivity | now rewrite IH]. Qed.

Lemma app_empty_r (a : string) : a ++ EmptyString = a.
Proof. induction a as [|x a IH]; simpl; [reflexivity | now rewrite IH]. Qed.

Lemma substring_app (w s : string) : substring 0 (String.length w) (w ++ s) = w.
Proof.
  induction w as [|c w IH]; simpl.
  - destruct s; reflexivity.
  - now rewrite IH.
Qed.

Lemma captured_app (w s : string) : captured (w ++ s) s = w.
Proof.
  unfold captured. rewrite length_app.
  replace (String.length w + String.length s - String.length s)
    with (String.length w) by lia.
  apply substring_app.
Qed.

Lemma strip_prefix_app (p s t : string) :
  strip_prefix p s = Some t -> s = p ++ t.
Proof.
  revert s; induction p as [|x p IH]; simpl; intros s H.
  - now inversion H.
  - destruct s as [|c s]; [discriminate|].
    destruct (Ascii.eqb_spec x c) as [->|]; [|discriminate].
    now rewrite (IH _ H).
Qed.

Lemma strip_prefix_here (p t : string) : strip_prefix p (p ++ t) = Some t.
Proof.
  induction p as [|x p IH]; simpl; [reflexivity|].
  now rewrite Ascii.eqb_refl.
Qed.

Lemma starts_with_app (p s : string) :
  starts_with p s = true <-> exists t, s = p ++ t.
Proof.
  unfold starts_with; split.
  - destruct (strip_prefix p s) as [t|] eqn:E; [|discriminate].
    intros _; exists t; now apply strip_prefix_app.
  - intros [t ->]. now rewrite strip_prefix_here.
Qed.

Lemma starts_with_contains (p s : string) :
  starts_with p s = true -> contains p s = true.
Proof. intros H. destruct s; simpl; now rewrite H. Qed.

Lemma contains_app (p a b : string) : contains p (a ++ p ++ b) = true.
Proof.
  induction a as [|c a IH]; simpl.
  - apply starts_with_contains, starts_with_app. now exists b.
  - rewrite IH. apply orb_true_r.
Qed.

Lemma contains_split (p s : string) :
  contains p s = true -> exists a b, s = a ++ p ++ b.
Proof.
  induction s as [|c s IH]; simpl; intros H.
  - rewrite orb_false_r in H. apply starts_with_app in H as [t ->].
    now exists EmptyString, t.
  - apply orb_true_iff in H as [H|H].
    + apply starts_with_app in H as [t ->]. now exists EmptyString, t.
    + destruct (IH H) as (a & b & ->). now exists (String c a), b.
Qed.

Lemma contains_tail (p : string) (c : ascii) (s : string) :
  contains p (String c s) = false -> contains p s = false.
Proof. simpl. intros H. now apply orb_false_iff in H. Qed.

Lemma contains_head (p s : string) :
  contains p s = false -> starts_with p s = false.
Proof. destruct s; simpl; intros H; now apply orb_false_iff in H. Qed.

(** ** [str.replace] *)

Lemma replace_from_skip (old new : string) (n : nat) (s : string) :
  old <> EmptyString -> 
  replace_from old new n s = replace_from old new 0 (skip n s).
Proof.
  intros Hold. revert s; induction n as [|n IH]; intros s; [reflexivity|].
  destruct s as [|c s]; simpl.
  - destruct old; [congruence | reflexivity].
  - apply IH.
Qed.

Lemma skip_app (a b : string) : skip (String.length a) (a ++ b) = b.
Proof. induction a; simpl; auto. Qed.

Lemma replace_hit (old new t : string) :
  old <> EmptyString ->
  replace old new (old ++ t) = new ++ replace old new t.
Proof.
  intros Hold. unfold replace.
  destruct old as [|x old]; [congruence|]. 
  cbn [append replace_from].
  replace (starts_with (String x old) (String x (old ++ t))) with true.
  - rewrite replace_from_skip by congruence. now rewrite skip_app.
  - symmetry; apply starts_with_app. now exists t.
Qed.

Lemma replace_miss (old new : string) (c : ascii) (s : string) :
  starts_with old (String c s) = false ->
  replace old new (String c s) = String c (replace old new s).
Proof. intros H. unfold replace. simpl. now rewrite H. Qed.

Lemma replace_absent (old new s : string) :
  contains old s = false -> replace old new s = s.
Proof.
  induction s as [|c s IH]; intros H.
  - unfold replace; simpl. destruct old; [discriminate H | reflexivity].
  - rewrite replace_miss by now apply contains_head.
    rewrite IH; [reflexivity | now apply contains_tail in H].
Qed.






(** ** The matcher finds matches only *)

Lemma all_app (p : charset) (a b : string) :
  all p (a ++ b) = all p a && all p b.
Proof.
  induction a as [|c a IH]; simpl; [reflexivity|].
  now rewrite IH, andb_assoc.
Qed.

Lemma rep_sound {R} (p : charset) (lazy : bool) (s : string)
    (k : string -> option R) :
  forall lo hi x, rep p lazy lo hi s k = Some x ->
  exists w s', s = w ++ s' /\ all p w = true /\ lo <= String.length w /\
               fits hi (String.length w) /\ k s' = Some x.
Proof.
  induction s as [|c s IH]; intros lo hi x H.
  - destruct lo; simpl in H; [|discriminate].
    exists EmptyString, EmptyString. repeat split; auto.
    destruct hi; simpl; lia.
  - destruct lo as [|lo]; cbn [rep] in H.
    + assert (Hstop : k (String c s) = Some x ->
        exists w s', String c s = w ++ s' /\ all p w = true /\
          0 <= String.length w /\ fits hi (String.length w) /\ k s' = Some x).
      { intros Hk. exists EmptyString, (String c s). repeat split; auto.
        destruct hi; simpl; lia. }
      destruct (more hi && p c) eqn:E; [|now apply Hstop].
      apply andb_true_iff in E as [Hm Hp].
      assert (Hgo : rep p lazy 0 (less hi) s k = Some x ->
        exists w s', String c s = w ++ s' /\ all p w = true /\
          0 <= String.length w /\ fits hi (String.length w) /\ k s' = Some x).
      { intros Hr. destruct (IH _ _ _ Hr) as (w & s' & -> & Hw & _ & Hf & Hk).
        exists (String c w), s'. simpl. rewrite Hp, Hw.
        repeat split; auto; [lia|].
        destruct hi as [[|h]|]; simpl in *; try discriminate; auto; lia. }
      destruct lazy.
      * destruct (k (String c s)) eqn:Ek; [apply Hstop; congruence | now apply Hgo].
      * destruct (rep p false 0 (less hi) s k) eqn:Er;
          [apply Hgo; congruence | now apply Hstop].
    + destruct (more hi && p c) eqn:E; [|discriminate].
      apply andb_true_iff in E as [Hm Hp].
      destruct (IH _ _ _ H) as (w & s' & -> & Hw & Hlo & Hf & Hk).
      exists (String c w), s'. simpl. rewrite Hp, Hw.
      repeat split; auto; [lia|].
      destruct hi as [[|h]|]; simpl in *; try discriminate; auto; lia.
Qed.

Lemma rmatch_sound {R} (r : regex) :
  forall g s (k : env -> string -> option R) x,
  rmatch r g s k = Some x ->
  exists w g' s', s = w ++ s' /\ Matches r g w g' /\ k g' s' = Some x.
Proof.
  induction r as [|p|r1 IH1 r2 IH2|r1 IH1 r2 IH2|lazy lo hi p|n r IH|n];
    intros g s k x H; cbn [rmatch] in H.
  - exists EmptyString, g, s. repeat split; auto. constructor.
  - destruct s as [|c s]; [discriminate|].
    destruct (p c) eqn:Hp; [|discriminate].
    exists (String c EmptyString), g, s. repeat split; auto. now constructor.
  - destruct (IH1 _ _ _ _ H) as (w1 & g1 & s1 & -> & M1 & H1).
    destruct (IH2 _ _ _ _ H1) as (w2 & g2 & s2 & -> & M2 & H2).
    exists (w1 ++ w2), g2, s2. rewrite app_assoc.
    repeat split; auto. econstructor; eauto.
  - destruct (rmatch r1 g s k) eqn:E.
    + inversion H; subst.
      destruct (IH1 _ _ _ _ E) as (w & g' & s' & -> & M & Hk).
      exists w, g', s'. repeat split; auto. now apply MAltL.
    + destruct (IH2 _ _ _ _ H) as (w & g' & s' & -> & M & Hk).
      exists w, g', s'. repeat split; auto. now apply MAltR.
  - destruct (rep_sound _ _ _ _ _ _ _ H) as (w & s' & -> & Hw & Hlo & Hf & Hk).
    exists w, g, s'. repeat split; auto. now constructor.
  - destruct (IH _ _ _ _ H) as (w & g' & s' & -> & M & Hk).
    rewrite captured_app in Hk.
    exists w, ((n, w) :: g'), s'. repeat split; auto. now constructor.
  - destruct (lookup g n) as [w|] eqn:Eg; [|discriminate].
    destruct (strip_prefix w s) as [s'|] eqn:Es; [|discriminate].
    apply strip_prefix_app in Es as ->.
    exists w, g, s'. repeat split; auto. now constructor.
Qed.

Lemma match_at_sound (r : regex) (s : string) (m : re_match) (rest : string) :
  match_at r s = Some (m, rest) ->
  exists w g, s = w ++ rest /\ Matches r [] w g /\ m = match_obj r w g.
Proof.
  unfold match_at. intros H.
  apply rmatch_sound in H as (w & g & s' & -> & M & Hk).
  rewrite captured_app in Hk. inversion Hk; subst.
  now exists w, g.
Qed.

(** ** [re.sub] *)

Lemma sub_from_skip (r : regex) (f : re_match -> string) (n : nat) (s : string) :
  n <= String.length s -> sub_from r f n s = sub_from r f 0 (skip n s).
Proof.
  revert s; induction n as [|n IH]; intros s Hn; [reflexivity|].
  destruct s as [|c s]; simpl in Hn; [lia|].
  simpl. apply IH. lia.
Qed.

(** A match that takes at least one character, at the start of the text. *)
Lemma sub_hit (r : regex) (f : re_match -> string) (w rest : string) (m : re_match) :
  w <> EmptyString -> match_at r (w ++ rest) = Some (m, rest) ->
  sub r f (w ++ rest) = f m ++ sub r f rest.
Proof.
  intros Hw H. unfold sub. destruct w as [|c w]; [congruence|].
  cbn [append sub_from]. cbn [append] in H. rewrite H.
  cbn [String.length]. rewrite length_app.
  replace (S (String.length w + String.length rest) - String.length rest)
    with (S (String.length w)) by lia.
  rewrite sub_from_skip by (rewrite length_app; lia).
  now rewrite skip_app.
Qed.

Lemma sub_miss (r : regex) (f : re_match -> string) (c : ascii) (s : string) :
  match_at r (String c s) = None ->
  sub r f (String c s) = String c (sub r f s).
Proof. intros H. unfold sub. cbn [sub_from]. now rewrite H. Qed.

Lemma sub_absent (r : regex) (f : re_match -> string) (s : string) :
  occurs r s = false -> sub r f s = s.
Proof.
  induction s as [|c s IH]; intros H; cbn [occurs] in H.
  - unfold sub; simpl. now destruct (match_at r EmptyString).
  - destruct (match_at r (String c s)) eqn:E; [discriminate|].
    rewrite sub_miss by assumption. now rewrite IH.
Qed.



Lemma sub_cb_absent (r : regex) (f : re_match -> option string) (s : string) :
  occurs r s = false -> sub_cb r f s = Some s.
Proof.
  unfold sub_cb. induction s as [|c s IH]; intros H; cbn [occurs] in H.
  - simpl. now destruct (match_at r EmptyString).
  - destruct (match_at r (String c s)) eqn:E; [discriminate|].
    cbn [sub_cb_from]. rewrite E, IH by assumption. reflexivity.
Qed.

(** ** What the matches of each pattern look like *)

Ltac open_pattern :=
  cbv [Pat.comments Pat.unquote_selectors Pat.url_quotes Pat.whitespace
       Pat.semicolons Pat.none_to_zero Pat.zero_units Pat.units Pat.floats
       Pat.rgb Pat.hsl Pat.hex Pat.rgba Pat.hsla Pat.empty_rules
       seqs lit words star plus opt lazy_star times] in *.

Ltac split_match :=
  repeat match goal with
  | H : Matches Eps _ _ _ |- _ => inversion H; subst; clear H
  | H : Matches (Chr _) _ _ _ |- _ => inversion H; subst; clear H
  | H : Matches (Seq _ _) _ _ _ |- _ => inversion H; subst; clear H
  | H : Matches (Alt _ _) _ _ _ |- _ => inversion H; subst; clear H
  | H : Matches (Rep _ _ _ _) _ _ _ |- _ => inversion H; subst; clear H
  | H : Matches (Grp _ _) _ _ _ |- _ => inversion H; subst; clear H
  | H : Matches (Ref _) _ _ _ |- _ => inversion H; subst; clear H
  end.

Ltac lengths :=
  cbn [match_obj ngroups Nat.max seq map bound lookup Nat.eqb group nth] in *;
  repeat (rewrite length_app in * ); cbn [String.length] in *; try lia.

Ltac shrink_by_shape :=
  intros s m rest H;
  apply match_at_sound in H as (w & g & -> & M & ->);
  open_pattern; split_match; lengths.










Lemma hsla_match_length (s : string) (m : re_match) (rest : string) :
  match_at Pat.hsla s = Some (m, rest) -> 9 + String.length rest <= String.length s.
Proof. revert s m rest. shrink_by_shape. Qed.

(** ** The length of the output *)





(** ** Running the pipeline on a given text *)

Lemma colon_letter_absent (k s : string) :
  key_named k = true -> colon_letter s = false -> contains (":" ++ k) s = false.
Proof.
  intros Hk. destruct k as [|d k]; [discriminate|]. simpl in Hk.
  induction s as [|c s IH]; intros H; [reflexivity|].
  cbn [colon_letter] in H. apply orb_false_iff in H as [H1 H2].
  cbn [contains]. rewrite (IH H2), orb_false_r.
  unfold starts_with. cbn [append strip_prefix].
  unfold is_chr in H1.
  destruct (Ascii.eqb ":" c); [|reflexivity].
  destruct s as [|e s]; [reflexivity|].
  destruct (Ascii.eqb_spec d e) as [<-|]; [|reflexivity].
  simpl in H1. congruence.
Qed.

Lemma css_sub_clrs_absent (tbl : list (string * string)) (css : string) :
  Forall (fun kv => contains (":" ++ fst kv) css = false) tbl ->
  css_sub_clrs tbl css = css.
Proof.
  unfold css_sub_clrs. induction 1 as [|[k v] tbl Hk _ IH]; [reflexivity|].
  cbn [fold_left]. simpl in Hk. now rewrite (replace_absent _ _ _ Hk).
Qed.

Lemma css_sub_clrs_no_colon_letter (tbl : list (string * string)) (css : string) :
  keys_named tbl -> colon_letter css = false -> css_sub_clrs tbl css = css.
Proof.
  intros Hk Hc. apply css_sub_clrs_absent.
  eapply Forall_impl; [|exact Hk].
  intros [k v] H. now apply colon_letter_absent.
Qed.

(** The pipeline, rule by rule. *)
Lemma minify_css_steps (tbl : list (string * string))
    (rgb hsl rgba hsla : re_match -> option string)
    (css c8 c9 c10 c12 c13 c14 out : string) :
  css_shorten_floats (css_sub_zero_units (css_none_to_zero
    (css_remove_semicolons (css_remove_url_quotes (css_unquote_selectors
      (css_remove_whitespace (css_remove_comments css))))))) = c8 ->
  css_rgb2hex rgb c8 = Some c9 ->
  css_hsl2hex hsl c9 = Some c10 ->
  css_shorten_hex (css_sub_clrs tbl c10) = c12 ->
  css_rgba2hex rgba c12 = Some c13 ->
  css_hsla2hex hsla c13 = Some c14 ->
  css_font_weights (css_remove_empty_rules c14) = out ->
  minify_css tbl rgb hsl rgba hsla css = Some out.
Proof.
  intros H8 H9 H10 H12 H13 H14 H16. unfold minify_css.
  rewrite H8, H9. cbn [bind]. rewrite H10. cbn [bind].
  rewrite H12, H13. cbn [bind]. rewrite H14. cbn [bind]. now rewrite H16.
Qed.

(** A text in which no colour function and no colon followed by a letter
    is left after the first eight rules. *)
Ltac no_match := apply sub_cb_absent; vm_compute; reflexivity.

Ltac run_plain out8 :=
  apply minify_css_steps with (c8 := out8) (c9 := out8) (c10 := out8)
    (c12 := out8) (c13 := out8) (c14 := out8);
  [ vm_compute; reflexivity
  | no_match | no_match
  | rewrite css_sub_clrs_no_colon_letter by (assumption || (vm_compute; reflexivity));
    vm_compute; reflexivity
  | no_match | no_match
  | vm_compute; reflexivity ].

Lemma sample_keys_named : keys_named Sample.REPLACABLE_CLRS.
Proof. repeat constructor. Defined.


(** ** The rule for semicolons *)

Lemma rep_greedy_all {R} (p : charset) (k : string -> option R) :
  (forall t, k t <> None) ->
  forall s, rep p false 0 None s k = k (skip_while p s).
Proof.
  intros Hk. induction s as [|c s IH]; [reflexivity|].
  cbn [rep skip_while more less andb].
  destruct (p c); [|reflexivity].
  rewrite IH. destruct (k (skip_while p s)) eqn:E; [reflexivity|].
  now apply Hk in E.
Qed.

Lemma skip_while_split (p : charset) (s : string) :
  exists w, s = w ++ skip_while p s /\ all p w = true.
Proof.
  induction s as [|c s (w & IH & Hw)]; [now exists EmptyString|].
  cbn [skip_while]. destruct (p c) eqn:E.
  - exists (String c w). simpl. rewrite E, Hw. split; [now rewrite <- IH | reflexivity].
  - now exists EmptyString.
Qed.

Lemma skip_while_begins (c : ascii) (s : string) :
  begins c (skip_while (is_chr c) s) = false.
Proof.
  induction s as [|d s IH]; [reflexivity|].
  cbn [skip_while]. unfold is_chr at 1. destruct (Ascii.eqb c d) eqn:E; [exact IH|].
  simpl. exact E.
Qed.

Lemma skip_while_length (p : charset) (s : string) :
  String.length (skip_while p s) <= String.length s.
Proof.
  induction s as [|c s IH]; simpl; [lia|]. destruct (p c); simpl; lia.
Qed.

Lemma contains_skip_while (q : string) (p : charset) (s : string) :
  contains q s = false -> contains q (skip_while p s) = false.
Proof.
  induction s as [|c s IH]; intros H; [exact H|].
  cbn [skip_while]. destruct (p c); [|exact H].
  apply IH. now apply contains_tail in H.
Qed.

(** Two semicolons start a match, which takes the whole run. *)
Lemma semicolons_hit (t : string) :
  sub Pat.semicolons (fun _ => EmptyString) (";;" ++ t)
  = sub Pat.semicolons (fun _ => EmptyString) (skip_while (is_chr ";") t).
Proof.
  destruct (skip_while_split (is_chr ";") t) as (w & Ht & _).
  assert (E : exists m, match_at Pat.semicolons (";;" ++ t)
                        = Some (m, skip_while (is_chr ";") t)).
  { unfold match_at, Pat.semicolons, plus.
    cbn [seqs rmatch append rep is_chr more less andb Ascii.eqb Bool.eqb].
    rewrite rep_greedy_all by discriminate. eauto. }
  destruct E as [m E].
  rewrite Ht in E at 1. rewrite Ht at 1.
  change (";;" ++ w ++ skip_while (is_chr ";") t)
    with ((";;" ++ w) ++ skip_while (is_chr ";") t) in *.
  rewrite (sub_hit _ _ (";;" ++ w) _ m); [reflexivity | discriminate | exact E].
Qed.

Lemma semicolons_miss (s : string) :
  starts_with ";;" s = false -> match_at Pat.semicolons s = None.
Proof.
  intros H. destruct (match_at Pat.semicolons s) as [[m rest]|] eqn:E; [|reflexivity].
  exfalso. apply match_at_sound in E as (w & g & -> & M & _).
  open_pattern; split_match.
  match goal with
  | Hc : is_chr _ ?c = true, Ha : all _ ?w = true, Hl : 1 <= String.length ?w |- _ =>
      destruct w as [|d w]; [simpl in Hl; lia|];
      cbn [all] in Ha; apply andb_true_iff in Ha as [Hd _];
      unfold is_chr in Hc, Hd;
      apply Ascii.eqb_eq in Hc, Hd; subst c d
  end.
  discriminate H.
Qed.

Lemma begins_sub_semicolons (c : ascii) (s : string) :
  begins ";" s = false ->
  begins c (sub Pat.semicolons (fun _ => EmptyString) s) = begins c s.
Proof.
  intros H. destruct s as [|d s]; [reflexivity|].
  rewrite sub_miss; [reflexivity|].
  apply semicolons_miss. simpl in H. unfold starts_with. simpl. now rewrite H.
Qed.

(** The three cases of a text: empty, a character that begins no match,
    or two semicolons. *)
Lemma semicolons_cases (s : string) :
  s = EmptyString
  \/ (exists c s', s = String c s' /\ starts_with ";;" s = false)
  \/ (exists t, s = ";;" ++ t).
Proof.
  destruct s as [|c s]; [now left|].
  destruct (starts_with ";;" (String c s)) eqn:E.
  - right; right. now apply starts_with_app.
  - right; left. now exists c, s.
Qed.

Lemma starts_with_two (a b : ascii) (s : string) :
  starts_with (String a (String b EmptyString)) s
  = begins a s && match s with String _ s' => begins b s' | EmptyString => false end.
Proof.
  unfold starts_with. destruct s as [|c s]; [reflexivity|]. simpl.
  destruct (Ascii.eqb a c); [|reflexivity].
  destruct s as [|d s]; [reflexivity|]. simpl.
  now destruct (Ascii.eqb b d).
Qed.

Lemma css_semicolons_no_pair (n : nat) :
  forall s, String.length s <= n ->
  contains ";;" (sub Pat.semicolons (fun _ => EmptyString) s) = false.
Proof.
  induction n as [|n IH]; intros s Hn.
  - destruct s; [reflexivity | simpl in Hn; lia].
  - destruct (semicolons_cases s) as [->|[(c & s' & -> & Hc)|(t & ->)]].
    + reflexivity.
    + rewrite sub_miss by now apply semicolons_miss.
      cbn [contains]. rewrite IH by (simpl in Hn; lia).
      rewrite orb_false_r, starts_with_two.
      rewrite starts_with_two in Hc. cbn [begins] in *.
      destruct (Ascii.eqb ";" c); [|reflexivity]. cbn [andb] in *.
      now rewrite begins_sub_semicolons.
    + rewrite semicolons_hit. apply IH.
      pose proof (skip_while_length (is_chr ";") t).
      rewrite length_app in Hn. simpl in Hn. lia.
Qed.

Lemma css_semicolons_keeps_clean (n : nat) :
  forall s, String.length s <= n -> contains ";}" s = false ->
  contains ";}" (sub Pat.semicolons (fun _ => EmptyString) s) = false.
Proof.
  induction n as [|n IH]; intros s Hn Hs.
  - destruct s; [reflexivity | simpl in Hn; lia].
  - destruct (semicolons_cases s) as [->|[(c & s' & -> & Hc)|(t & ->)]].
    + reflexivity.
    + rewrite sub_miss by now apply semicolons_miss.
      cbn [contains] in *. apply orb_false_iff in Hs as [Hh Ht].
      rewrite IH by (assumption || (simpl in Hn; lia)).
      rewrite orb_false_r. rewrite starts_with_two in *. cbn [begins] in *.
      destruct (Ascii.eqb ";" c); [|reflexivity]. cbn [andb] in *.
      rewrite begins_sub_semicolons; [assumption|].
      destruct s' as [|d s']; [reflexivity|]. cbn [begins] in *.
      destruct (Ascii.eqb_spec ";" d) as [<-|]; [discriminate Hc | reflexivity].
    + rewrite semicolons_hit. apply IH.
      * pose proof (skip_while_length (is_chr ";") t).
        rewrite length_app in Hn. simpl in Hn. lia.
      * apply contains_skip_while.
        change (";;" ++ t) with (String ";" (String ";" t)) in Hs.
        now apply contains_tail, contains_tail in Hs.
Qed.

(** [replace(";}", "}")] leaves [;}] only where the text had [;;}]. *)
Lemma begins_replace_brace (s : string) :
  begins "}" (replace ";}" "}" s) = true ->
  begins "}" s = true \/ starts_with ";}" s = true.
Proof.
  destruct s as [|c s]; [discriminate|].
  destruct (starts_with ";}" (String c s)) eqn:E; [now right|].
  rewrite replace_miss by assumption. now left.
Qed.

Lemma replace_brace_clean (n : nat) :
  forall s, String.length s <= n -> contains ";;}" s = false ->
  contains ";}" (replace ";}" "}" s) = false.
Proof.
  induction n as [|n IH]; intros s Hn Hs.
  - destruct s; [reflexivity | simpl in Hn; lia].
  - destruct s as [|c s]; [reflexivity|].
    destruct (starts_with ";}" (String c s)) eqn:E.
    + apply starts_with_app in E as [t E]. rewrite E in *.
      rewrite replace_hit by discriminate.
      change ("}" ++ replace ";}" "}" t) with (String "}" (replace ";}" "}" t)).
      cbn [contains]. rewrite starts_with_two. cbn [begins andb Ascii.eqb Bool.eqb orb].
      apply IH.
      * rewrite length_app in Hn. simpl in Hn. lia.
      * change (";}" ++ t) with (String ";" (String "}" t)) in Hs.
        now apply contains_tail, contains_tail in Hs.
    + rewrite replace_miss by assumption.
      cbn [contains]. rewrite IH;
        [| simpl in Hn; lia | now apply contains_tail in Hs].
      rewrite orb_false_r, starts_with_two. cbn [begins].
      destruct (Ascii.eqb_spec ";" c) as [<-|]; [|reflexivity]. cbn [andb].
      destruct (begins "}" (replace ";}" "}" s)) eqn:B; [|reflexivity].
      apply begins_replace_brace in B as [B|B].
      * rewrite starts_with_two in E. cbn [begins andb] in E.
        rewrite Ascii.eqb_refl in E. simpl in E. congruence.
      * apply starts_with_app in B as [t ->].
        apply contains_head in Hs. discriminate Hs.
Qed.

(** ** The rule for [none] *)

Lemma captured_eq (w s t : string) : t = w ++ s -> captured t s = w.
Proof. intros ->. apply captured_app. Qed.

Lemma none_to_zero_border (s : string) :
  match_at Pat.none_to_zero ("border:none" ++ s)
  = Some (["border:none"; "border"], s).
Proof.
  unfold match_at, Pat.none_to_zero.
  cbn [seqs words lit rmatch append is_chr Ascii.eqb Bool.eqb].
  rewrite (captured_eq "border" (":none" ++ s)) by reflexivity.
  rewrite (captured_eq "border:none" s) by reflexivity.
  reflexivity.
Qed.

Lemma none_to_zero_opacity (s : string) :
  match_at Pat.none_to_zero ("opacity:none" ++ s)
  = Some (["opacity:none"; "opacity"], s).
Proof.
  unfold match_at, Pat.none_to_zero.
  cbn [seqs words lit rmatch append is_chr Ascii.eqb Bool.eqb].
  rewrite (captured_eq "opacity" (":none" ++ s)) by reflexivity.
  rewrite (captured_eq "opacity:none" s) by reflexivity.
  reflexivity.
Qed.

Ltac chars_known :=
  repeat match goal with
  | H : is_chr _ _ = true |- _ => unfold is_chr in H; apply Ascii.eqb_eq in H; subst
  end.

Lemma none_to_zero_miss (s : string) :
  starts_with "border:none" s = false -> starts_with "opacity:none" s = false ->
  match_at Pat.none_to_zero s = None.
Proof.
  intros Hb Ho.
  destruct (match_at Pat.none_to_zero s) as [[m rest]|] eqn:E; [|reflexivity].
  exfalso. apply match_at_sound in E as (w & g & -> & M & _).
  open_pattern; split_match; chars_known.
  - discriminate Hb.
  - discriminate Ho.
Qed.

(** ** The rule for hex colours *)

Lemma rep_exactly {R} (p : charset) (w : string) :
  all p w = true ->
  forall rest (k : string -> option R),
  rep p false (String.length w) (Some (String.length w)) (w ++ rest) k = k rest.
Proof.
  induction w as [|c w IH]; intros Hw rest k.
  - simpl. destruct rest; reflexivity.
  - cbn [all] in Hw. apply andb_true_iff in Hw as [Hc Hw].
    cbn [String.length append rep more less Nat.pred andb]. rewrite Hc.
    now apply IH.
Qed.

Lemma hex_hit (h rest : string) :
  String.length h = 6 -> all is_hex h = true ->
  match_at Pat.hex ("#" ++ h ++ rest) = Some (["#" ++ h; h], rest).
Proof.
  intros Hl Hh. unfold match_at, Pat.hex, times.
  cbn [seqs rmatch append is_chr Ascii.eqb Bool.eqb].
  rewrite <- Hl. rewrite rep_exactly by assumption.
  rewrite (captured_eq h rest (h ++ rest)) by reflexivity.
  rewrite (captured_eq ("#" ++ h) rest (String "#" (h ++ rest))) by reflexivity.
  rewrite Hl. reflexivity.
Qed.

Lemma hex_shape (s : string) (m : re_match) (rest : string) :
  match_at Pat.hex s = Some (m, rest) ->
  exists h, s = "#" ++ h ++ rest /\ String.length h = 6 /\ all is_hex h = true.
Proof.
  intros E. apply match_at_sound in E as (w & g & -> & M & _).
  open_pattern; split_match; chars_known.
  match goal with Ha : all is_hex ?w = true |- _ => exists w end.
  cbn [fits] in *. repeat split; [lia | assumption].
Qed.

Lemma hex_miss (c : ascii) (s : string) :
  Ascii.eqb "#" c = false -> match_at Pat.hex (String c s) = None.
Proof.
  intros H. unfold match_at, Pat.hex. cbn [seqs rmatch]. unfold is_chr.
  now rewrite H.
Qed.

(** A run of hex digits in front of a [#] ends before it. *)
Lemma hex_run_before (h : string) :
  all is_hex h = true ->
  forall p x rest, p ++ String "#" x = h ++ rest ->
  exists p', p = h ++ p' /\ rest = p' ++ String "#" x.
Proof.
  induction h as [|c h IH]; intros Hh p x rest E.
  - exists p. now simpl in *.
  - cbn [all] in Hh. apply andb_true_iff in Hh as [Hc Hh].
    destruct p as [|d p]; simpl in E; injection E as E1 E2.
    + subst c. discriminate Hc.
    + subst d. destruct (IH Hh _ _ _ E2) as (p' & -> & ->). now exists p'.
Qed.

Lemma sub_hex_app (f : re_match -> string) (n : nat) :
  forall pre x, String.length pre <= n ->
  sub Pat.hex f (pre ++ String "#" x)
  = sub Pat.hex f pre ++ sub Pat.hex f (String "#" x).
Proof.
  induction n as [|n IH]; intros pre x Hn.
  - destruct pre; [reflexivity | simpl in Hn; lia].
  - destruct pre as [|c pre]; [reflexivity|].
    cbn [append].
    destruct (match_at Pat.hex (String c (pre ++ String "#" x)))
      as [[m rest]|] eqn:E.
    + pose proof (hex_shape _ _ _ E) as (h & Es & Hl & Hh).
      simpl in Es. injection Es as -> Es.
      destruct (hex_run_before h Hh _ _ _ Es) as (p' & -> & ->).
      assert (Hp : String.length p' <= n).
      { simpl in Hn. rewrite length_app in Hn. lia. }
      change (String "#" ((h ++ p') ++ String "#" x))
        with ("#" ++ (h ++ p') ++ String "#" x).
      rewrite app_assoc.
      change ("#" ++ h ++ p' ++ String "#" x)
        with (("#" ++ h) ++ p' ++ String "#" x).
      rewrite (sub_hit Pat.hex f ("#" ++ h) _ ["#" ++ h; h]);
        [| discriminate | apply (hex_hit h _ Hl Hh)].
      change (String "#" (h ++ p')) with (("#" ++ h) ++ p').
      rewrite (sub_hit Pat.hex f ("#" ++ h) _ ["#" ++ h; h]);
        [| discriminate | apply (hex_hit h _ Hl Hh)].
      rewrite IH by assumption. now rewrite app_assoc.
    + assert (E' : match_at Pat.hex (String c pre) = None).
      { destruct (match_at Pat.hex (String c pre)) as [[m rest]|] eqn:E'; [|reflexivity].
        apply hex_shape in E' as (h & Es & Hl & Hh).
        simpl in Es. injection Es as -> ->.
        change (String "#" ((h ++ rest) ++ String "#" x))
          with ("#" ++ (h ++ rest) ++ String "#" x) in E.
        rewrite app_assoc in E. rewrite (hex_hit h _ Hl Hh) in E. discriminate E. }
      rewrite !sub_miss by assumption.
      rewrite IH by (simpl in Hn; lia). reflexivity.
Qed.

Lemma is_hex_not_hash (c : ascii) : is_hex c = true -> Ascii.eqb "#" c = false.
Proof.
  intros H. destruct (Ascii.eqb_spec "#" c) as [<-|]; [discriminate H | reflexivity].
Qed.

(** ** Texts in which a pattern cannot occur *)

Lemma one_of_app (a b : string) (c : ascii) :
  one_of (a ++ b) c = one_of a c || one_of b c.
Proof.
  induction a as [|x a IH]; simpl; [reflexivity|].
  now rewrite IH, orb_assoc.
Qed.

Lemma all_not_one_of (p : charset) (w : string) (c : ascii) :
  all p w = true -> p c = false -> one_of w c = false.
Proof.
  intros Hw Hc. induction w as [|x w IH]; [reflexivity|].
  cbn [all] in Hw. apply andb_true_iff in Hw as [Hx Hw].
  cbn [one_of]. rewrite (IH Hw), orb_false_r.
  destruct (Ascii.eqb_spec x c) as [->|]; [congruence | reflexivity].
Qed.

(** A text that contains [p] contains every character of [p]. *)
Lemma contains_needs (p s : string) (c : ascii) :
  one_of p c = true -> one_of s c = false -> contains p s = false.
Proof.
  intros Hp Hs. destruct (contains p s) eqn:E; [|reflexivity].
  apply contains_split in E as (a & b & ->).
  rewrite !one_of_app, Hp in Hs. rewrite orb_true_r in Hs. discriminate.
Qed.

Lemma occurs_split (r : regex) (s : string) :
  occurs r s = true ->
  exists a t m rest, s = a ++ t /\ match_at r t = Some (m, rest).
Proof.
  induction s as [|c s IH]; cbn [occurs]; intros H.
  - destruct (match_at r EmptyString) as [[m rest]|] eqn:E; [|discriminate].
    now exists EmptyString, EmptyString, m, rest.
  - destruct (match_at r (String c s)) as [[m rest]|] eqn:E.
    + now exists EmptyString, (String c s), m, rest.
    + destruct (IH H) as (a & t & m & rest & -> & Ht).
      now exists (String c a), t, m, rest.
Qed.

(** A match of [css_remove_empty_rules]'s pattern contains [{}]. *)
Lemma empty_rules_needs_braces (s : string) :
  contains "{}" s = false -> occurs Pat.empty_rules s = false.
Proof.
  intros Hs. destruct (occurs Pat.empty_rules s) eqn:E; [|reflexivity].
  apply occurs_split in E as (a & t & m & rest & -> & E).
  apply match_at_sound in E as (w & g & -> & M & _).
  open_pattern; split_match; chars_known.
  match type of Hs with context [(?w ++ _) ++ rest] =>
    replace (a ++ (w ++ "{" ++ "}") ++ rest) with ((a ++ w) ++ "{}" ++ rest) in Hs
      by (now rewrite !app_assoc)
  end.
  now rewrite contains_app in Hs.
Qed.

Lemma contains_after_run (p : charset) (x : ascii) (q d t : string) :
  all p d = true -> p x = false ->
  contains (String x q) (d ++ t) = contains (String x q) t.
Proof.
  intros Hd Hx. induction d as [|c d IH]; [reflexivity|].
  cbn [all] in Hd. apply andb_true_iff in Hd as [Hc Hd].
  cbn [append contains]. rewrite (IH Hd).
  unfold starts_with. cbn [strip_prefix].
  destruct (Ascii.eqb_spec x c) as [->|]; [congruence | reflexivity].
Qed.

(** ** Texts that begin with a given text *)

Lemma starts_with_cons (x : ascii) (p : string) (c : ascii) (s : string) :
  starts_with (String x p) (String c s) = Ascii.eqb x c && starts_with p s.
Proof.
  unfold starts_with. cbn [strip_prefix]. now destruct (Ascii.eqb x c).
Qed.


(** ** A match does not go past a character that the pattern rejects *)

Lemma rep_ext {R} (p : charset) (lazy : bool) (k1 k2 : string -> option R) :
  (forall s, k1 s = k2 s) ->
  forall s lo hi, rep p lazy lo hi s k1 = rep p lazy lo hi s k2.
Proof.
  intros Hk. induction s as [|c s IH]; intros lo hi.
  - destruct lo; simpl; [apply Hk | reflexivity].
  - destruct lo as [|lo]; cbn [rep].
    + destruct (more hi && p c); [|apply Hk].
      destruct lazy; rewrite IH, Hk; reflexivity.
    + destruct (more hi && p c); [apply IH | reflexivity].
Qed.

Lemma rmatch_ext {R} (r : regex) :
  forall g s (k1 k2 : env -> string -> option R),
  (forall g' s', k1 g' s' = k2 g' s') -> rmatch r g s k1 = rmatch r g s k2.
Proof.
  induction r as [|p|r1 IH1 r2 IH2|r1 IH1 r2 IH2|lazy lo hi p|n r IH|n];
    intros g s k1 k2 Hk; cbn [rmatch].
  - apply Hk.
  - destruct s as [|c s]; [reflexivity|]. destruct (p c); [apply Hk | reflexivity].
  - apply IH1. intros g' s'. now apply IH2.
  - rewrite (IH1 g s k1 k2 Hk), (IH2 g s k1 k2 Hk). reflexivity.
  - apply rep_ext. intros s'. apply Hk.
  - apply IH. intros g' s'. apply Hk.
  - destruct (lookup g n); [|reflexivity].
    destruct (strip_prefix s0 s); [apply Hk | reflexivity].
Qed.

Lemma rep_barrier {R} (p : charset) (lazy : bool) (b : ascii) (u : string)
    (k : string -> option R) :
  p b = false ->
  forall t lo hi,
  rep p lazy lo hi (t ++ String b u) k
  = rep p lazy lo hi t (fun s' => k (s' ++ String b u)).
Proof.
  intros Hb. induction t as [|c t IH]; intros lo hi.
  - cbn [append]. destruct lo; cbn [rep]; rewrite Hb, andb_false_r; reflexivity.
  - cbn [append]. destruct lo as [|lo]; cbn [rep].
    + destruct (more hi && p c); [|reflexivity].
      destruct lazy; rewrite IH; reflexivity.
    + destruct (more hi && p c); [apply IH | reflexivity].
Qed.

Lemma substring_barrier (n : nat) (t u : string) :
  n <= String.length t -> substring 0 n (t ++ u) = substring 0 n t.
Proof.
  revert n; induction t as [|c t IH]; intros n Hn.
  - simpl in Hn. replace n with 0 by lia. destruct u; reflexivity.
  - destruct n as [|n]; [reflexivity|]. simpl. rewrite IH; [reflexivity|].
    simpl in Hn. lia.
Qed.

Lemma captured_barrier (t s' u : string) :
  captured (t ++ u) (s' ++ u) = captured t s'.
Proof.
  unfold captured. rewrite !length_app.
  replace (String.length t + String.length u - (String.length s' + String.length u))
    with (String.length t - String.length s') by lia.
  apply substring_barrier. lia.
Qed.

Lemma rmatch_barrier {R} (r : regex) (b : ascii) (u : string) :
  rejects r b = true ->
  forall g t (k : env -> string -> option R),
  rmatch r g (t ++ String b u) k
  = rmatch r g t (fun g' s' => k g' (s' ++ String b u)).
Proof.
  induction r as [|p|r1 IH1 r2 IH2|r1 IH1 r2 IH2|lazy lo hi p|n r IH|n];
    cbn [rejects]; intros Hr g t k; cbn [rmatch].
  - reflexivity.
  - apply negb_true_iff in Hr. destruct t as [|c t]; cbn [append].
    + now rewrite Hr.
    + reflexivity.
  - apply andb_true_iff in Hr as [H1 H2].
    rewrite (IH1 H1). apply rmatch_ext. intros g' s'. apply (IH2 H2).
  - apply andb_true_iff in Hr as [H1 H2].
    now rewrite (IH1 H1), (IH2 H2).
  - apply negb_true_iff in Hr. now apply rep_barrier.
  - rewrite (IH Hr). apply rmatch_ext. intros g' s'.
    now rewrite captured_barrier.
  - discriminate Hr.
Qed.

Lemma rep_past (p : charset) (lazy : bool) (v : string)
    (ka kb : string -> option (re_match * string)) :
  (forall s, ka s = past v (kb s)) ->
  forall s lo hi, rep p lazy lo hi s ka = past v (rep p lazy lo hi s kb).
Proof.
  intros Hk. induction s as [|c s IH]; intros lo hi.
  - destruct lo; simpl; [apply Hk | reflexivity].
  - destruct lo as [|lo]; cbn [rep].
    + destruct (more hi && p c); [|apply Hk].
      destruct lazy.
      * rewrite Hk. destruct (kb (String c s)) as [[m rest]|]; [reflexivity|].
        apply IH.
      * rewrite IH.
        destruct (rep p false 0 (less hi) s kb) as [[m rest]|];
          [reflexivity | apply Hk].
    + destruct (more hi && p c); [apply IH | reflexivity].
Qed.

Lemma rmatch_past (r : regex) (v : string) :
  forall g s (ka kb : env -> string -> option (re_match * string)),
  (forall g' s', ka g' s' = past v (kb g' s')) ->
  rmatch r g s ka = past v (rmatch r g s kb).
Proof.
  induction r as [|p|r1 IH1 r2 IH2|r1 IH1 r2 IH2|lazy lo hi p|n r IH|n];
    intros g s ka kb Hk; cbn [rmatch].
  - apply Hk.
  - destruct s as [|c s]; [reflexivity|]. destruct (p c); [apply Hk | reflexivity].
  - apply IH1. intros g' s'. now apply IH2.
  - rewrite (IH1 g s ka kb Hk), (IH2 g s ka kb Hk).
    destruct (rmatch r1 g s kb) as [[m rest]|]; reflexivity.
  - apply rep_past. intros s'. apply Hk.
  - apply IH. intros g' s'. apply Hk.
  - destruct (lookup g n); [|reflexivity].
    destruct (strip_prefix s0 s); [apply Hk | reflexivity].
Qed.

(** In front of a character that [r] rejects, [r] matches as it does in
    front of nothing. *)
Lemma match_at_barrier (r : regex) (b : ascii) (t u : string) :
  rejects r b = true ->
  match_at r (t ++ String b u) = past (String b u) (match_at r t).
Proof.
  intros Hr. unfold match_at. rewrite (rmatch_barrier r b u Hr).
  apply rmatch_past. intros g' s'. cbn [past].
  now rewrite captured_barrier.
Qed.

(** ** [re.sub] around a character that the pattern rejects *)

Lemma consuming_at_end (r : regex) :
  consuming r -> match_at r EmptyString = None.
Proof.
  intros H. destruct (match_at r EmptyString) as [[m rest]|] eqn:E; [|reflexivity].
  apply H in E. simpl in E. lia.
Qed.

Lemma sub_empty (r : regex) (f : re_match -> string) :
  consuming r -> sub r f EmptyString = EmptyString.
Proof. intros H. unfold sub. simpl. now rewrite (consuming_at_end r H). Qed.

Lemma sub_barrier (r : regex) (f : re_match -> string) (b : ascii) (n : nat) :
  rejects r b = true -> consuming r ->
  forall pre u, String.length pre <= n ->
  sub r f (pre ++ String b u) = sub r f pre ++ sub r f (String b u).
Proof.
  intros Hr Hc. induction n as [|n IH]; intros pre u Hn.
  - destruct pre; [|simpl in Hn; lia]. now rewrite sub_empty.
  - destruct pre as [|c pre]; [now rewrite sub_empty|].
    pose proof (match_at_barrier r b (String c pre) u Hr) as Hb.
    destruct (match_at r (String c pre)) as [[m rest]|] eqn:E; cbn [past] in Hb.
    + pose proof (Hc _ _ _ E) as Hlt.
      destruct (match_at_sound _ _ _ _ E) as (w & g & Ew & _ & _).
      assert (Hw : w <> EmptyString).
      { intros ->. simpl in Ew. rewrite Ew in Hlt. lia. }
      assert (Hrest : String.length rest <= n).
      { simpl in Hn, Hlt. lia. }
      rewrite Ew in *. rewrite app_assoc in Hb |- *.
      rewrite (sub_hit r f w _ m Hw Hb), (sub_hit r f w _ m Hw E).
      rewrite (IH rest u Hrest). now rewrite app_assoc.
    + cbn [append] in *. rewrite !sub_miss by assumption.
      rewrite IH by (simpl in Hn; lia). reflexivity.
Qed.

(** Characters at which no match begins are copied. *)
Lemma sub_inert (r : regex) (f : re_match -> string) (w s : string) :
  (forall c t, one_of w c = true -> match_at r (String c t) = None) ->
  sub r f (w ++ s) = w ++ sub r f s.
Proof.
  induction w as [|c w IH]; intros H; [reflexivity|].
  cbn [append]. rewrite sub_miss.
  - rewrite IH; [reflexivity|]. intros d t Hd. apply H. cbn [one_of].
    rewrite Hd. apply orb_true_r.
  - apply H. cbn [one_of]. now rewrite Ascii.eqb_refl.
Qed.

(** What a substitution with a callback returns, when it returns. *)
Lemma sub_cb_from_some (r : regex) (f : re_match -> option string) :
  forall s n out, sub_cb_from r f n s = Some out ->
  out = sub_from r (fun m => returned (f m)) n s.
Proof.
  induction s as [|c s IH]; intros n out H.
  - cbn [sub_cb_from sub_from] in *. destruct n; [|now inversion H].
    destruct (match_at r EmptyString) as [[m rest]|]; [|now inversion H].
    now rewrite H.
  - destruct n as [|n]; cbn [sub_cb_from sub_from] in *; [|now apply IH].
    destruct (match_at r (String c s)) as [[m rest]|].
    + destruct (f m) as [x|] eqn:Ef; [|discriminate]. cbn [returned].
      destruct (String.length (String c s) - String.length rest) as [|w];
        [destruct (sub_cb_from r f 0 s) as [y|] eqn:Ey
        |destruct (sub_cb_from r f w s) as [y|] eqn:Ey];
        cbn [cons_out] in H; try discriminate; inversion H; subst.
      * rewrite (IH 0 y Ey). now rewrite app_assoc.
      * now rewrite (IH w y Ey).
    + destruct (sub_cb_from r f 0 s) as [y|] eqn:Ey; cbn [cons_out] in H;
        [|discriminate]. inversion H; subst. now rewrite (IH 0 y Ey).
Qed.

Lemma sub_cb_some (r : regex) (f : re_match -> option string) (s out : string) :
  sub_cb r f s = Some out -> out = sub r (fun m => returned (f m)) s.
Proof. apply sub_cb_from_some. Qed.

(** ** The rules after the conversions *)

Lemma hsla_consuming : consuming Pat.hsla.
Proof. intros s m rest H. apply hsla_match_length in H. lia. Qed.

Lemma hsla_head (c : ascii) (t : string) :
  Ascii.eqb "h" c = false -> match_at Pat.hsla (String c t) = None.
Proof.
  intros H. unfold match_at, Pat.hsla. cbn [seqs lit rmatch]. unfold is_chr.
  now rewrite H.
Qed.

Lemma hex_run_not (d : string) (x : ascii) :
  all is_hex d = true -> is_hex x = false ->
  forall c, one_of d c = true -> Ascii.eqb x c = false.
Proof.
  intros Hd Hx c Hc. destruct (Ascii.eqb_spec x c) as [<-|]; [|reflexivity].
  now rewrite (all_not_one_of is_hex d x Hd Hx) in Hc.
Qed.

Lemma brace_free_app (a b : string) :
  brace_free (a ++ b) = brace_free a && brace_free b.
Proof. apply all_app. Qed.

Lemma hex_brace_free (d : string) : all is_hex d = true -> brace_free d = true.
Proof.
  unfold brace_free. induction d as [|c d IH]; [reflexivity|].
  cbn [all]. intros H. apply andb_true_iff in H as [Hc Hd].
  rewrite (IH Hd), andb_true_r. unfold none_of. cbn [one_of].
  destruct (Ascii.eqb_spec "}" c) as [<-|]; [discriminate Hc|].
  destruct (Ascii.eqb_spec "{" c) as [<-|]; [discriminate Hc | reflexivity].
Qed.

(** *** Empty rules *)

Lemma rep_greedy_stop {R} (p : charset) (k : string -> option R) (s : string) (x : R) :
  match s with String c _ => p c = false | EmptyString => True end ->
  k s = Some x ->
  forall w lo, all p w = true -> lo <= String.length w ->
  rep p false lo None (w ++ s) k = Some x.
Proof.
  intros Hs Hk. induction w as [|c w IH]; intros lo Hw Hlo.
  - simpl in Hlo. replace lo with 0 by lia. cbn [append].
    destruct s as [|c s]; cbn [rep]; [exact Hk|].
    now rewrite Hs, andb_false_r.
  - cbn [all] in Hw. apply andb_true_iff in Hw as [Hc Hw].
    cbn [append]. destruct lo as [|lo]; cbn [rep more less andb]; rewrite Hc.
    + now rewrite (IH 0 Hw (Nat.le_0_l _)).
    + apply IH; [assumption | simpl in Hlo; lia].
Qed.

Lemma empty_rules_hit (w rest : string) :
  brace_free w = true -> w <> EmptyString ->
  match_at Pat.empty_rules (w ++ "{}" ++ rest) = Some ([w ++ "{}"], rest).
Proof.
  intros Hw Hne. unfold match_at, Pat.empty_rules, plus.
  cbn [seqs rmatch].
  apply rep_greedy_stop; [reflexivity | | exact Hw |].
  - cbn [lit rmatch append is_chr Ascii.eqb Bool.eqb].
    rewrite (captured_eq (w ++ "{}") rest); [reflexivity|].
    now rewrite app_assoc.
  - destruct w; [congruence | simpl; lia].
Qed.

Lemma empty_rules_shape (s : string) (m : re_match) (rest : string) :
  match_at Pat.empty_rules s = Some (m, rest) ->
  exists w, s = w ++ "{}" ++ rest /\ brace_free w = true /\ w <> EmptyString.
Proof.
  intros E. apply match_at_sound in E as (w & g & -> & M & _).
  open_pattern; split_match; chars_known.
  match goal with Ha : all (none_of "}{") ?v = true |- _ => exists v end.
  repeat split; [now rewrite app_assoc | assumption |].
  intros ->. simpl in *. lia.
Qed.

Lemma empty_rules_consuming : consuming Pat.empty_rules.
Proof.
  intros s m rest E. apply empty_rules_shape in E as (w & -> & _ & _).
  rewrite !length_app. simpl. lia.
Qed.

(** The first brace of a text is where it is. *)
Lemma first_brace_unique (w1 w2 : string) (b1 b2 : ascii) (r1 r2 : string) :
  brace_free w1 = true -> brace_free w2 = true ->
  none_of "}{" b1 = false -> none_of "}{" b2 = false ->
  w1 ++ String b1 r1 = w2 ++ String b2 r2 ->
  w1 = w2 /\ b1 = b2 /\ r1 = r2.
Proof.
  unfold brace_free. revert w2.
  induction w1 as [|c w1 IH]; intros w2 H1 H2 B1 B2 E.
  - destruct w2 as [|d w2]; simpl in E.
    + now inversion E.
    + inversion E; subst. cbn [all] in H2. rewrite B1 in H2. discriminate.
  - destruct w2 as [|d w2]; simpl in E; inversion E; subst.
    + cbn [all] in H1. rewrite B2 in H1. discriminate.
    + cbn [all] in H1, H2.
      apply andb_true_iff in H1 as [_ H1]. apply andb_true_iff in H2 as [_ H2].
      destruct (IH w2 H1 H2 B1 B2 H3) as (-> & -> & ->). now repeat split.
Qed.

Lemma first_brace (s : string) :
  brace_free s = true
  \/ exists w b r, s = w ++ String b r /\ brace_free w = true
                   /\ none_of "}{" b = false.
Proof.
  unfold brace_free. induction s as [|c s IH]; [now left|].
  cbn [all]. destruct (none_of "}{" c) eqn:Hc.
  - destruct IH as [IH|(w & b & r & -> & Hw & Hb)]; [now left|].
    right. exists (String c w), b, r. cbn [all append]. now rewrite Hc, Hw.
  - right. now exists EmptyString, c, s.
Qed.

(** In front of a closing brace that no opening brace precedes, nothing
    matches. *)
Lemma empty_rules_miss (t y : string) :
  brace_free t = true -> match_at Pat.empty_rules (t ++ String "}" y) = None.
Proof.
  intros Ht.
  destruct (match_at Pat.empty_rules (t ++ String "}" y)) as [[m rest]|] eqn:E;
    [|reflexivity].
  apply empty_rules_shape in E as (w & E & Hw & _).
  change (w ++ "{}" ++ rest) with (w ++ String "{" (String "}" rest)) in E.
  apply first_brace_unique in E as (_ & E & _); try assumption; try reflexivity.
  discriminate E.
Qed.


(** *** Font weights *)

Lemma starts_with_barrier (old : string) (b : ascii) (u : string) :
  one_of old b = false ->
  forall t, starts_with old (t ++ String b u) = starts_with old t.
Proof.
  induction old as [|x old IH]; intros Ho t; [reflexivity|].
  cbn [one_of] in Ho. apply orb_false_iff in Ho as [Hx Ho].
  destruct t as [|c t]; cbn [append].
  - rewrite starts_with_cons, Hx. reflexivity.
  - now rewrite !starts_with_cons, (IH Ho).
Qed.

Lemma replace_empty (old new : string) :
  old <> EmptyString -> replace old new EmptyString = EmptyString.
Proof. intros H. destruct old; [congruence | reflexivity]. Qed.

Lemma replace_barrier (old new : string) (b : ascii) (n : nat) :
  old <> EmptyString -> one_of old b = false ->
  forall pre u, String.length pre <= n ->
  replace old new (pre ++ String b u)
  = replace old new pre ++ replace old new (String b u).
Proof.
  intros Hne Hb. induction n as [|n IH]; intros pre u Hn.
  - destruct pre; [|simpl in Hn; lia]. now rewrite replace_empty.
  - destruct pre as [|c pre]; [now rewrite replace_empty|].
    pose proof (starts_with_barrier old b u Hb (String c pre)) as Hs.
    destruct (starts_with old (String c pre)) eqn:E.
    + apply starts_with_app in E as [t E]. rewrite E in *.
      assert (Ht : String.length t <= n).
      { rewrite length_app in Hn.
        destruct old; [congruence|]. simpl in Hn. simpl. lia. }
      rewrite app_assoc, !replace_hit by assumption.
      rewrite (IH t u Ht). now rewrite app_assoc.
    + cbn [append] in *. rewrite !replace_miss by assumption.
      rewrite IH by (simpl in Hn; lia). reflexivity.
Qed.


(** * Properties of the rules and of the pipeline *)

(** ** C2: a float with trailing zeros and a unit *)

(** C2, as the code has it.  For every table whose keywords begin with a
    letter and for all converters, [minify_css] turns
    [.x { margin: 0.500em; }] into [.x{margin:.500em}]: the leading zero
    goes, the digits after the point and the unit [em] stay, so the value
    of [margin] becomes [.500em]. *)
Theorem minify_css_margin_float (tbl : list (string * string))
    (rgb hsl rgba hsla : re_match -> option string) :
  keys_named tbl ->
  minify_css tbl rgb hsl rgba hsla ".x { margin: 0.500em; }"
  = Some ".x{margin:.500em}".
Proof. intros H. run_plain ".x{margin:.500em}". Qed.

Lemma minify_css_margin_float_witness :
  Sample.minify_css ".x { margin: 0.500em; }" = Some ".x{margin:.500em}".
Proof.
  apply (minify_css_margin_float Sample.REPLACABLE_CLRS Sample.hex6 Sample.hex6
           Sample.hex8 Sample.hex8 sample_keys_named).
Defined.

Lemma sample_margin_float :
  Sample.minify_css ".x { margin: 0.500em; }" = Some ".x{margin:.500em}".
Proof.
  unfold Sample.minify_css. pose proof sample_keys_named as H.
  run_plain ".x{margin:.500em}".
Qed.

(** C2 as stated fails: the output keeps the unit [em] and the value of
    [margin] is not [.5]. *)
Lemma minify_css_margin_float_counterexample :
  ~ (exists out, Sample.minify_css ".x { margin: 0.500em; }" = Some out
                 /\ contains ".5" out = true
                 /\ contains "em" out = false
                 /\ contains "margin:.5}" out = true).
Proof.
  intros (out & E & _ & Hem & _).
  rewrite sample_margin_float in E.
  injection E as <-. discriminate Hem.
Qed.

(** ** C3: redundant semicolons *)

(** C3, as the code has it.  [css_remove_semicolons] replaces each [;}]
    by [}] in one pass and then deletes every run of two or more
    semicolons.  For every text, its output contains no [;;]; and it
    contains no [;}] when the text contains no [;;}]. *)
Theorem css_remove_semicolons_output (css : string) :
  contains ";;" (css_remove_semicolons css) = false
  /\ (contains ";;}" css = false ->
      contains ";}" (css_remove_semicolons css) = false).
Proof.
  unfold css_remove_semicolons. split.
  - now apply (css_semicolons_no_pair (String.length (replace ";}" "}" css))).
  - intros H.
    apply (css_semicolons_keeps_clean (String.length (replace ";}" "}" css)));
      [apply le_n|].
    now apply (replace_brace_clean (String.length css)).
Qed.

Lemma css_remove_semicolons_output_witness :
  contains ";;" (css_remove_semicolons "a{b:c;;d:e;}f{g:h;}") = false
  /\ contains ";}" (css_remove_semicolons "a{b:c;;d:e;}f{g:h;}") = false.
Proof.
  destruct (css_remove_semicolons_output "a{b:c;;d:e;}f{g:h;}") as [H1 H2].
  split; [exact H1 | apply H2; reflexivity].
Defined.

(** C3 as stated fails: of two semicolons before a brace, one is left. *)
Lemma css_remove_semicolons_counterexample :
  css_remove_semicolons ";;}" = ";}"
  /\ contains ";}" (css_remove_semicolons ";;}") = true.
Proof. split; reflexivity. Qed.

(** ** C5: [none] to [0] *)

(** C5, as the code has it.  [css_none_to_zero] rewrites the text
    [border:none] to [border:0] and [opacity:none] to [opacity:0]
    wherever it finds one, whatever stands before or after it, and copies
    every character at which neither text begins. *)
Theorem css_none_to_zero_rule (css : string) :
  css_none_to_zero ("border:none" ++ css) = "border:0" ++ css_none_to_zero css
  /\ css_none_to_zero ("opacity:none" ++ css) = "opacity:0" ++ css_none_to_zero css
  /\ (forall c, starts_with "border:none" (String c css) = false ->
                starts_with "opacity:none" (String c css) = false ->
                css_none_to_zero (String c css) = String c (css_none_to_zero css)).
Proof.
  unfold css_none_to_zero. repeat split.
  - now rewrite (sub_hit _ _ "border:none" css _ ltac:(discriminate)
                   (none_to_zero_border css)).
  - now rewrite (sub_hit _ _ "opacity:none" css _ ltac:(discriminate)
                   (none_to_zero_opacity css)).
  - intros c Hb Ho. apply sub_miss. now apply none_to_zero_miss.
Qed.

Lemma css_none_to_zero_rule_witness :
  css_none_to_zero "y:none}" = String "y" (css_none_to_zero ":none}").
Proof.
  destruct (css_none_to_zero_rule ":none}") as (_ & _ & H).
  apply (H "y"%char); reflexivity.
Defined.

(** C5 as stated fails: [none] changes after a property other than
    [border] and [opacity] when the name of the property ends in one of
    the two. *)
Lemma css_none_to_zero_counterexample :
  css_none_to_zero "a{fill-opacity:none}" = "a{fill-opacity:0}".
Proof. reflexivity. Qed.

(** What C5 says of other properties holds for these texts. *)
Lemma css_none_to_zero_examples :
  css_none_to_zero "a{border:none}" = "a{border:0}"
  /\ css_none_to_zero "a{opacity:none}" = "a{opacity:0}"
  /\ css_none_to_zero "a{display:none}" = "a{display:none}".
Proof. repeat split; reflexivity. Qed.

(** ** C9: a hex colour of eight digits *)

(** C9.  In every text, an eight-digit hex colour whose first three pairs
    of digits are doubled loses one digit of each of these pairs and keeps
    its last two digits: [css_shorten_hex] leaves five digits. *)
Theorem css_shorten_hex_eight_digits (pre post : string) (a b c d e : ascii) :
  is_hex a = true -> is_hex b = true -> is_hex c = true ->
  is_hex d = true -> is_hex e = true ->
  css_shorten_hex
    (pre ++ String "#" (String a (String a (String b (String b (String c (String c
              (String d (String e post)))))))))
  = css_shorten_hex pre
    ++ String "#" (String a (String b (String c (String d (String e
         (css_shorten_hex post)))))).
Proof.
  intros Ha Hb Hc Hd He. unfold css_shorten_hex.
  rewrite (sub_hex_app shorten_clr (String.length pre)) by apply le_n.
  f_equal.
  set (h := String a (String a (String b (String b (String c (String c EmptyString)))))).
  change (String "#" (String a (String a (String b (String b (String c (String c
            (String d (String e post)))))))))
    with (("#" ++ h) ++ String d (String e post)).
  rewrite (sub_hit Pat.hex shorten_clr ("#" ++ h) _ ["#" ++ h; h]);
    [| discriminate
     | apply hex_hit; [reflexivity | subst h; simpl; now rewrite Ha, Hb, Hc] ].
  rewrite !sub_miss by (apply hex_miss; now apply is_hex_not_hash).
  subst h. unfold shorten_clr. cbn [group nth at_ String.get forallb Nat.add same].
  rewrite !Ascii.eqb_refl. reflexivity.
Qed.

Lemma css_shorten_hex_eight_digits_witness :
  css_shorten_hex "a{color:#aabbccdd}"
  = css_shorten_hex "a{color:" ++ "#abcdd" ++ css_shorten_hex "}".
Proof.
  apply (css_shorten_hex_eight_digits "a{color:" "}" "a" "b" "c" "d" "d");
    reflexivity.
Defined.

(** ** C10: the rules inside a quoted string *)

(** C10.  For every table whose keywords begin with a letter and for all
    converters, [minify_css] turns [a{content:Q;}Q}], where Q is the
    double quote, into [a{content:Q}Q}]: the semicolon inside the quoted
    string is deleted. *)
Theorem minify_css_inside_quotes (tbl : list (string * string))
    (rgb hsl rgba hsla : re_match -> option string) :
  keys_named tbl ->
  minify_css tbl rgb hsl rgba hsla
    ("a{content:" ++ String dquote (";}" ++ String dquote "}"))
  = Some ("a{content:" ++ String dquote ("}" ++ String dquote "}")).
Proof.
  intros H.
  run_plain ("a{content:" ++ String dquote ("}" ++ String dquote "}")).
Qed.

Lemma minify_css_inside_quotes_witness :
  Sample.minify_css ("a{content:" ++ String dquote (";}" ++ String dquote "}"))
  = Some ("a{content:" ++ String dquote ("}" ++ String dquote "}")).
Proof.
  apply (minify_css_inside_quotes Sample.REPLACABLE_CLRS Sample.hex6 Sample.hex6
           Sample.hex8 Sample.hex8 sample_keys_named).
Defined.

(** * More of the rules *)

(** ** [re.sub] with a callback, and repetitions on a text of known shape *)

Lemma sub_cb_from_skip (r : regex) (f : re_match -> option string) (n : nat)
    (s : string) :
  n <= String.length s -> sub_cb_from r f n s = sub_cb_from r f 0 (skip n s).
Proof.
  revert s; induction n as [|n IH]; intros s Hn; [reflexivity|].
  destruct s as [|c s]; simpl in Hn; [lia|].
  simpl. apply IH. lia.
Qed.

Lemma sub_cb_hit (r : regex) (f : re_match -> option string) (w rest : string)
    (m : re_match) :
  w <> EmptyString -> match_at r (w ++ rest) = Some (m, rest) ->
  sub_cb r f (w ++ rest) = cons_out (f m) (sub_cb r f rest).
Proof.
  intros Hw H. unfold sub_cb. destruct w as [|c w]; [congruence|].
  cbn [append sub_cb_from]. cbn [append] in H. rewrite H.
  cbn [String.length]. rewrite length_app.
  replace (S (String.length w + String.length rest) - String.length rest)
    with (S (String.length w)) by lia.
  rewrite sub_cb_from_skip by (rewrite length_app; lia).
  rewrite skip_app. now destruct (f m).
Qed.

Lemma sub_cb_miss (r : regex) (f : re_match -> option string) (c : ascii)
    (s : string) :
  match_at r (String c s) = None ->
  sub_cb r f (String c s)
  = cons_out (Some (String c EmptyString)) (sub_cb r f s).
Proof. intros H. unfold sub_cb. cbn [sub_cb_from]. now rewrite H. Qed.

(** The matcher, one step at a time. *)
Lemma rmatch_seq {R} (r1 r2 : regex) (g : env) (s : string)
    (k : env -> string -> option R) :
  rmatch (Seq r1 r2) g s k = rmatch r1 g s (fun g' s' => rmatch r2 g' s' k).
Proof. reflexivity. Qed.

Lemma rmatch_grp {R} (n : nat) (r : regex) (g : env) (s : string)
    (k : env -> string -> option R) :
  rmatch (Grp n r) g s k
  = rmatch r g s (fun g' s' => k ((n, captured s s') :: g') s').
Proof. reflexivity. Qed.

Lemma rmatch_rep {R} (lazy : bool) (lo : nat) (hi : option nat) (p : charset)
    (g : env) (s : string) (k : env -> string -> option R) :
  rmatch (Rep lazy lo hi p) g s k = rep p lazy lo hi s (k g).
Proof. reflexivity. Qed.

Lemma rmatch_chr {R} (p : charset) (c : ascii) (g : env) (s : string)
    (k : env -> string -> option R) :
  p c = true -> rmatch (Chr p) g (String c s) k = k g s.
Proof. intros H. cbn [rmatch]. now rewrite H. Qed.

Lemma rmatch_lit {R} (w : string) (g : env) (s : string)
    (k : env -> string -> option R) :
  rmatch (lit w) g (w ++ s) k = k g s.
Proof.
  revert k. induction w as [|c w IH]; intros k; [reflexivity|].
  destruct w as [|d w].
  - cbn [lit append rmatch]. unfold is_chr. now rewrite Ascii.eqb_refl.
  - change (lit (String c (String d w)))
      with (Seq (Chr (is_chr c)) (lit (String d w))).
    rewrite rmatch_seq. cbn [append].
    rewrite rmatch_chr by apply Ascii.eqb_refl. apply IH.
Qed.

Lemma rmatch_lit_miss {R} (w : string) (g : env) (t : string)
    (k : env -> string -> option R) :
  starts_with w t = false -> rmatch (lit w) g t k = None.
Proof.
  revert t k. induction w as [|c w IH]; intros t k H; [discriminate H|].
  destruct t as [|e t].
  - destruct w; reflexivity.
  - rewrite starts_with_cons in H. destruct w as [|d w].
    + cbn [lit rmatch]. unfold is_chr.
      destruct (Ascii.eqb c e); [discriminate H | reflexivity].
    + change (lit (String c (String d w)))
        with (Seq (Chr (is_chr c)) (lit (String d w))).
      rewrite rmatch_seq. cbn [rmatch]. unfold is_chr at 1.
      destruct (Ascii.eqb c e); [now apply IH | reflexivity].
Qed.

(** A greedy repetition takes a whole run when what follows then matches. *)
Lemma rep_run {R} (p : charset) (lo : nat) (w s : string)
    (k : string -> option R) (x : R) :
  all p w = true -> lo <= String.length w -> stops p s -> k s = Some x ->
  rep p false lo None (w ++ s) k = Some x.
Proof. intros Hw Hlo Hs Hk. now apply rep_greedy_stop. Qed.

(** A greedy repetition gives back one character when what follows
    matches after that and not before. *)
Lemma rep_back_one {R} (p : charset) (c : ascii) (s : string)
    (k : string -> option R) (x : R) :
  p c = true -> stops p s -> k s = None -> k (String c s) = Some x ->
  forall w, all p w = true -> rep p false 0 None (w ++ String c s) k = Some x.
Proof.
  intros Hc Hs Hn Hk. induction w as [|d w IH]; intros Hw.
  - cbn [append rep more less andb]. rewrite Hc.
    replace (rep p false 0 None s k) with (@None R); [exact Hk|].
    symmetry. destruct s as [|e s]; cbn [rep]; [exact Hn|].
    cbn [stops] in Hs. now rewrite Hs, andb_false_r.
  - cbn [all] in Hw. apply andb_true_iff in Hw as [Hd Hw].
    cbn [append rep more less andb]. rewrite Hd. now rewrite (IH Hw).
Qed.

(** A lazy repetition of any character stops where what follows first
    matches. *)
Lemma rep_lazy_first {R} (q : string) (k : string -> option R) (rest : string)
    (x : R) :
  (forall t, starts_with q t = false -> k t = None) ->
  k (q ++ rest) = Some x ->
  forall body,
  (forall a b, body = a ++ b -> b <> EmptyString ->
               starts_with q (b ++ q ++ rest) = false) ->
  rep any true 0 None (body ++ q ++ rest) k = Some x.
Proof.
  intros Hmiss Hk. induction body as [|c body IH]; intros Hb.
  - cbn [append]. destruct (q ++ rest) as [|d t] eqn:E; cbn [rep]; [exact Hk|].
    cbn [more less any andb]. now rewrite Hk.
  - cbn [append rep more less any andb].
    rewrite (Hmiss (String c (body ++ q ++ rest))).
    + apply IH. intros a b -> Hne. apply (Hb (String c a) b); [reflexivity | exact Hne].
    + apply (Hb EmptyString (String c body)); [reflexivity | discriminate].
Qed.

(** ** Comments *)

Lemma starts_with_two_app (a b : ascii) (t u v : string) :
  t <> EmptyString ->
  starts_with (String a (String b EmptyString)) (t ++ String a u)
  = starts_with (String a (String b EmptyString)) (t ++ String a v).
Proof.
  intros Ht. destruct t as [|c t]; [congruence|]. cbn [append].
  rewrite !starts_with_cons. destruct t as [|d t]; cbn [append].
  - rewrite !starts_with_cons. unfold starts_with. cbn [strip_prefix].
    destruct (Ascii.eqb b a); reflexivity.
  - rewrite !starts_with_cons. unfold starts_with. cbn [strip_prefix].
    reflexivity.
Qed.

Lemma contains_suffix (p a b : string) :
  contains p (a ++ b) = false -> contains p b = false.
Proof.
  induction a as [|c a IH]; intros H; [exact H|].
  apply IH. now apply contains_tail in H.
Qed.

Lemma comments_hit (body rest : string) :
  contains "*/" (body ++ "*") = false ->
  match_at Pat.comments ("/*" ++ body ++ "*/" ++ rest)
  = Some (["/*" ++ body ++ "*/"], rest).
Proof.
  intros Hb. unfold match_at, Pat.comments, lazy_star. cbn [seqs].
  rewrite rmatch_seq, rmatch_lit, rmatch_seq, rmatch_rep.
  apply rep_lazy_first.
  - intros t Ht. now apply rmatch_lit_miss.
  - rewrite rmatch_lit.
    rewrite (captured_eq ("/*" ++ body ++ "*/") rest); [reflexivity|].
    cbn [append]. now rewrite app_assoc.
  - intros a b -> Hne. rewrite app_assoc in Hb.
    apply contains_suffix, contains_head in Hb.
    change ("*/" ++ rest) with (String "*" (String "/" rest)).
    now rewrite (starts_with_two_app "*" "/" b _ EmptyString Hne).
Qed.

Lemma comments_shape (s : string) (m : re_match) (rest : string) :
  match_at Pat.comments s = Some (m, rest) ->
  exists body, s = "/*" ++ body ++ "*/" ++ rest.
Proof.
  intros E. apply match_at_sound in E as (w & g & -> & M & _).
  open_pattern; split_match; chars_known.
  match goal with |- context [(_ ++ ?b ++ _) ++ rest] => exists b end.
  cbn [append]. now rewrite !app_assoc.
Qed.

(** X1.  A comment at the start of a text is removed up to the first
    [*/] after its opening, whatever the comment holds, line ends
    included, and the rule goes on behind it. *)
Theorem css_remove_comments_first_end (body rest : string) :
  contains "*/" (body ++ "*") = false ->
  css_remove_comments ("/*" ++ body ++ "*/" ++ rest) = css_remove_comments rest.
Proof.
  intros Hb. unfold css_remove_comments.
  replace ("/*" ++ body ++ "*/" ++ rest) with (("/*" ++ body ++ "*/") ++ rest)
    by (cbn [append]; now rewrite app_assoc).
  rewrite (sub_hit Pat.comments _ ("/*" ++ body ++ "*/") rest ["/*" ++ body ++ "*/"]);
    [reflexivity | discriminate |].
  replace (("/*" ++ body ++ "*/") ++ rest) with ("/*" ++ body ++ "*/" ++ rest)
    by (cbn [append]; now rewrite app_assoc).
  now apply comments_hit.
Qed.

Lemma css_remove_comments_first_end_witness :
  css_remove_comments "/* a /* b */ c */ d" = css_remove_comments " c */ d".
Proof.
  apply (css_remove_comments_first_end " a /* b " " c */ d"). reflexivity.
Defined.

Lemma comments_absent (css : string) :
  contains "*/" css = false -> css_remove_comments css = css.
Proof.
  intros H. apply sub_absent.
  destruct (occurs Pat.comments css) eqn:E; [|reflexivity].
  apply occurs_split in E as (a & t & m & rest & -> & E).
  apply comments_shape in E as (body & ->).
  replace (a ++ "/*" ++ body ++ "*/" ++ rest)
    with ((a ++ "/*" ++ body) ++ "*/" ++ rest) in H
    by (now rewrite !app_assoc).
  now rewrite contains_app in H.
Qed.

(** X2.  A text without [*/] is returned as it is: a comment that is not
    closed stays, with everything behind it. *)
Theorem css_remove_comments_unclosed (css : string) :
  contains "*/" css = false -> css_remove_comments css = css.
Proof. exact (comments_absent css). Qed.

Lemma css_remove_comments_unclosed_witness :
  css_remove_comments "a{b:c} /* d{e:f}" = "a{b:c} /* d{e:f}".
Proof. apply css_remove_comments_unclosed. reflexivity. Defined.

Lemma rmatch_alt_l {R} (r1 r2 : regex) (g : env) (s : string)
    (k : env -> string -> option R) (x : R) :
  rmatch r1 g s k = Some x -> rmatch (Alt r1 r2) g s k = Some x.
Proof. intros H. cbn [rmatch]. now rewrite H. Qed.

Lemma rmatch_alt_r {R} (r1 r2 : regex) (g : env) (s : string)
    (k : env -> string -> option R) :
  rmatch r1 g s k = None -> rmatch (Alt r1 r2) g s k = rmatch r2 g s k.
Proof. intros H. cbn [rmatch]. now rewrite H. Qed.

Lemma rmatch_ref {R} (n : nat) (g : env) (w s : string)
    (k : env -> string -> option R) :
  lookup g n = Some w -> rmatch (Ref n) g (w ++ s) k = k g s.
Proof. intros H. cbn [rmatch]. now rewrite H, strip_prefix_here. Qed.

Lemma rmatch_ref_miss {R} (n : nat) (g : env) (w s : string)
    (k : env -> string -> option R) :
  lookup g n = Some w -> starts_with w s = false -> rmatch (Ref n) g s k = None.
Proof.
  intros H Hs. cbn [rmatch]. rewrite H. unfold starts_with in Hs.
  now destruct (strip_prefix w s).
Qed.

Lemma rmatch_words {R} (ws : list string) (w s : string) (g : env)
    (k : env -> string -> option R) (x : R) :
  first_word ws (w ++ s) = Some w -> k g s = Some x ->
  rmatch (words ws) g (w ++ s) k = Some x.
Proof.
  intros Hf Hk. induction ws as [|a ws IH]; [discriminate Hf|].
  cbn [first_word] in Hf.
  destruct (starts_with a (w ++ s)) eqn:E.
  - injection Hf as ->.
    assert (H : rmatch (lit w) g (w ++ s) k = Some x) by now rewrite rmatch_lit.
    destruct ws as [|b ws]; [exact H | now apply rmatch_alt_l].
  - destruct ws as [|b ws]; [discriminate Hf|].
    change (words (a :: b :: ws)) with (Alt (lit a) (words (b :: ws))).
    rewrite rmatch_alt_r by now apply rmatch_lit_miss.
    now apply IH.
Qed.

(** An optional character. *)
Lemma opt_take {R} (p : charset) (c : ascii) (s : string)
    (k : string -> option R) (x : R) :
  p c = true -> k s = Some x -> rep p false 0 (Some 1) (String c s) k = Some x.
Proof.
  intros Hc Hk. cbn [rep more less Nat.pred andb]. rewrite Hc.
  replace (rep p false 0 (Some 0) s k) with (k s); [now rewrite Hk|].
  destruct s; cbn [rep more andb]; reflexivity.
Qed.

Lemma opt_skip {R} (p : charset) (s : string) (k : string -> option R) :
  stops p s -> rep p false 0 (Some 1) s k = k s.
Proof.
  intros Hs. destruct s as [|c s]; cbn [rep]; [reflexivity|].
  cbn [stops] in Hs. now rewrite Hs, andb_false_r.
Qed.

Lemma opt_percent {R} (b : bool) (s : string) (k : string -> option R) (x : R) :
  stops (is_chr "%") s -> k s = Some x ->
  rep (is_chr "%") false 0 (Some 1) (percent b ++ s) k = Some x.
Proof.
  intros Hs Hk. destruct b; cbn [percent append].
  - now apply opt_take.
  - now rewrite opt_skip.
Qed.

Lemma stops_run (p q : charset) (w s : string) :
  w <> EmptyString -> all q w = true -> (forall c, q c = true -> p c = false) ->
  stops p (w ++ s).
Proof.
  intros Hw Ha H. destruct w as [|c w]; [congruence|].
  cbn [all] in Ha. apply andb_true_iff in Ha as [Hc _]. now apply H.
Qed.

Lemma digit_not_space (c : ascii) : is_digit c = true -> is_space c = false.
Proof.
  destruct c as [[] [] [] [] [] [] [] []]; vm_compute; congruence.
Qed.

Lemma digit_or_dot_not_space (c : ascii) :
  Pat.digit_or_dot c = true -> is_space c = false.
Proof.
  destruct c as [[] [] [] [] [] [] [] []]; vm_compute; congruence.
Qed.

Lemma nonempty_length (w : string) : w <> EmptyString -> 1 <= String.length w.
Proof. destruct w; [congruence | simpl; lia]. Qed.

(** ** Attribute selectors *)

Lemma unquote_selectors_hit (name value rest : string) :
  name <> EmptyString -> all is_alpha name = true ->
  value <> EmptyString -> all Pat.selector_value value = true ->
  match_at Pat.unquote_selectors
    (name ++ String "=" (String dquote (value ++ String dquote (String "]" rest))))
  = Some ([name ++ String "=" (String dquote (value ++ String dquote "]"));
           name; value], rest).
Proof.
  intros Hn Han Hv Hav. unfold match_at, Pat.unquote_selectors, plus.
  cbn [seqs]. rewrite rmatch_seq, rmatch_grp, rmatch_rep.
  apply rep_run; [assumption | now apply nonempty_length | reflexivity |].
  rewrite rmatch_seq, rmatch_chr by reflexivity.
  rewrite rmatch_seq, rmatch_chr by reflexivity.
  rewrite rmatch_seq, rmatch_grp, rmatch_rep.
  apply rep_run; [assumption | now apply nonempty_length | reflexivity |].
  rewrite rmatch_seq, rmatch_chr by reflexivity.
  rewrite rmatch_chr by reflexivity.
  rewrite (captured_eq name (String "=" (String dquote (value ++ String dquote (String "]" rest)))))
    by reflexivity.
  rewrite (captured_eq value (String dquote (String "]" rest))) by reflexivity.
  rewrite (captured_eq (name ++ String "=" (String dquote (value ++ String dquote "]"))) rest);
    [reflexivity|].
  rewrite !app_assoc. cbn [append]. now rewrite !app_assoc.
Qed.

(** X3.  Where a name of letters, an equals sign and a quoted value of
    letters, digits, hyphens, underscores and dots is followed by a
    closing bracket, the quotes of the value are removed. *)
Theorem css_unquote_selectors_value (name value rest : string) :
  name <> EmptyString -> all is_alpha name = true ->
  value <> EmptyString -> all Pat.selector_value value = true ->
  css_unquote_selectors
    (name ++ String "=" (String dquote (value ++ String dquote (String "]" rest))))
  = name ++ "=" ++ value ++ "]" ++ css_unquote_selectors rest.
Proof.
  intros Hn Han Hv Hav. unfold css_unquote_selectors.
  pose proof (unquote_selectors_hit name value rest Hn Han Hv Hav) as H.
  set (w := name ++ String "=" (String dquote (value ++ String dquote "]"))) in *.
  replace (name ++ String "=" (String dquote (value ++ String dquote (String "]" rest))))
    with (w ++ rest) in *
    by (subst w; rewrite !app_assoc; cbn [append]; now rewrite !app_assoc).
  rewrite (sub_hit _ _ w rest _ ltac:(subst w; destruct name; discriminate) H).
  cbn [group nth]. now rewrite !app_assoc.
Qed.

Lemma css_unquote_selectors_value_witness :
  css_unquote_selectors
    ("href" ++ String "=" (String dquote ("x-1.png" ++ String dquote (String "]" "{a:b}"))))
  = "href" ++ "=" ++ "x-1.png" ++ "]" ++ css_unquote_selectors "{a:b}".
Proof.
  apply (css_unquote_selectors_value "href" "x-1.png" "{a:b}");
    (discriminate || reflexivity).
Defined.

(** ** Quotes in [url()] *)

Lemma url_quotes_hit (q : ascii) (content rest : string) :
  q = dquote \/ q = squote -> all (none_of ")") content = true ->
  match_at Pat.url_quotes
    ("url(" ++ String q (content ++ String q (String ")" rest)))
  = Some (["url(" ++ String q (content ++ String q ")"); String q EmptyString;
           content], rest).
Proof.
  intros Hq Hc. unfold match_at, Pat.url_quotes, star. cbn [seqs].
  rewrite rmatch_seq, rmatch_lit, rmatch_seq, rmatch_grp.
  rewrite rmatch_chr by (destruct Hq as [-> | ->]; reflexivity).
  rewrite (captured_eq (String q EmptyString) (content ++ String q (String ")" rest)))
    by reflexivity.
  rewrite rmatch_seq, rmatch_grp, rmatch_rep.
  apply rep_back_one; try assumption.
  - destruct Hq as [-> | ->]; reflexivity.
  - reflexivity.
  - rewrite rmatch_seq.
    apply (rmatch_ref_miss 1 _ (String q EmptyString)); [reflexivity|].
    destruct Hq as [-> | ->]; reflexivity.
  - rewrite rmatch_seq.
    change (String q (String ")" rest)) with (String q EmptyString ++ String ")" rest).
    rewrite (rmatch_ref 1 _ (String q EmptyString)) by reflexivity.
    rewrite rmatch_chr by reflexivity.
    rewrite (captured_eq content (String q EmptyString ++ String ")" rest)) by reflexivity.
    rewrite (captured_eq ("url(" ++ String q (content ++ String q ")")) rest);
      [reflexivity|].
    cbn [append]. rewrite !app_assoc. cbn [append]. reflexivity.
Qed.

(** X4.  [url()] around a text in double or in single quotes loses the
    quotes: the text, which may be empty and may hold any character but
    the closing parenthesis, stays. *)
Theorem css_remove_url_quotes_quoted (q : ascii) (content rest : string) :
  q = dquote \/ q = squote -> all (none_of ")") content = true ->
  css_remove_url_quotes
    ("url(" ++ String q (content ++ String q (String ")" rest)))
  = "url(" ++ content ++ ")" ++ css_remove_url_quotes rest.
Proof.
  intros Hq Hc. unfold css_remove_url_quotes.
  pose proof (url_quotes_hit q content rest Hq Hc) as H.
  set (w := "url(" ++ String q (content ++ String q ")")) in *.
  replace ("url(" ++ String q (content ++ String q (String ")" rest)))
    with (w ++ rest) in *
    by (subst w; cbn [append]; rewrite !app_assoc; cbn [append]; reflexivity).
  rewrite (sub_hit _ _ w rest _ ltac:(subst w; discriminate) H).
  cbn [group nth]. now rewrite !app_assoc.
Qed.

Lemma css_remove_url_quotes_quoted_witness :
  css_remove_url_quotes ("url(" ++ String squote ("a b.png" ++ String squote (String ")" ";")))
  = "url(" ++ "a b.png" ++ ")" ++ css_remove_url_quotes ";".
Proof.
  apply (css_remove_url_quotes_quoted squote "a b.png" ";");
    [right; reflexivity | reflexivity].
Defined.

(** ** Units of zero and floats *)

Lemma zero_units_hit (c : ascii) (u rest : string) :
  is_space c || is_chr ":" c = true ->
  first_word Pat.units (u ++ rest) = Some u ->
  match_at Pat.zero_units (String c (String "0" (u ++ rest)))
  = Some ([String c (String "0" u); String c EmptyString; "0"; u], rest).
Proof.
  intros Hc Hu. unfold match_at, Pat.zero_units. cbn [seqs].
  rewrite rmatch_seq, rmatch_grp, rmatch_chr by exact Hc.
  rewrite rmatch_seq, rmatch_grp.
  change (String "0" (u ++ rest)) with ("0" ++ (u ++ rest)).
  rewrite rmatch_lit, rmatch_grp.
  apply rmatch_words; [exact Hu|].
  rewrite (captured_eq (String c EmptyString) ("0" ++ u ++ rest)) by reflexivity.
  rewrite (captured_eq "0" (u ++ rest)) by reflexivity.
  rewrite (captured_eq u rest (u ++ rest)) by reflexivity.
  rewrite (captured_eq (String c (String "0" u)) rest) by reflexivity.
  reflexivity.
Qed.

Lemma units_first_word (u rest : string) :
  In u Pat.units -> first_word Pat.units (u ++ rest) = Some u.
Proof.
  unfold Pat.units. intros H.
  repeat (destruct H as [<-|H]; [reflexivity|]). destruct H.
Qed.

(** X5.  After white space or a colon, a zero followed by any unit of
    the list loses the unit, whatever follows the unit. *)
Theorem css_sub_zero_units_every_unit (c : ascii) (u rest : string) :
  is_space c || is_chr ":" c = true -> In u Pat.units ->
  css_sub_zero_units (String c (String "0" (u ++ rest)))
  = String c (String "0" (css_sub_zero_units rest)).
Proof.
  intros Hc Hu. unfold css_sub_zero_units.
  pose proof (zero_units_hit c u rest Hc (units_first_word u rest Hu)) as H.
  change (String c (String "0" (u ++ rest)))
    with (String c (String "0" u) ++ rest) in *.
  now rewrite (sub_hit _ _ (String c (String "0" u)) rest _ ltac:(discriminate) H).
Qed.

Lemma css_sub_zero_units_every_unit_witness :
  css_sub_zero_units ":0vmin;" = String ":" (String "0" (css_sub_zero_units ";")).
Proof.
  apply (css_sub_zero_units_every_unit ":" "vmin" ";"); [reflexivity|].
  unfold Pat.units. do 12 right. left. reflexivity.
Defined.

Lemma floats_hit (c : ascii) (zeros digits rest : string) :
  is_chr ":" c || is_space c = true ->
  zeros <> EmptyString -> all (is_chr "0") zeros = true ->
  digits <> EmptyString -> all is_digit digits = true -> stops is_digit rest ->
  match_at Pat.floats (String c (zeros ++ String "." (digits ++ rest)))
  = Some ([String c (zeros ++ String "." digits); String c EmptyString; digits],
          rest).
Proof.
  intros Hc Hz Haz Hd Had Hr. unfold match_at, Pat.floats, plus. cbn [seqs].
  rewrite rmatch_seq, rmatch_grp.
  assert (K : forall (k : env -> string -> option (re_match * string)) s,
            rmatch (Alt (lit ":") (Chr is_space)) [] (String c s) k = k [] s).
  { intros k s. destruct (Ascii.eqb_spec ":" c) as [<-|Hne].
    - cbn [rmatch lit is_chr]. rewrite Ascii.eqb_refl.
      destruct (k [] s); reflexivity.
    - rewrite rmatch_alt_r.
      + apply rmatch_chr. unfold is_chr in Hc.
        destruct (Ascii.eqb ":" c) eqn:E; [apply Ascii.eqb_eq in E; congruence|].
        exact Hc.
      + apply rmatch_lit_miss. rewrite starts_with_cons.
        destruct (Ascii.eqb ":" c) eqn:E; [apply Ascii.eqb_eq in E; congruence|].
        reflexivity. }
  rewrite K. rewrite rmatch_seq, rmatch_rep.
  apply rep_run; [assumption | now apply nonempty_length | reflexivity |].
  rewrite rmatch_seq, rmatch_chr by reflexivity.
  rewrite rmatch_grp, rmatch_rep.
  apply rep_run; [assumption | now apply nonempty_length | assumption |].
  rewrite (captured_eq (String c EmptyString) (zeros ++ String "." (digits ++ rest)))
    by reflexivity.
  rewrite (captured_eq digits rest (digits ++ rest)) by reflexivity.
  rewrite (captured_eq (String c (zeros ++ String "." digits)) rest);
    [reflexivity|].
  cbn [append]. rewrite !app_assoc. reflexivity.
Qed.

(** X6.  After a colon or white space, a number that begins with one or
    more zeros and a point keeps the point and its digits after the point
    and loses the zeros. *)
Theorem css_shorten_floats_leading_zeros (c : ascii) (zeros digits rest : string) :
  is_chr ":" c || is_space c = true ->
  zeros <> EmptyString -> all (is_chr "0") zeros = true ->
  digits <> EmptyString -> all is_digit digits = true -> stops is_digit rest ->
  css_shorten_floats (String c (zeros ++ String "." (digits ++ rest)))
  = String c (String "." (digits ++ css_shorten_floats rest)).
Proof.
  intros Hc Hz Haz Hd Had Hr. unfold css_shorten_floats.
  pose proof (floats_hit c zeros digits rest Hc Hz Haz Hd Had Hr) as H.
  replace (String c (zeros ++ String "." (digits ++ rest)))
    with (String c (zeros ++ String "." digits) ++ rest) in *
    by (cbn [append]; rewrite !app_assoc; reflexivity).
  rewrite (sub_hit _ _ (String c (zeros ++ String "." digits)) rest _
             ltac:(discriminate) H).
  reflexivity.
Qed.

Lemma css_shorten_floats_leading_zeros_witness :
  css_shorten_floats " 00.25em" = String " " (String "." ("25" ++ css_shorten_floats "em")).
Proof.
  apply (css_shorten_floats_leading_zeros " " "00" "25" "em");
    (discriminate || reflexivity).
Defined.

(** ** The colour functions *)

Ltac norm_app := repeat first [rewrite !app_assoc | progress cbn [append]].

Ltac run_of H :=
  let Hn := fresh in let Ha := fresh in
  destruct H as [Hn Ha];
  apply rep_run; [exact Ha | now apply nonempty_length | | ].

Lemma stops_digits (p : charset) (w s : string) :
  digits w -> (forall c, is_digit c = true -> p c = false) -> stops p (w ++ s).
Proof. intros [Hn Ha] H. now apply (stops_run p is_digit). Qed.

Lemma stops_digits_or_dots (p : charset) (w s : string) :
  digits_or_dots w -> (forall c, Pat.digit_or_dot c = true -> p c = false) ->
  stops p (w ++ s).
Proof. intros [Hn Ha] H. now apply (stops_run p Pat.digit_or_dot). Qed.

Lemma stops_percent (p : charset) (b : bool) (c : ascii) (s : string) :
  p "%"%char = false -> p c = false -> stops p (percent b ++ String c s).
Proof. intros H1 H2. destruct b; assumption. Qed.

Lemma rgb_hit (r w1 g w2 b rest : string) :
  digits r -> digits g -> digits b ->
  all is_space w1 = true -> all is_space w2 = true ->
  match_at Pat.rgb (rgb_call r w1 g w2 b ++ rest)
  = Some ([rgb_call r w1 g w2 b; r; g; b], rest).
Proof.
  intros Hr Hg Hb Hw1 Hw2.
  replace (rgb_call r w1 g w2 b ++ rest)
    with ("rgb(" ++ r ++ String "," (w1 ++ g ++ String "," (w2 ++ b ++ String ")" rest)))
    by (unfold rgb_call; norm_app; reflexivity).
  unfold match_at, Pat.rgb, plus, star. cbn [seqs].
  rewrite rmatch_seq, rmatch_lit.
  rewrite rmatch_seq, rmatch_grp, rmatch_rep.
  pose proof Hr as Hr'. run_of Hr'; [reflexivity|].
  rewrite rmatch_seq, rmatch_chr by reflexivity.
  rewrite rmatch_seq, rmatch_rep.
  apply rep_run; [assumption | apply Nat.le_0_l
                 | apply stops_digits; [assumption | exact digit_not_space] |].
  rewrite rmatch_seq, rmatch_grp, rmatch_rep.
  pose proof Hg as Hg'. run_of Hg'; [reflexivity|].
  rewrite rmatch_seq, rmatch_chr by reflexivity.
  rewrite rmatch_seq, rmatch_rep.
  apply rep_run; [assumption | apply Nat.le_0_l
                 | apply stops_digits; [assumption | exact digit_not_space] |].
  rewrite rmatch_seq, rmatch_grp, rmatch_rep.
  pose proof Hb as Hb'. run_of Hb'; [reflexivity|].
  rewrite rmatch_chr by reflexivity.
  rewrite (captured_eq r (String "," (w1 ++ g ++ String "," (w2 ++ b ++ String ")" rest))))
    by reflexivity.
  rewrite (captured_eq g (String "," (w2 ++ b ++ String ")" rest))) by reflexivity.
  rewrite (captured_eq b (String ")" rest)) by reflexivity.
  rewrite (captured_eq (rgb_call r w1 g w2 b) rest); [reflexivity|].
  unfold rgb_call. norm_app. reflexivity.
Qed.

Lemma rgba_hit (r w1 g w2 b w3 a rest : string) :
  digits r -> digits g -> digits b -> digits_or_dots a ->
  all is_space w1 = true -> all is_space w2 = true -> all is_space w3 = true ->
  match_at Pat.rgba (rgba_call r w1 g w2 b w3 a ++ rest)
  = Some ([rgba_call r w1 g w2 b w3 a; r; g; b; a], rest).
Proof.
  intros Hr Hg Hb Ha Hw1 Hw2 Hw3.
  replace (rgba_call r w1 g w2 b w3 a ++ rest)
    with ("rgba(" ++ r ++ String "," (w1 ++ g ++ String "," (w2 ++ b
            ++ String "," (w3 ++ a ++ String ")" rest))))
    by (unfold rgba_call; norm_app; reflexivity).
  unfold match_at, Pat.rgba, plus, star. cbn [seqs].
  rewrite rmatch_seq, rmatch_lit.
  rewrite rmatch_seq, rmatch_grp, rmatch_rep.
  pose proof Hr as Hr'. run_of Hr'; [reflexivity|].
  rewrite rmatch_seq, rmatch_chr by reflexivity.
  rewrite rmatch_seq, rmatch_rep.
  apply rep_run; [assumption | apply Nat.le_0_l
                 | apply stops_digits; [assumption | exact digit_not_space] |].
  rewrite rmatch_seq, rmatch_grp, rmatch_rep.
  pose proof Hg as Hg'. run_of Hg'; [reflexivity|].
  rewrite rmatch_seq, rmatch_chr by reflexivity.
  rewrite rmatch_seq, rmatch_rep.
  apply rep_run; [assumption | apply Nat.le_0_l
                 | apply stops_digits; [assumption | exact digit_not_space] |].
  rewrite rmatch_seq, rmatch_grp, rmatch_rep.
  pose proof Hb as Hb'. run_of Hb'; [reflexivity|].
  rewrite rmatch_seq, rmatch_chr by reflexivity.
  rewrite rmatch_seq, rmatch_rep.
  apply rep_run; [assumption | apply Nat.le_0_l
                 | apply stops_digits_or_dots;
                   [assumption | exact digit_or_dot_not_space] |].
  rewrite rmatch_seq, rmatch_grp, rmatch_rep.
  pose proof Ha as Ha'. run_of Ha'; [reflexivity|].
  rewrite rmatch_chr by reflexivity.
  rewrite (captured_eq r (String "," (w1 ++ g ++ String "," (w2 ++ b
             ++ String "," (w3 ++ a ++ String ")" rest))))) by reflexivity.
  rewrite (captured_eq g (String "," (w2 ++ b ++ String "," (w3 ++ a ++ String ")" rest))))
    by reflexivity.
  rewrite (captured_eq b (String "," (w3 ++ a ++ String ")" rest))) by reflexivity.
  rewrite (captured_eq a (String ")" rest)) by reflexivity.
  rewrite (captured_eq (rgba_call r w1 g w2 b w3 a) rest); [reflexivity|].
  unfold rgba_call. norm_app. reflexivity.
Qed.

Lemma hsl_hit (h w1 s : string) (p1 : bool) (w2 l : string) (p2 : bool)
    (rest : string) :
  digits h -> digits_or_dots s -> digits_or_dots l ->
  all is_space w1 = true -> all is_space w2 = true ->
  match_at Pat.hsl (hsl_call h w1 s p1 w2 l p2 ++ rest)
  = Some ([hsl_call h w1 s p1 w2 l p2; h; s; l], rest).
Proof.
  intros Hh Hs Hl Hw1 Hw2.
  replace (hsl_call h w1 s p1 w2 l p2 ++ rest)
    with ("hsl(" ++ h ++ String "," (w1 ++ s ++ percent p1
            ++ String "," (w2 ++ l ++ percent p2 ++ String ")" rest)))
    by (unfold hsl_call; norm_app; reflexivity).
  unfold match_at, Pat.hsl, plus, star, opt. cbn [seqs].
  rewrite rmatch_seq, rmatch_lit.
  rewrite rmatch_seq, rmatch_grp, rmatch_rep.
  pose proof Hh as Hh'. run_of Hh'; [reflexivity|].
  rewrite rmatch_seq, rmatch_chr by reflexivity.
  rewrite rmatch_seq, rmatch_rep.
  apply rep_run; [assumption | apply Nat.le_0_l
                 | apply stops_digits_or_dots;
                   [assumption | exact digit_or_dot_not_space] |].
  rewrite rmatch_seq, rmatch_grp, rmatch_rep.
  pose proof Hs as Hs'. run_of Hs'; [now apply stops_percent|].
  rewrite rmatch_seq, rmatch_rep. apply opt_percent; [reflexivity|].
  rewrite rmatch_seq, rmatch_chr by reflexivity.
  rewrite rmatch_seq, rmatch_rep.
  apply rep_run; [assumption | apply Nat.le_0_l
                 | apply stops_digits_or_dots;
                   [assumption | exact digit_or_dot_not_space] |].
  rewrite rmatch_seq, rmatch_grp, rmatch_rep.
  pose proof Hl as Hl'. run_of Hl'; [now apply stops_percent|].
  rewrite rmatch_seq, rmatch_rep. apply opt_percent; [reflexivity|].
  rewrite rmatch_chr by reflexivity.
  rewrite (captured_eq h (String "," (w1 ++ s ++ percent p1
             ++ String "," (w2 ++ l ++ percent p2 ++ String ")" rest)))) by reflexivity.
  rewrite (captured_eq s (percent p1 ++ String "," (w2 ++ l ++ percent p2 ++ String ")" rest)))
    by reflexivity.
  rewrite (captured_eq l (percent p2 ++ String ")" rest)) by reflexivity.
  rewrite (captured_eq (hsl_call h w1 s p1 w2 l p2) rest); [reflexivity|].
  unfold hsl_call. norm_app. reflexivity.
Qed.

Lemma hsla_hit (h w1 s : string) (p1 : bool) (w2 l : string) (p2 : bool)
    (w3 a rest : string) :
  digits h -> digits_or_dots s -> digits_or_dots l -> digits_or_dots a ->
  all is_space w1 = true -> all is_space w2 = true -> all is_space w3 = true ->
  match_at Pat.hsla (hsla_call h w1 s p1 w2 l p2 w3 a ++ rest)
  = Some ([hsla_call h w1 s p1 w2 l p2 w3 a; h; s; l; a], rest).
Proof.
  intros Hh Hs Hl Ha Hw1 Hw2 Hw3.
  replace (hsla_call h w1 s p1 w2 l p2 w3 a ++ rest)
    with ("hsla(" ++ h ++ String "," (w1 ++ s ++ percent p1
            ++ String "," (w2 ++ l ++ percent p2
            ++ String "," (w3 ++ a ++ String ")" rest))))
    by (unfold hsla_call; norm_app; reflexivity).
  unfold match_at, Pat.hsla, plus, star, opt. cbn [seqs].
  rewrite rmatch_seq, rmatch_lit.
  rewrite rmatch_seq, rmatch_grp, rmatch_rep.
  pose proof Hh as Hh'. run_of Hh'; [reflexivity|].
  rewrite rmatch_seq, rmatch_chr by reflexivity.
  rewrite rmatch_seq, rmatch_rep.
  apply rep_run; [assumption | apply Nat.le_0_l
                 | apply stops_digits_or_dots;
                   [assumption | exact digit_or_dot_not_space] |].
  rewrite rmatch_seq, rmatch_grp, rmatch_rep.
  pose proof Hs as Hs'. run_of Hs'; [now apply stops_percent|].
  rewrite rmatch_seq, rmatch_rep. apply opt_percent; [reflexivity|].
  rewrite rmatch_seq, rmatch_chr by reflexivity.
  rewrite rmatch_seq, rmatch_rep.
  apply rep_run; [assumption | apply Nat.le_0_l
                 | apply stops_digits_or_dots;
                   [assumption | exact digit_or_dot_not_space] |].
  rewrite rmatch_seq, rmatch_grp, rmatch_rep.
  pose proof Hl as Hl'. run_of Hl'; [now apply stops_percent|].
  rewrite rmatch_seq, rmatch_rep. apply opt_percent; [reflexivity|].
  rewrite rmatch_seq, rmatch_chr by reflexivity.
  rewrite rmatch_seq, rmatch_rep.
  apply rep_run; [assumption | apply Nat.le_0_l
                 | apply stops_digits_or_dots;
                   [assumption | exact digit_or_dot_not_space] |].
  rewrite rmatch_seq, rmatch_grp, rmatch_rep.
  pose proof Ha as Ha'. run_of Ha'; [reflexivity|].
  rewrite rmatch_chr by reflexivity.
  rewrite (captured_eq h (String "," (w1 ++ s ++ percent p1
             ++ String "," (w2 ++ l ++ percent p2
             ++ String "," (w3 ++ a ++ String ")" rest))))) by reflexivity.
  rewrite (captured_eq s (percent p1 ++ String "," (w2 ++ l ++ percent p2
             ++ String "," (w3 ++ a ++ String ")" rest)))) by reflexivity.
  rewrite (captured_eq l (percent p2 ++ String "," (w3 ++ a ++ String ")" rest)))
    by reflexivity.
  rewrite (captured_eq a (String ")" rest)) by reflexivity.
  rewrite (captured_eq (hsla_call h w1 s p1 w2 l p2 w3 a) rest); [reflexivity|].
  unfold hsla_call. norm_app. reflexivity.
Qed.

Lemma call_nonempty (f w : string) (c : ascii) : String c f ++ w <> EmptyString.
Proof. discriminate. Qed.

(** X7.  [css_rgb2hex] hands the converter a call of [rgb()] with its
    three runs of digits; white space may follow the commas.  What the
    converter returns stands for the call and the rule goes on behind it;
    if the converter fails, the rule fails. *)
Theorem css_rgb2hex_call (f : re_match -> option string)
    (r w1 g w2 b rest : string) :
  digits r -> digits g -> digits b ->
  all is_space w1 = true -> all is_space w2 = true ->
  css_rgb2hex f (rgb_call r w1 g w2 b ++ rest)
  = cons_out (f [rgb_call r w1 g w2 b; r; g; b]) (css_rgb2hex f rest).
Proof.
  intros Hr Hg Hb Hw1 Hw2. unfold css_rgb2hex.
  apply sub_cb_hit; [discriminate | now apply rgb_hit].
Qed.

Lemma digits_255 : digits "255".
Proof. split; [discriminate | reflexivity]. Defined.

Lemma digits_0 : digits "0".
Proof. split; [discriminate | reflexivity]. Defined.

Lemma dots_50 : digits_or_dots "50".
Proof. split; [discriminate | reflexivity]. Defined.

Lemma dots_half : digits_or_dots ".5".
Proof. split; [discriminate | reflexivity]. Defined.

Lemma css_rgb2hex_call_witness :
  css_rgb2hex Sample.hex6 "rgb(255, 0,0);"
  = cons_out (Sample.hex6 ["rgb(255, 0,0)"; "255"; "0"; "0"])
             (css_rgb2hex Sample.hex6 ";").
Proof.
  apply (css_rgb2hex_call Sample.hex6 "255" " " "0" EmptyString "0" ";"
           digits_255 digits_0 digits_0 eq_refl eq_refl).
Defined.

(** X8.  [css_hsl2hex] hands the converter a call of [hsl()] with the
    digits of the hue and the digits and points of saturation and
    lightness, each of these two with or without a percent sign, which is
    not handed over.  What the converter returns stands for the call; if
    it fails, the rule fails. *)
Theorem css_hsl2hex_call (f : re_match -> option string)
    (h w1 s : string) (p1 : bool) (w2 l : string) (p2 : bool) (rest : string) :
  digits h -> digits_or_dots s -> digits_or_dots l ->
  all is_space w1 = true -> all is_space w2 = true ->
  css_hsl2hex f (hsl_call h w1 s p1 w2 l p2 ++ rest)
  = cons_out (f [hsl_call h w1 s p1 w2 l p2; h; s; l]) (css_hsl2hex f rest).
Proof.
  intros Hh Hs Hl Hw1 Hw2. unfold css_hsl2hex.
  apply sub_cb_hit; [discriminate | now apply hsl_hit].
Qed.

Lemma css_hsl2hex_call_witness :
  css_hsl2hex Sample.hex6 "hsl(0, 50%,50);"
  = cons_out (Sample.hex6 ["hsl(0, 50%,50)"; "0"; "50"; "50"])
             (css_hsl2hex Sample.hex6 ";").
Proof.
  apply (css_hsl2hex_call Sample.hex6 "0" " " "50" true EmptyString "50" false ";"
           digits_0 dots_50 dots_50 eq_refl eq_refl).
Defined.

(** X9.  [css_rgba2hex] hands the converter a call of [rgba()] with its
    three runs of digits and, as alpha, a run of digits and points, which
    need not be a number.  What the converter returns stands for the
    call; if it fails, the rule fails. *)
Theorem css_rgba2hex_call (f : re_match -> option string)
    (r w1 g w2 b w3 a rest : string) :
  digits r -> digits g -> digits b -> digits_or_dots a ->
  all is_space w1 = true -> all is_space w2 = true -> all is_space w3 = true ->
  css_rgba2hex f (rgba_call r w1 g w2 b w3 a ++ rest)
  = cons_out (f [rgba_call r w1 g w2 b w3 a; r; g; b; a]) (css_rgba2hex f rest).
Proof.
  intros Hr Hg Hb Ha Hw1 Hw2 Hw3. unfold css_rgba2hex.
  apply sub_cb_hit; [discriminate | now apply rgba_hit].
Qed.

Lemma css_rgba2hex_call_witness :
  css_rgba2hex Sample.hex8 "rgba(255,0,0, .5)}"
  = cons_out (Sample.hex8 ["rgba(255,0,0, .5)"; "255"; "0"; "0"; ".5"])
             (css_rgba2hex Sample.hex8 "}").
Proof.
  apply (css_rgba2hex_call Sample.hex8 "255" EmptyString "0" EmptyString "0" " "
           ".5" "}" digits_255 digits_0 digits_0 dots_half eq_refl eq_refl eq_refl).
Defined.

(** X10.  [css_hsla2hex] hands the converter a call of [hsla()] with the
    digits of the hue, the digits and points of saturation and lightness,
    each with or without a percent sign, and those of alpha.  What the
    converter returns stands for the call; if it fails, the rule fails. *)
Theorem css_hsla2hex_call (f : re_match -> option string)
    (h w1 s : string) (p1 : bool) (w2 l : string) (p2 : bool)
    (w3 a rest : string) :
  digits h -> digits_or_dots s -> digits_or_dots l -> digits_or_dots a ->
  all is_space w1 = true -> all is_space w2 = true -> all is_space w3 = true ->
  css_hsla2hex f (hsla_call h w1 s p1 w2 l p2 w3 a ++ rest)
  = cons_out (f [hsla_call h w1 s p1 w2 l p2 w3 a; h; s; l; a])
             (css_hsla2hex f rest).
Proof.
  intros Hh Hs Hl Ha Hw1 Hw2 Hw3. unfold css_hsla2hex.
  apply sub_cb_hit; [discriminate | now apply hsla_hit].
Qed.

Lemma css_hsla2hex_call_witness :
  css_hsla2hex Sample.hex8 "hsla(0,50%, 50%,.5)}"
  = cons_out (Sample.hex8 ["hsla(0,50%, 50%,.5)"; "0"; "50"; "50"; ".5"])
             (css_hsla2hex Sample.hex8 "}").
Proof.
  apply (css_hsla2hex_call Sample.hex8 "0" EmptyString "50" true " " "50" true
           EmptyString ".5" "}" digits_0 dots_50 dots_50 dots_half
           eq_refl eq_refl eq_refl).
Defined.

(** ** Six hex digits *)

Lemma shorten_hex_six (pre post : string) (h0 h1 h2 h3 h4 h5 : ascii) :
  all is_hex (String h0 (String h1 (String h2 (String h3 (String h4
    (String h5 EmptyString)))))) = true ->
  css_shorten_hex
    (pre ++ String "#" (String h0 (String h1 (String h2 (String h3 (String h4
       (String h5 post)))))))
  = css_shorten_hex pre
    ++ (if Ascii.eqb h0 h1 && Ascii.eqb h2 h3 && Ascii.eqb h4 h5
        then String "#" (String h0 (String h2 (String h4 EmptyString)))
        else String "#" (String h0 (String h1 (String h2 (String h3 (String h4
               (String h5 EmptyString)))))))
    ++ css_shorten_hex post.
Proof.
  intros Hh. unfold css_shorten_hex.
  rewrite (sub_hex_app shorten_clr (String.length pre)) by apply le_n.
  f_equal.
  set (h := String h0 (String h1 (String h2 (String h3 (String h4
              (String h5 EmptyString)))))) in *.
  change (String "#" (String h0 (String h1 (String h2 (String h3 (String h4
            (String h5 post)))))))
    with (("#" ++ h) ++ post).
  rewrite (sub_hit Pat.hex shorten_clr ("#" ++ h) _ ["#" ++ h; h]);
    [| discriminate | apply hex_hit; [reflexivity | exact Hh] ].
  f_equal. subst h. unfold shorten_clr.
  cbn [group nth at_ String.get forallb Nat.add same chr append].
  rewrite andb_true_r, andb_assoc.
  now destruct (Ascii.eqb h0 h1 && Ascii.eqb h2 h3 && Ascii.eqb h4 h5).
Qed.

(** X11.  In every text, a [#] and six hex digits become the [#] and the
    first digit of each pair where the two digits of every pair are the
    same character, and stay as they are where they are not, as in
    [#aAbBcC]; what follows the six digits plays no part. *)
Theorem css_shorten_hex_six_digits (pre post : string)
    (h0 h1 h2 h3 h4 h5 : ascii) :
  all is_hex (String h0 (String h1 (String h2 (String h3 (String h4
    (String h5 EmptyString)))))) = true ->
  css_shorten_hex
    (pre ++ String "#" (String h0 (String h1 (String h2 (String h3 (String h4
       (String h5 post)))))))
  = css_shorten_hex pre
    ++ (if Ascii.eqb h0 h1 && Ascii.eqb h2 h3 && Ascii.eqb h4 h5
        then String "#" (String h0 (String h2 (String h4 EmptyString)))
        else String "#" (String h0 (String h1 (String h2 (String h3 (String h4
               (String h5 EmptyString)))))))
    ++ css_shorten_hex post.
Proof. apply shorten_hex_six. Qed.

Lemma css_shorten_hex_six_digits_witness :
  css_shorten_hex "a{b:#aAbBcC;c:#ffcc00}"
  = css_shorten_hex "a{b:" ++ "#aAbBcC" ++ css_shorten_hex ";c:#ffcc00}".
Proof.
  apply (css_shorten_hex_six_digits "a{b:" ";c:#ffcc00}" "a" "A" "b" "B" "c" "C").
  reflexivity.
Defined.

(** ** Empty rules *)

(** X12.  [css_remove_empty_rules] deletes [{}] together with all the
    text in front of it back to the last brace or to the start of the
    text: the selector, and with it any statement that stands between
    that brace and the selector. *)
Theorem css_remove_empty_rules_back_to_brace (w rest : string) :
  w <> EmptyString -> brace_free w = true ->
  css_remove_empty_rules (w ++ "{}" ++ rest) = css_remove_empty_rules rest.
Proof.
  intros Hne Hw. unfold css_remove_empty_rules.
  rewrite <- app_assoc.
  rewrite (sub_hit Pat.empty_rules _ (w ++ "{}") rest [w ++ "{}"]);
    [reflexivity | destruct w; discriminate |].
  rewrite app_assoc. now apply empty_rules_hit.
Qed.

Lemma css_remove_empty_rules_back_to_brace_witness :
  css_remove_empty_rules "@import url(x.css);a{}b{c:d}"
  = css_remove_empty_rules "b{c:d}".
Proof.
  apply (css_remove_empty_rules_back_to_brace "@import url(x.css);a" "b{c:d}");
    [discriminate | reflexivity].
Defined.

(** X13.  A text without [{}] is returned as it is, and a [{}] that
    begins the text or follows a brace stays, there being no selector. *)
Theorem css_remove_empty_rules_keeps (css : string) :
  (contains "{}" css = false -> css_remove_empty_rules css = css)
  /\ css_remove_empty_rules ("{}" ++ css) = "{}" ++ css_remove_empty_rules css
  /\ (forall b, none_of "}{" b = false ->
        css_remove_empty_rules (String b ("{}" ++ css))
        = String b ("{}" ++ css_remove_empty_rules css)).
Proof.
  assert (M : forall b t, none_of "}{" b = false ->
              match_at Pat.empty_rules (String b t) = None).
  { intros b t Hb. unfold match_at, Pat.empty_rules, plus. cbn [seqs].
    rewrite rmatch_seq, rmatch_rep. cbn [rep more andb]. now rewrite Hb. }
  unfold css_remove_empty_rules. split; [|split].
  - intros H. now apply sub_absent, empty_rules_needs_braces.
  - cbn [append]. now rewrite !sub_miss by (apply M; reflexivity).
  - intros b Hb. cbn [append].
    rewrite (sub_miss _ _ b) by now apply M.
    now rewrite !sub_miss by (apply M; reflexivity).
Qed.

Lemma css_remove_empty_rules_keeps_witness :
  css_remove_empty_rules "a{b:c}d{e:f}" = "a{b:c}d{e:f}"
  /\ css_remove_empty_rules "}{}a" = String "}" ("{}" ++ css_remove_empty_rules "a").
Proof.
  destruct (css_remove_empty_rules_keeps "a{b:c}d{e:f}") as (H1 & _ & _).
  destruct (css_remove_empty_rules_keeps "a") as (_ & _ & H3).
  split; [apply H1; reflexivity | apply (H3 "}"%char); reflexivity].
Defined.

(** ** Font weights *)

(** A text without the character [a] that begins the result of a
    replacement by a text beginning with [a] begins the replaced text. *)
Lemma replace_keeps_start_of (a : ascii) (old n' : string) (k : string) :
  old <> EmptyString -> one_of k a = false ->
  forall s,
  starts_with k (replace old (String a n') s) = true -> starts_with k s = true.
Proof.
  intros Hold. induction k as [|x k IH]; intros Hk s H; [reflexivity|].
  cbn [one_of] in Hk. apply orb_false_iff in Hk as [Hx Hk].
  destruct s as [|c s]; [now rewrite replace_empty in H|].
  destruct (starts_with old (String c s)) eqn:E.
  - apply starts_with_app in E as [t E]. rewrite E in H.
    rewrite replace_hit in H by assumption.
    cbn [append] in H. rewrite starts_with_cons, Hx in H. discriminate H.
  - rewrite replace_miss in H by assumption.
    rewrite starts_with_cons in *. apply andb_true_iff in H as [-> H].
    now apply IH.
Qed.

(** A replacement does not bring in the text [a q] where it puts a text
    that begins with [a] and then differs from [q], and where it copies
    only characters at which [a q] does not begin. *)
Lemma replace_brings_none (a : ascii) (q old n' : string) (n : nat) :
  old <> EmptyString -> one_of q a = false -> one_of n' a = false ->
  (forall t, starts_with q (n' ++ t) = false) ->
  forall s, String.length s <= n ->
  (forall s1 s2, s = s1 ++ s2 -> starts_with old s2 = false ->
                 starts_with (String a q) s2 = false) ->
  contains (String a q) (replace old (String a n') s) = false.
Proof.
  intros Hold Hq Hn' Hclash. induction n as [|n IH]; intros s Hn Hs.
  - destruct s; [|simpl in Hn; lia]. now rewrite replace_empty.
  - destruct s as [|c s]; [now rewrite replace_empty|].
    destruct (starts_with old (String c s)) eqn:E.
    + apply starts_with_app in E as [t E]. rewrite E in *.
      rewrite replace_hit by assumption.
      cbn [append contains]. rewrite starts_with_cons, Hclash, andb_false_r.
      cbn [orb].
      rewrite (contains_after_run (fun c => negb (Ascii.eqb a c)) a q n').
      * apply IH.
        -- rewrite length_app in Hn. destruct old; [congruence|].
           simpl in Hn. lia.
        -- intros s1 s2 -> H. apply (Hs (old ++ s1) s2); [|exact H].
           now rewrite app_assoc.
      * clear - Hn'. induction n' as [|x n' IHn]; [reflexivity|].
        cbn [one_of] in Hn'. apply orb_false_iff in Hn' as [Hx Hn'].
        cbn [all]. rewrite Ascii.eqb_sym, Hx. now apply IHn.
      * now rewrite Ascii.eqb_refl.
    + rewrite replace_miss by assumption. cbn [contains].
      rewrite IH.
      * rewrite orb_false_r.
        pose proof (Hs EmptyString (String c s) eq_refl E) as Hc.
        rewrite starts_with_cons in *.
        destruct (Ascii.eqb a c); [|reflexivity]. cbn [andb] in *.
        destruct (starts_with q (replace old (String a n') s)) eqn:R;
          [|reflexivity].
        apply replace_keeps_start_of in R; [congruence | assumption | assumption].
      * simpl in Hn. lia.
      * intros s1 s2 -> H. now apply (Hs (String c s1) s2).
Qed.

Lemma contains_nowhere (p s s1 s2 : string) :
  contains p s = false -> s = s1 ++ s2 -> starts_with p s2 = false.
Proof. intros H ->. now apply contains_head, (contains_suffix p s1). Qed.

Lemma font_weights_clean (css : string) :
  contains "font-weight:normal" (css_font_weights css) = false
  /\ contains "font-weight:bold" (css_font_weights css) = false.
Proof.
  unfold css_font_weights.
  set (s1 := replace "font-weight:normal" "font-weight:400" css).
  assert (H1 : contains "font-weight:normal" s1 = false).
  { apply (replace_brings_none "f" "ont-weight:normal" "font-weight:normal"
             "ont-weight:400" (String.length css));
      [discriminate | reflexivity | reflexivity | intros t; reflexivity
      | apply le_n | intros a b _ H; exact H]. }
  split.
  - apply (replace_brings_none "f" "ont-weight:normal" "font-weight:bold"
             "ont-weight:700" (String.length s1));
      [discriminate | reflexivity | reflexivity | intros t; reflexivity
      | apply le_n | intros a b E _; exact (contains_nowhere _ _ a b H1 E)].
  - apply (replace_brings_none "f" "ont-weight:bold" "font-weight:bold"
             "ont-weight:700" (String.length s1));
      [discriminate | reflexivity | reflexivity | intros t; reflexivity
      | apply le_n | intros a b _ H; exact H].
Qed.

(** X14.  For every text, the output of [css_font_weights] contains
    neither [font-weight:normal] nor [font-weight:bold]. *)
Theorem css_font_weights_leaves_none (css : string) :
  contains "font-weight:normal" (css_font_weights css) = false
  /\ contains "font-weight:bold" (css_font_weights css) = false.
Proof. apply font_weights_clean. Qed.

Ltac copy_chars old := repeat (rewrite (replace_miss old) by reflexivity).

(** X15.  [css_font_weights] looks at no boundary behind the keyword:
    [font-weight:bold] and [font-weight:normal] are replaced whatever
    follows them, so that [font-weight:bolder] becomes
    [font-weight:700er]. *)
Theorem css_font_weights_any_follower (rest : string) :
  css_font_weights ("font-weight:bold" ++ rest)
  = "font-weight:700" ++ css_font_weights rest
  /\ css_font_weights ("font-weight:normal" ++ rest)
     = "font-weight:400" ++ css_font_weights rest.
Proof.
  unfold css_font_weights. split.
  - cbn [append]. copy_chars "font-weight:normal".
    change (String "f" (String "o" (String "n" (String "t" (String "-" (String "w"
              (String "e" (String "i" (String "g" (String "h" (String "t"
              (String ":" (String "b" (String "o" (String "l" (String "d"
              (replace "font-weight:normal" "font-weight:400" rest)))))))))))))))))
      with ("font-weight:bold" ++ replace "font-weight:normal" "font-weight:400" rest).
    now rewrite replace_hit by discriminate.
  - rewrite (replace_hit "font-weight:normal" "font-weight:400" rest)
      by discriminate.
    cbn [append]. copy_chars "font-weight:bold". reflexivity.
Qed.

(** ** White space *)

Lemma punct_cases (p : ascii) :
  is_punct p = true ->
  p = "{"%char \/ p = "}"%char \/ p = ":"%char \/ p = ";"%char \/ p = ","%char.
Proof.
  destruct p as [[] [] [] [] [] [] [] []]; vm_compute; intros H;
    try discriminate H; auto 6.
Qed.

Lemma punct_not_space (p : ascii) : is_punct p = true -> is_space p = false.
Proof.
  intros H. destruct (punct_cases p H) as [-> | [-> | [-> | [-> | ->]]]];
    reflexivity.
Qed.

Lemma skip_while_stops (p : charset) (s : string) : stops p (skip_while p s).
Proof.
  induction s as [|c s IH]; [exact I|]. cbn [skip_while].
  destruct (p c) eqn:E; [exact IH | exact E].
Qed.

Lemma skip_while_run (p : charset) (w s : string) :
  all p w = true -> stops p s -> skip_while p (w ++ s) = s.
Proof.
  intros Hw Hs. induction w as [|c w IH]; cbn [append].
  - destruct s as [|d s]; [reflexivity|]. cbn [skip_while]. cbn [stops] in Hs.
    now rewrite Hs.
  - cbn [all] in Hw. apply andb_true_iff in Hw as [Hc Hw].
    cbn [skip_while]. rewrite Hc. now apply IH.
Qed.

Lemma whitespace_hit (w1 w2 rest : string) (p : ascii) :
  all is_space w1 = true -> is_punct p = true -> all is_space w2 = true ->
  stops is_space rest ->
  match_at Pat.whitespace (w1 ++ String p (w2 ++ rest))
  = Some ([w1 ++ String p w2; String p EmptyString], rest).
Proof.
  intros H1 Hp H2 Hr. unfold match_at, Pat.whitespace, star. cbn [seqs].
  rewrite rmatch_seq, rmatch_rep.
  apply rep_run; [assumption | apply Nat.le_0_l | now apply punct_not_space |].
  rewrite rmatch_seq, rmatch_grp.
  change (String p (w2 ++ rest)) with (String p EmptyString ++ (w2 ++ rest)).
  apply rmatch_words.
  - destruct (punct_cases p Hp) as [-> | [-> | [-> | [-> | ->]]]]; reflexivity.
  - rewrite rmatch_rep.
    apply rep_run; [assumption | apply Nat.le_0_l | assumption |].
    rewrite (captured_eq (String p EmptyString) (w2 ++ rest)) by reflexivity.
    rewrite (captured_eq (w1 ++ String p w2) rest); [reflexivity|].
    cbn [append]. rewrite !app_assoc. reflexivity.
Qed.

Lemma whitespace_shape (s : string) (m : re_match) (rest : string) :
  match_at Pat.whitespace s = Some (m, rest) -> punct_led s = true.
Proof.
  intros E. apply match_at_sound in E as (w & g & -> & M & _).
  open_pattern; split_match; chars_known; unfold punct_led;
    rewrite !app_assoc; cbn [append];
    match goal with
    | Ha : all is_space ?v = true |- context [?v ++ String ?c ?t] =>
        rewrite (skip_while_run is_space v (String c t) Ha) by reflexivity;
        reflexivity
    end.
Qed.

Lemma whitespace_miss (s : string) :
  punct_led s = false -> match_at Pat.whitespace s = None.
Proof.
  intros H. destruct (match_at Pat.whitespace s) as [[m rest]|] eqn:E;
    [|reflexivity].
  apply whitespace_shape in E. congruence.
Qed.

(** The text in front of the first punctuation, when only white space is
    in front of it. *)
Lemma punct_led_split (s : string) :
  punct_led s = true ->
  exists w1 p w2,
    s = w1 ++ String p (w2 ++ skip_while is_space (skip (S (String.length w1)) s))
    /\ all is_space w1 = true /\ is_punct p = true /\ all is_space w2 = true.
Proof.
  unfold punct_led. intros H.
  destruct (skip_while_split is_space s) as (w1 & E1 & H1).
  destruct (skip_while is_space s) as [|p t] eqn:Et; [discriminate H|].
  cbn [first_char punctuated] in H.
  destruct (skip_while_split is_space t) as (w2 & E2 & H2).
  exists w1, p, w2. repeat split; try assumption.
  assert (Es : skip (S (String.length w1)) s = t).
  { rewrite E1 at 1.
    change (S (String.length w1)) with (1 + String.length w1).
    clear. induction w1 as [|c w1 IH]; [reflexivity | exact IH]. }
  rewrite Es, <- E2. exact E1.
Qed.

Lemma no_touch_cons (c : ascii) (s : string) :
  no_touch (String c s) = joint (Some c) (first_char s) && no_touch s.
Proof. reflexivity. Qed.

Lemma ws_sub_step (n : nat) :
  forall s, String.length s <= n ->
  no_touch (sub Pat.whitespace (fun m => group m 1) s) = true
  /\ (if punct_led s
      then punctuated (first_char (sub Pat.whitespace (fun m => group m 1) s))
           = true
      else first_char (sub Pat.whitespace (fun m => group m 1) s)
           = first_char s).
Proof.
  induction n as [|n IH]; intros s Hn.
  - destruct s; [|simpl in Hn; lia]. split; reflexivity.
  - destruct (punct_led s) eqn:Hp.
    + destruct (punct_led_split s Hp) as (w1 & p & w2 & E & H1 & Hpp & H2).
      set (rest := skip_while is_space (skip (S (String.length w1)) s)) in *.
      assert (Hr : stops is_space rest) by apply skip_while_stops.
      assert (Hlen : String.length rest <= n).
      { rewrite E in Hn. rewrite !length_app in Hn. cbn [String.length] in Hn.
        rewrite length_app in Hn. lia. }
      pose proof (whitespace_hit w1 w2 rest p H1 Hpp H2 Hr) as Hm.
      assert (Es : sub Pat.whitespace (fun m => group m 1) s
                   = String p (sub Pat.whitespace (fun m => group m 1) rest)).
      { rewrite E.
        replace (w1 ++ String p (w2 ++ rest)) with ((w1 ++ String p w2) ++ rest)
          in * by (rewrite !app_assoc; reflexivity).
        rewrite (sub_hit _ _ (w1 ++ String p w2) rest _
                   ltac:(destruct w1; discriminate) Hm).
        reflexivity. }
      rewrite Es. destruct (IH rest Hlen) as [Hnt Hf]. split; [|exact Hpp].
      rewrite no_touch_cons, Hnt, andb_true_r.
      destruct (first_char (sub Pat.whitespace (fun m => group m 1) rest))
        as [d|] eqn:Ed; [|reflexivity].
      cbn [joint]. unfold touches.
      rewrite (punct_not_space p Hpp), Hpp. cbn [andb orb].
      apply negb_true_iff.
      destruct (punct_led rest) eqn:Hpr.
      * cbn [punctuated] in Hf. now apply punct_not_space.
      * destruct rest as [|e rest']; [discriminate Hf|].
        cbn [first_char] in Hf. injection Hf as ->. exact Hr.
    + destruct s as [|c s]; [split; reflexivity|].
      assert (Es : sub Pat.whitespace (fun m => group m 1) (String c s)
                   = String c (sub Pat.whitespace (fun m => group m 1) s)).
      { apply sub_miss. now apply whitespace_miss. }
      rewrite Es. split; [|reflexivity].
      destruct (IH s ltac:(simpl in Hn; lia)) as [Hnt Hf].
      rewrite no_touch_cons, Hnt, andb_true_r.
      destruct (first_char (sub Pat.whitespace (fun m => group m 1) s))
        as [d|] eqn:Ed; [|reflexivity].
      cbn [joint]. apply negb_true_iff. unfold touches.
      assert (Hc : is_punct c = false).
      { unfold punct_led in Hp. cbn [skip_while] in Hp.
        destruct (is_punct c) eqn:Ec; [|reflexivity].
        rewrite (punct_not_space c Ec) in Hp.
        cbn [first_char punctuated] in Hp. congruence. }
      rewrite Hc. cbn [andb]. rewrite orb_false_r.
      destruct (is_space c) eqn:Ec; [|reflexivity]. cbn [andb].
      unfold punct_led in Hp. cbn [skip_while] in Hp. rewrite Ec in Hp.
      fold (punct_led s) in Hp. rewrite Hp in Hf.
      destruct s as [|e s']; [discriminate Hf|].
      cbn [first_char] in Hf. injection Hf as <-.
      unfold punct_led in Hp. cbn [skip_while] in Hp.
      destruct (is_punct d) eqn:Edp; [|reflexivity].
      rewrite (punct_not_space d Edp) in Hp.
      cbn [first_char punctuated] in Hp. congruence.
Qed.

Lemma no_touch_app (a b : string) :
  no_touch (a ++ b)
  = no_touch a && no_touch b && joint (last_char a) (first_char b).
Proof.
  induction a as [|c a IH]; cbn [append].
  - cbn [no_touch last_char joint]. now rewrite andb_true_r.
  - rewrite !no_touch_cons, IH. destruct a as [|d a].
    + cbn [append first_char last_char no_touch joint].
      rewrite !andb_true_r. cbn [andb]. apply andb_comm.
    + cbn [append first_char last_char].
      destruct (joint (Some c) (Some d)); cbn [andb]; reflexivity.
Qed.

Lemma replace_first (old new : string) :
  old <> EmptyString -> first_char new = first_char old ->
  forall s, first_char (replace old new s) = first_char s.
Proof.
  intros Hold Hf s. destruct s as [|c s]; [now rewrite replace_empty|].
  destruct (starts_with old (String c s)) eqn:E.
  - apply starts_with_app in E as [t E]. rewrite E.
    rewrite replace_hit by assumption.
    destruct old as [|x old]; [congruence|].
    destruct new as [|y new]; [discriminate Hf|]. exact Hf.
  - now rewrite replace_miss.
Qed.

Lemma replace_no_touch (old new : string) :
  old <> EmptyString -> first_char new = first_char old ->
  last_char new = last_char old -> no_touch new = true ->
  forall n s, String.length s <= n -> no_touch s = true ->
  no_touch (replace old new s) = true.
Proof.
  intros Hold Hf Hl Hnew. induction n as [|n IH]; intros s Hn Hs.
  - destruct s; [|simpl in Hn; lia]. now rewrite replace_empty.
  - destruct s as [|c s]; [now rewrite replace_empty|].
    destruct (starts_with old (String c s)) eqn:E.
    + apply starts_with_app in E as [t E]. rewrite E in *.
      rewrite replace_hit by assumption.
      rewrite no_touch_app in Hs.
      apply andb_true_iff in Hs as [Hs Hj].
      apply andb_true_iff in Hs as [_ Ht].
      rewrite no_touch_app, Hnew, Hl, replace_first, Hj by assumption.
      rewrite IH; [reflexivity | | assumption].
      rewrite length_app in Hn. destruct old; [congruence|].
      cbn [String.length] in Hn. lia.
    + rewrite replace_miss by assumption.
      rewrite no_touch_cons in *. apply andb_true_iff in Hs as [Hj Ht].
      rewrite replace_first, Hj by assumption.
      apply IH; [simpl in Hn; lia | assumption].
Qed.

Lemma lstrip_no_touch (s : string) :
  no_touch s = true -> no_touch (lstrip s) = true.
Proof.
  induction s as [|c s IH]; intros H; [reflexivity|]. cbn [lstrip].
  destruct (is_space c); [|assumption].
  rewrite no_touch_cons in H. apply andb_true_iff in H as [_ H]. now apply IH.
Qed.

Lemma lstrip_first (s : string) : spaced (first_char (lstrip s)) = false.
Proof.
  induction s as [|c s IH]; [reflexivity|]. cbn [lstrip].
  destruct (is_space c) eqn:E; [exact IH | exact E].
Qed.

Lemma rstrip_first (s : string) :
  rstrip s = EmptyString \/ first_char (rstrip s) = first_char s.
Proof.
  destruct s as [|c s]; [now left|]. cbn [rstrip].
  destruct (rstrip s); [destruct (is_space c)|]; auto.
Qed.

Lemma rstrip_last (s : string) : spaced (last_char (rstrip s)) = false.
Proof.
  induction s as [|c s IH]; [reflexivity|]. cbn [rstrip].
  destruct (rstrip s) as [|d r].
  - destruct (is_space c) eqn:E; [reflexivity | exact E].
  - exact IH.
Qed.

Lemma rstrip_no_touch (s : string) :
  no_touch s = true -> no_touch (rstrip s) = true.
Proof.
  induction s as [|c s IH]; intros H; [reflexivity|].
  rewrite no_touch_cons in H. apply andb_true_iff in H as [Hj Hs].
  cbn [rstrip]. destruct (rstrip_first s) as [E | E].
  - rewrite E. now destruct (is_space c).
  - destruct (rstrip s) as [|d r] eqn:Er; [now destruct (is_space c)|].
    rewrite no_touch_cons, E, Hj. now apply IH.
Qed.

Lemma remove_whitespace_no_touch (css : string) :
  no_touch (css_remove_whitespace css) = true.
Proof.
  unfold css_remove_whitespace, strip.
  apply rstrip_no_touch, lstrip_no_touch.
  eapply replace_no_touch;
    [discriminate | reflexivity | reflexivity | reflexivity | apply Nat.le_refl |].
  eapply replace_no_touch;
    [discriminate | reflexivity | reflexivity | reflexivity | apply Nat.le_refl |].
  exact (proj1 (ws_sub_step _ css (Nat.le_refl _))).
Qed.

Lemma remove_whitespace_trimmed (css : string) :
  spaced (first_char (css_remove_whitespace css)) = false
  /\ spaced (last_char (css_remove_whitespace css)) = false.
Proof.
  unfold css_remove_whitespace, strip. split; [|apply rstrip_last].
  match goal with |- context [rstrip (lstrip ?t)] =>
    destruct (rstrip_first (lstrip t)) as [E | E]; rewrite E
  end; [reflexivity | apply lstrip_first].
Qed.

(** X16.  The text returned by [css_remove_whitespace] neither begins nor
    ends with a white-space character. *)
Theorem css_remove_whitespace_trimmed (css : string) :
  spaced (first_char (css_remove_whitespace css)) = false
  /\ spaced (last_char (css_remove_whitespace css)) = false.
Proof.
  exact (remove_whitespace_trimmed css).
Qed.

(** X17.  In the text returned by [css_remove_whitespace] no white-space
    character stands next to a brace, a colon, a semicolon or a comma,
    neither before nor after it. *)
Theorem css_remove_whitespace_tight (css a b : string) (c d : ascii) :
  css_remove_whitespace css = a ++ String c (String d b) ->
  (is_space c && is_punct d) || (is_punct c && is_space d) = false.
Proof.
  intros E. pose proof (remove_whitespace_no_touch css) as H.
  rewrite E, no_touch_app in H.
  apply andb_true_iff in H as [H _]. apply andb_true_iff in H as [_ H].
  rewrite no_touch_cons in H. apply andb_true_iff in H as [H _].
  cbn [first_char joint] in H. now apply negb_true_iff in H.
Qed.

Lemma css_remove_whitespace_tight_witness :
  css_remove_whitespace " a , b { c : d ; } " = "a" ++ String "," (String "b" "{c:d;}")
  /\ (is_space "," && is_punct "b") || (is_punct "," && is_space "b") = false.
Proof.
  split; [reflexivity|].
  exact (css_remove_whitespace_tight " a , b { c : d ; } " "a" "{c:d;}" "," "b"
           eq_refl).
Defined.

(** ** White space, a second time *)

Lemma no_touch_tail (c : ascii) (s : string) :
  no_touch (String c s) = true -> no_touch s = true.
Proof. rewrite no_touch_cons. intros H. now apply andb_true_iff in H. Qed.

(** Where white space and punctuation do not touch, white space is not
    followed by punctuation after more white space either. *)
Lemma no_touch_not_led (s : string) :
  no_touch s = true -> spaced (first_char s) = true -> punct_led s = false.
Proof.
  induction s as [|c s IH]; intros H Hc; [reflexivity|].
  cbn [first_char spaced] in Hc.
  unfold punct_led. cbn [skip_while]. rewrite Hc. fold (punct_led s).
  rewrite no_touch_cons in H. apply andb_true_iff in H as [Hj Hs].
  destruct s as [|d s]; [reflexivity|].
  cbn [first_char joint] in Hj. apply negb_true_iff in Hj. unfold touches in Hj.
  rewrite Hc in Hj. cbn [andb] in Hj. apply orb_false_iff in Hj as [Hd _].
  destruct (is_space d) eqn:Ed; [now apply IH|].
  unfold punct_led. cbn [skip_while]. rewrite Ed. exact Hd.
Qed.

Lemma whitespace_idle (s : string) :
  no_touch s = true -> sub Pat.whitespace (fun m => group m 1) s = s.
Proof.
  induction s as [|c s IH]; intros H; [reflexivity|].
  pose proof (no_touch_tail c s H) as Hs.
  rewrite no_touch_cons in H. apply andb_true_iff in H as [Hj _].
  destruct (is_punct c) eqn:Ec.
  - assert (Hr : stops is_space s).
    { destruct s as [|d s]; [exact I|]. cbn [first_char joint] in Hj.
      apply negb_true_iff in Hj. unfold touches in Hj. rewrite Ec in Hj.
      apply orb_false_iff in Hj as [_ Hj]. exact Hj. }
    pose proof (whitespace_hit EmptyString EmptyString s c eq_refl Ec eq_refl Hr)
      as Hm.
    cbn [append] in Hm.
    rewrite (sub_hit Pat.whitespace _ (String c EmptyString) s _
               ltac:(discriminate) Hm).
    cbn [group nth append]. now rewrite IH.
  - rewrite sub_miss, IH; [reflexivity | assumption |].
    apply whitespace_miss.
    destruct (is_space c) eqn:Es.
    + apply no_touch_not_led; [|exact Es].
      rewrite no_touch_cons, Hj, Hs. reflexivity.
    + unfold punct_led. cbn [skip_while]. rewrite Es. exact Ec.
Qed.

Lemma starts_with_prefix (p a b : string) :
  starts_with p a = true -> starts_with p (a ++ b) = true.
Proof.
  intros H. apply starts_with_app in H as [t ->]. rewrite app_assoc.
  apply starts_with_app. now exists (t ++ b).
Qed.

Lemma contains_prefix (p a b : string) :
  contains p (a ++ b) = false -> contains p a = false.
Proof.
  induction a as [|c a IH]; intros H.
  - destruct (contains p EmptyString) eqn:E; [|reflexivity].
    cbn [contains] in E. rewrite orb_false_r in E.
    apply contains_head in H. cbn [append] in H.
    apply (starts_with_prefix p EmptyString b) in E. cbn [append] in E.
    congruence.
  - cbn [append contains] in *. apply orb_false_iff in H as [H1 H2].
    rewrite (IH H2), orb_false_r.
    destruct (starts_with p (String c a)) eqn:E; [|reflexivity].
    apply (starts_with_prefix p _ b) in E. cbn [append] in E. congruence.
Qed.

Lemma lstrip_contains (p s : string) :
  contains p s = false -> contains p (lstrip s) = false.
Proof.
  induction s as [|c s IH]; intros H; [exact H|]. cbn [lstrip].
  destruct (is_space c); [|exact H]. apply IH. now apply contains_tail in H.
Qed.

Lemma rstrip_prefix (s : string) : exists w, s = rstrip s ++ w.
Proof.
  induction s as [|c s [w IH]]; [now exists EmptyString|]. cbn [rstrip].
  destruct (rstrip s) as [|d r].
  - destruct (is_space c).
    + now exists (String c s).
    + exists w. cbn [append] in *. now rewrite <- IH.
  - exists w. cbn [append] in *. now rewrite <- IH.
Qed.

Lemma strip_contains (p s : string) :
  contains p s = false -> contains p (strip s) = false.
Proof.
  intros H. unfold strip. apply lstrip_contains in H.
  destruct (rstrip_prefix (lstrip s)) as [w E]. rewrite E in H.
  now apply contains_prefix in H.
Qed.

Lemma lstrip_idle (s : string) :
  spaced (first_char s) = false -> lstrip s = s.
Proof.
  destruct s as [|c s]; [reflexivity|]. cbn [first_char spaced lstrip].
  now intros ->.
Qed.

Lemma rstrip_idle (s : string) :
  spaced (last_char s) = false -> rstrip s = s.
Proof.
  induction s as [|c s IH]; intros H; [reflexivity|]. cbn [rstrip].
  destruct s as [|d s].
  - cbn [last_char spaced] in H. cbn [rstrip]. now rewrite H.
  - rewrite IH by exact H. reflexivity.
Qed.

(** Replacing [") and"] brings no ["and ("] into a text without one. *)
Lemma replace_and_clean (n : nat) :
  forall s, String.length s <= n -> contains "and (" s = false ->
  contains "and (" (replace ") and" ")and" s) = false.
Proof.
  induction n as [|n IH]; intros s Hn Hs.
  - destruct s; [reflexivity | simpl in Hn; lia].
  - destruct s as [|c s]; [reflexivity|].
    destruct (starts_with ") and" (String c s)) eqn:E.
    + apply starts_with_app in E as [t E]. rewrite E in *.
      rewrite replace_hit by discriminate.
      assert (Ht : contains "and (" t = false)
        by now apply (contains_suffix "and (" ") and").
      assert (Hlen : String.length t <= n).
      { rewrite length_app in Hn. cbn [String.length] in Hn. lia. }
      pose proof (IH t Hlen Ht) as Hr.
      assert (Hk : starts_with " (" (replace ") and" ")and" t) = false).
      { destruct (starts_with " (" (replace ") and" ")and" t)) eqn:R;
          [|reflexivity].
        apply replace_keeps_start_of in R; [|discriminate | reflexivity].
        apply starts_with_app in R as [u ->].
        apply (contains_suffix "and (" ") ") in Hs.
        apply contains_head in Hs. discriminate Hs. }
      cbn [append contains]. rewrite Hr.
      rewrite !starts_with_cons. cbn [Ascii.eqb Bool.eqb andb orb].
      rewrite Hk. reflexivity.
    + rewrite replace_miss by assumption. cbn [contains].
      rewrite IH; [|simpl in Hn; lia | now apply contains_tail in Hs].
      rewrite orb_false_r. apply contains_head in Hs.
      rewrite starts_with_cons in *.
      destruct (Ascii.eqb "a" c); [|reflexivity]. cbn [andb] in *.
      destruct (starts_with "nd (" (replace ") and" ")and" s)) eqn:R;
        [|reflexivity].
      apply replace_keeps_start_of in R; [congruence | discriminate | reflexivity].
Qed.

Lemma remove_whitespace_settled (css : string) :
  contains "and (" (css_remove_whitespace css) = false
  /\ contains ") and" (css_remove_whitespace css) = false.
Proof.
  unfold css_remove_whitespace. split; apply strip_contains.
  - eapply replace_and_clean; [apply Nat.le_refl|].
    eapply (replace_brings_none "a" "nd (" "and (" "nd(");
      [discriminate | reflexivity | reflexivity | intros t; reflexivity
      | apply Nat.le_refl | intros s1 s2 _ H; exact H].
  - eapply (replace_brings_none ")" " and" ") and" "and");
      [discriminate | reflexivity | reflexivity | intros t; reflexivity
      | apply Nat.le_refl | intros s1 s2 _ H; exact H].
Qed.

(** X18.  [css_remove_whitespace] has nothing left to do on a text it
    returned: applied a second time it returns the same text. *)
Theorem css_remove_whitespace_twice (css : string) :
  css_remove_whitespace (css_remove_whitespace css) = css_remove_whitespace css.
Proof.
  destruct (remove_whitespace_settled css) as [H1 H2].
  destruct (remove_whitespace_trimmed css) as [H3 H4].
  pose proof (remove_whitespace_no_touch css) as H5.
  set (t := css_remove_whitespace css) in *.
  unfold css_remove_whitespace at 1.
  rewrite (whitespace_idle t H5).
  rewrite (replace_absent "and (" "and(" t H1).
  rewrite (replace_absent ") and" ")and" t H2).
  unfold strip. rewrite (lstrip_idle t H3). now apply rstrip_idle.
Qed.

(** ** A text of white space only *)

Lemma space_not_punct (c : ascii) : is_space c = true -> is_punct c = false.
Proof.
  intros H. destruct (is_punct c) eqn:E; [|reflexivity].
  apply punct_not_space in E. congruence.
Qed.

Lemma blank_no_touch (w : string) : all is_space w = true -> no_touch w = true.
Proof.
  induction w as [|c w IH]; intros H; [reflexivity|].
  cbn [all] in H. apply andb_true_iff in H as [Hc Hw].
  rewrite no_touch_cons, (IH Hw), andb_true_r.
  destruct w as [|d w]; [reflexivity|].
  cbn [all] in Hw. apply andb_true_iff in Hw as [Hd _].
  cbn [first_char joint]. unfold touches.
  now rewrite (space_not_punct c Hc), (space_not_punct d Hd), !andb_false_r.
Qed.

Lemma blank_lstrip (w : string) : all is_space w = true -> lstrip w = EmptyString.
Proof.
  induction w as [|c w IH]; intros H; [reflexivity|].
  cbn [all] in H. apply andb_true_iff in H as [Hc Hw].
  cbn [lstrip]. rewrite Hc. now apply IH.
Qed.

Lemma blank_remove_whitespace (w : string) :
  all is_space w = true -> css_remove_whitespace w = EmptyString.
Proof.
  intros H. unfold css_remove_whitespace.
  rewrite (whitespace_idle w (blank_no_touch w H)).
  rewrite (replace_absent "and (" "and(" w)
    by (apply (contains_needs _ _ "a"); [reflexivity|];
        now apply (all_not_one_of is_space)).
  rewrite (replace_absent ") and" ")and" w)
    by (apply (contains_needs _ _ "a"); [reflexivity|];
        now apply (all_not_one_of is_space)).
  unfold strip. now rewrite blank_lstrip.
Qed.

(** X19.  For a text of white space only, [minify_css] returns the empty
    text, with every table of colours and whatever the converters do:
    no converter is called. *)
Theorem minify_css_blank (tbl : list (string * string))
    (rgb hsl rgba hsla : re_match -> option string) (w : string) :
  all is_space w = true ->
  minify_css tbl rgb hsl rgba hsla w = Some EmptyString.
Proof.
  intros H.
  apply minify_css_steps with (c8 := EmptyString) (c9 := EmptyString)
    (c10 := EmptyString) (c12 := EmptyString) (c13 := EmptyString)
    (c14 := EmptyString).
  - rewrite comments_absent, blank_remove_whitespace by
      (assumption ||
       (apply (contains_needs _ _ "*"); [reflexivity|];
        now apply (all_not_one_of is_space))).
    reflexivity.
  - no_match.
  - no_match.
  - rewrite css_sub_clrs_absent; [reflexivity|].
    apply Forall_forall. intros [k v] _. reflexivity.
  - no_match.
  - no_match.
  - reflexivity.
Qed.

Lemma minify_css_blank_witness :
  Sample.minify_css (String " " (String (ascii_of_nat 10) (String (ascii_of_nat 9) " ")))
  = Some EmptyString.
Proof.
  apply (minify_css_blank Sample.REPLACABLE_CLRS Sample.hex6 Sample.hex6
           Sample.hex8 Sample.hex8).
  reflexivity.
Defined.

(** * The pipeline and its collaborators *)

(** ** What a substitution with a converter returns *)


(** A substitution returns exactly when every call it makes returns. *)
Lemma calls_returned (r : regex) (f : re_match -> option string) :
  forall s n,
  all_returned (calls_from r f n s) = true
  <-> exists out, sub_cb_from r f n s = Some out.
Proof.
  unfold all_returned.
  induction s as [|c s IH]; intros n.
  - cbn [calls_from sub_cb_from]. destruct n; [|split; eauto].
    destruct (match_at r EmptyString) as [[m rest]|]; [|split; eauto].
    cbn [forallb snd]. destruct (f m) as [x|]; split; eauto.
    + discriminate.
    + now intros [out H].
  - cbn [calls_from sub_cb_from]. destruct n as [|n]; [|apply IH].
    destruct (match_at r (String c s)) as [[m rest]|].
    + cbn [forallb snd]. destruct (f m) as [x|].
      * cbn [andb].
        destruct (String.length (String c s) - String.length rest) as [|w].
        -- rewrite (IH 0). split; intros [out H].
           ++ rewrite H. cbn [cons_out]. eauto.
           ++ destruct (sub_cb_from r f 0 s); [eauto | discriminate H].
        -- rewrite (IH w). split; intros [out H].
           ++ rewrite H. cbn [cons_out]. eauto.
           ++ destruct (sub_cb_from r f w s); [eauto | discriminate H].
      * split; [discriminate | now intros [out H]].
    + rewrite (IH 0). split; intros [out H].
      * rewrite H. cbn [cons_out]. eauto.
      * destruct (sub_cb_from r f 0 s); [eauto | discriminate H].
Qed.


Lemma all_returned_app (a b : list (re_match * option string)) :
  all_returned (a ++ b) = all_returned a && all_returned b.
Proof. apply forallb_app. Qed.


Lemma minify_css_plain (tbl : list (string * string))
    (rgb hsl rgba hsla : re_match -> option string) (css : string) :
  minify_css tbl rgb hsl rgba hsla css
  = bind (css_rgb2hex rgb (plain_rules css)) (fun c9 =>
    bind (css_hsl2hex hsl c9) (fun c10 =>
    bind (css_rgba2hex rgba (css_shorten_hex (css_sub_clrs tbl c10))) (fun c13 =>
    bind (css_hsla2hex hsla c13) (fun c14 =>
    Some (css_font_weights (css_remove_empty_rules c14)))))).
Proof. reflexivity. Qed.

(** [minify_css] returns exactly when every call of a converter that the
    run makes returns. *)
Lemma minify_css_returns_iff (tbl : list (string * string))
    (rgb hsl rgba hsla : re_match -> option string) (css : string) :
  all_returned (handed tbl rgb hsl rgba hsla css) = true
  <-> exists out, minify_css tbl rgb hsl rgba hsla css = Some out.
Proof.
  rewrite minify_css_plain. unfold handed.
  set (c8 := plain_rules css).
  pose proof (calls_returned Pat.rgb rgb c8 0) as H9.
  fold (calls Pat.rgb rgb c8) in H9. fold (sub_cb Pat.rgb rgb c8) in H9.
  fold (css_rgb2hex rgb c8) in H9.
  rewrite all_returned_app.
  destruct (css_rgb2hex rgb c8) as [c9|]; cbn [bind].
  2: { split; [|now intros [out H]]. intros H.
       apply andb_true_iff in H as [H _]. apply H9 in H as [out H]. discriminate H. }
  rewrite (proj2 H9) by eauto. cbn [andb].
  pose proof (calls_returned Pat.hsl hsl c9 0) as H10.
  fold (calls Pat.hsl hsl c9) in H10. fold (sub_cb Pat.hsl hsl c9) in H10.
  fold (css_hsl2hex hsl c9) in H10.
  rewrite all_returned_app.
  destruct (css_hsl2hex hsl c9) as [c10|]; cbn [bind].
  2: { split; [|now intros [out H]]. intros H.
       apply andb_true_iff in H as [H _]. apply H10 in H as [out H]. discriminate H. }
  rewrite (proj2 H10) by eauto. cbn [andb].
  set (c12 := css_shorten_hex (css_sub_clrs tbl c10)).
  pose proof (calls_returned Pat.rgba rgba c12 0) as H13.
  fold (calls Pat.rgba rgba c12) in H13. fold (sub_cb Pat.rgba rgba c12) in H13.
  fold (css_rgba2hex rgba c12) in H13.
  rewrite all_returned_app.
  destruct (css_rgba2hex rgba c12) as [c13|]; cbn [bind].
  2: { split; [|now intros [out H]]. intros H.
       apply andb_true_iff in H as [H _]. apply H13 in H as [out H]. discriminate H. }
  rewrite (proj2 H13) by eauto. cbn [andb].
  pose proof (calls_returned Pat.hsla hsla c13 0) as H14.
  fold (calls Pat.hsla hsla c13) in H14. fold (sub_cb Pat.hsla hsla c13) in H14.
  fold (css_hsla2hex hsla c13) in H14.
  destruct (css_hsla2hex hsla c13) as [c14|]; cbn [bind].
  - rewrite (proj2 H14) by eauto. split; eauto.
  - split; [|now intros [out H]]. intros H. apply H14 in H as [out H].
    discriminate H.
Qed.

(** ** C8: no failure, and nothing to do where nothing matches *)

(** C8, as the code has it.  No rule of css.py fails by itself:
    [minify_css] returns a text for an input text exactly when every call
    of a converter that the run makes on it returns.  Every rule returns a
    text unchanged in which none of its patterns occurs; for
    [css_remove_whitespace], which also strips the text, that needs a text
    without white space at its ends. *)
Theorem rules_return_and_idle (tbl : list (string * string))
    (rgb hsl rgba hsla : re_match -> option string) (css : string) :
  (all_returned (handed tbl rgb hsl rgba hsla css) = true
   <-> exists out, minify_css tbl rgb hsl rgba hsla css = Some out)
  /\ (occurs Pat.comments css = false -> css_remove_comments css = css)
  /\ (occurs Pat.whitespace css = false ->
      contains "and (" css = false -> contains ") and" css = false ->
      strip css = css ->
      css_remove_whitespace css = css)
  /\ (occurs Pat.unquote_selectors css = false -> css_unquote_selectors css = css)
  /\ (occurs Pat.url_quotes css = false -> css_remove_url_quotes css = css)
  /\ (contains ";}" css = false -> occurs Pat.semicolons css = false ->
      css_remove_semicolons css = css)
  /\ (occurs Pat.none_to_zero css = false -> css_none_to_zero css = css)
  /\ (occurs Pat.zero_units css = false -> css_sub_zero_units css = css)
  /\ (occurs Pat.floats css = false -> css_shorten_floats css = css)
  /\ (occurs Pat.rgb css = false -> css_rgb2hex rgb css = Some css)
  /\ (occurs Pat.hsl css = false -> css_hsl2hex hsl css = Some css)
  /\ (Forall (fun kv => contains (":" ++ fst kv) css = false) tbl ->
      css_sub_clrs tbl css = css)
  /\ (occurs Pat.hex css = false -> css_shorten_hex css = css)
  /\ (occurs Pat.rgba css = false -> css_rgba2hex rgba css = Some css)
  /\ (occurs Pat.hsla css = false -> css_hsla2hex hsla css = Some css)
  /\ (occurs Pat.empty_rules css = false -> css_remove_empty_rules css = css)
  /\ (contains "font-weight:normal" css = false ->
      contains "font-weight:bold" css = false ->
      css_font_weights css = css).
Proof.
  split; [apply minify_css_returns_iff|].
  repeat match goal with |- _ /\ _ => split end;
    try (intros H; first [now apply sub_absent | now apply sub_cb_absent]).
  - intros H1 H2 H3 H4. unfold css_remove_whitespace.
    rewrite sub_absent by assumption.
    rewrite (replace_absent "and (") by assumption.
    now rewrite (replace_absent ") and") by assumption.
  - intros H1 H2. unfold css_remove_semicolons.
    rewrite replace_absent by assumption. now apply sub_absent.
  - apply css_sub_clrs_absent.
  - intros H1 H2. unfold css_font_weights.
    rewrite (replace_absent "font-weight:normal") by assumption.
    now apply replace_absent.
Qed.

Lemma rules_return_and_idle_witness :
  (exists out,
     minify_css Sample.REPLACABLE_CLRS Sample.hex6 Sample.hex6 fails_on_point
       Sample.hex8 "a { b : rgba(1, 2, 3, .5) }" = Some out)
  /\ all_returned
       (handed Sample.REPLACABLE_CLRS Sample.hex6 Sample.hex6 fails_on_point
          Sample.hex8 "a{b:rgba(1,2,3,.)}") = false
  /\ css_remove_comments "a b" = "a b"
  /\ css_remove_whitespace "a b" = "a b"
  /\ css_unquote_selectors "a b" = "a b"
  /\ css_remove_url_quotes "a b" = "a b"
  /\ css_remove_semicolons "a b" = "a b"
  /\ css_none_to_zero "a b" = "a b"
  /\ css_sub_zero_units "a b" = "a b"
  /\ css_shorten_floats "a b" = "a b"
  /\ css_rgb2hex Sample.hex6 "a b" = Some "a b"
  /\ css_hsl2hex Sample.hex6 "a b" = Some "a b"
  /\ css_sub_clrs Sample.REPLACABLE_CLRS "a b" = "a b"
  /\ css_shorten_hex "a b" = "a b"
  /\ css_rgba2hex Sample.hex8 "a b" = Some "a b"
  /\ css_hsla2hex Sample.hex8 "a b" = Some "a b"
  /\ css_remove_empty_rules "a b" = "a b"
  /\ css_font_weights "a b" = "a b".
Proof.
  destruct (rules_return_and_idle Sample.REPLACABLE_CLRS Sample.hex6 Sample.hex6
              fails_on_point Sample.hex8 "a { b : rgba(1, 2, 3, .5) }")
    as (Hrun & _).
  destruct (rules_return_and_idle Sample.REPLACABLE_CLRS Sample.hex6 Sample.hex6
              Sample.hex8 Sample.hex8 "a b")
    as (_ & H1 & H2 & H3 & H4 & H5 & H6 & H7 & H8 & H9 & H10 & H11 & H12
        & H13 & H14 & H15 & H16).
  repeat match goal with |- _ /\ _ => split end.
  - apply Hrun. reflexivity.
  - reflexivity.
  - apply H1; reflexivity.
  - apply H2; reflexivity.
  - apply H3; reflexivity.
  - apply H4; reflexivity.
  - apply H5; reflexivity.
  - apply H6; reflexivity.
  - apply H7; reflexivity.
  - apply H8; reflexivity.
  - apply H9; reflexivity.
  - apply H10; reflexivity.
  - apply H11. repeat constructor.
  - apply H12; reflexivity.
  - apply H13; reflexivity.
  - apply H14; reflexivity.
  - apply H15; reflexivity.
  - apply H16; reflexivity.
Defined.

(** C8 as stated fails: [css_remove_whitespace] changes a text in which
    none of its patterns occurs. *)
Lemma rules_idle_counterexample :
  occurs Pat.whitespace " a" = false
  /\ contains "and (" " a" = false
  /\ contains ") and" " a" = false
  /\ css_remove_whitespace " a" <> " a".
Proof. repeat split; [reflexivity .. | discriminate]. Qed.

(** The patterns of the conversions also match text that is no number,
    and a converter that fails on it makes [minify_css] fail. *)
Lemma minify_css_converter_fails (tbl : list (string * string))
    (rgb hsl rgba hsla : re_match -> option string) :
  keys_named tbl ->
  rgba ["rgba(0,0,0,.)"; "0"; "0"; "0"; "."] = None ->
  minify_css tbl rgb hsl rgba hsla "a{border:1px solid rgba(0,0,0,.)}" = None.
Proof.
  intros Hk Hf. unfold minify_css.
  replace (css_shorten_floats (css_sub_zero_units (css_none_to_zero
    (css_remove_semicolons (css_remove_url_quotes (css_unquote_selectors
      (css_remove_whitespace (css_remove_comments
        "a{border:1px solid rgba(0,0,0,.)}"))))))))
    with "a{border:1px solid rgba(0,0,0,.)}" by (vm_compute; reflexivity).
  replace (css_rgb2hex rgb "a{border:1px solid rgba(0,0,0,.)}")
    with (Some "a{border:1px solid rgba(0,0,0,.)}") by (symmetry; no_match).
  cbn [bind].
  replace (css_hsl2hex hsl "a{border:1px solid rgba(0,0,0,.)}")
    with (Some "a{border:1px solid rgba(0,0,0,.)}") by (symmetry; no_match).
  cbn [bind].
  rewrite css_sub_clrs_no_colon_letter by (assumption || (vm_compute; reflexivity)).
  replace (css_shorten_hex "a{border:1px solid rgba(0,0,0,.)}")
    with "a{border:1px solid rgba(0,0,0,.)}" by (vm_compute; reflexivity).
  unfold css_rgba2hex at 1, sub_cb. vm_compute. now rewrite Hf.
Qed.

(** ** C1: the length of the output *)








(** ** C6: named colours *)

(** C6, what the code does.  [css_sub_clrs] runs [str.replace] with the
    text [:keyword] and the value of the table: the colon is part of the
    text that is replaced and is not part of what replaces it.  With one
    entry, whatever follows the keyword: the value stands where
    [:keyword] stood, without a colon in front.  With the entry of the
    spec, [white] and [#fff], the declaration [color:white] becomes
    [color#fff], also in a run of [minify_css]. *)
Theorem css_sub_clrs_drops_colon :
  (forall keyword hexvalue rest,
     css_sub_clrs [(keyword, hexvalue)] (":" ++ keyword ++ rest)
     = hexvalue ++ css_sub_clrs [(keyword, hexvalue)] rest)
  /\ css_sub_clrs Sample.REPLACABLE_CLRS "a{color:white}" = "a{color#fff}"
  /\ css_sub_clrs Sample.REPLACABLE_CLRS "a{color:whitesmoke}"
     = "a{color#fffsmoke}"
  /\ Sample.minify_css "/* hi */ a{color:white}" = Some "a{color#fff}".
Proof.
  split; [|split; [|split]]; try (vm_compute; reflexivity).
  intros keyword hexvalue rest. unfold css_sub_clrs. cbn [fold_left].
  change (":" ++ keyword ++ rest) with ((":" ++ keyword) ++ rest).
  now rewrite replace_hit by discriminate.
Qed.

(** ** C4: running the pipeline on its own output *)









(** The same with a semicolon: of [;;}] the first run leaves [;}]. *)
Lemma minify_css_rerun_semicolon :
  Sample.minify_css "a{margin:0;;}" = Some "a{margin:0;}"
  /\ Sample.minify_css "a{margin:0;}" = Some "a{margin:0}".
Proof.
  pose proof sample_keys_named as H. unfold Sample.minify_css.
  split; [run_plain "a{margin:0;}" | run_plain "a{margin:0}"].
Qed.

(** Neither output is settled: each holds text that a rule rewrites. *)
Lemma minify_css_rerun_unsettled :
  settled Sample.REPLACABLE_CLRS "@media print{}" = false
  /\ settled Sample.REPLACABLE_CLRS "a{margin:0;}" = false.
Proof. split; vm_compute; reflexivity. Qed.

(** ** C7: hex colours made by [rgba()] and [hsla()] *)

(** [minify_css] is the first twelve rules, the two conversions and the
    last two rules. *)
Lemma minify_css_split (tbl : list (string * string))
    (rgb hsl rgba hsla : re_match -> option string) (css : string) :
  minify_css tbl rgb hsl rgba hsla css
  = bind (before_alpha_conversions tbl rgb hsl css) (fun c12 =>
    bind (css_rgba2hex rgba c12) (fun c13 =>
    bind (css_hsla2hex hsla c13) (fun c14 =>
    Some (css_font_weights (css_remove_empty_rules c14))))).
Proof.
  unfold minify_css, before_alpha_conversions.
  destruct (css_rgb2hex rgb _) as [c9|]; [|reflexivity]. cbn [bind].
  destruct (css_hsl2hex hsl c9) as [c10|]; reflexivity.
Qed.

(** *** The colour and [css_hsla2hex] *)

Lemma hsla_passes (f : re_match -> string) (pre d post : string) :
  all is_hex d = true ->
  sub Pat.hsla f (pre ++ String "#" d ++ post)
  = sub Pat.hsla f pre ++ String "#" d ++ sub Pat.hsla f post.
Proof.
  intros Hd. cbn [append].
  rewrite (sub_barrier Pat.hsla f "#" (String.length pre)
             eq_refl hsla_consuming) by apply le_n.
  f_equal. change (String "#" (d ++ post)) with (String "#" d ++ post).
  apply sub_inert. intros c t Hc. apply hsla_head. cbn [one_of] in Hc.
  apply orb_true_iff in Hc as [Hc|Hc].
  - apply Ascii.eqb_eq in Hc as <-. reflexivity.
  - now apply (hex_run_not d).
Qed.

(** *** The colour and [css_font_weights] *)

(** A run of hex digits stays in front of what a replacement makes of
    the text behind it, where the replaced text begins with [f] and a
    character that is no hex digit, and its replacement with [f]. *)
Lemma replace_behind_hex (q new' d : string) (a2 : ascii) :
  is_hex a2 = false -> all is_hex d = true ->
  forall post, exists post',
    replace (String "f" (String a2 q)) (String "f" new') (d ++ post)
    = d ++ post'.
Proof.
  intros Ha. induction d as [|c d IH]; intros Hd post.
  - now exists (replace (String "f" (String a2 q)) (String "f" new') post).
  - cbn [all] in Hd. apply andb_true_iff in Hd as [Hc Hd].
    cbn [append].
    destruct (starts_with (String "f" (String a2 q)) (String c (d ++ post)))
      eqn:E.
    + pose proof E as E0. rewrite starts_with_cons in E0.
      apply andb_true_iff in E0 as [E1 E2]. apply Ascii.eqb_eq in E1 as <-.
      destruct d as [|e d].
      * apply starts_with_app in E as [t E].
        rewrite E, replace_hit by discriminate.
        now exists (new' ++ replace (String "f" (String a2 q)) (String "f" new') t).
      * cbn [append] in E2. rewrite starts_with_cons in E2.
        apply andb_true_iff in E2 as [E2 _]. apply Ascii.eqb_eq in E2 as <-.
        cbn [all] in Hd. rewrite Ha in Hd. discriminate Hd.
    + rewrite replace_miss by assumption.
      destruct (IH Hd post) as [post' ->]. now exists post'.
Qed.

Lemma replace_keeps_colour (q new' pre d post : string) (a2 : ascii) :
  is_hex a2 = false -> one_of (String "f" (String a2 q)) "#" = false ->
  all is_hex d = true ->
  exists pre' post',
    replace (String "f" (String a2 q)) (String "f" new')
            (pre ++ String "#" d ++ post)
    = pre' ++ String "#" d ++ post'.
Proof.
  intros Ha Ho Hd. cbn [append].
  rewrite (replace_barrier _ _ "#" (String.length pre)) by
    (discriminate || assumption || apply le_n).
  rewrite (replace_miss _ _ "#").
  - destruct (replace_behind_hex q new' d a2 Ha Hd post) as [post' ->].
    now exists (replace (String "f" (String a2 q)) (String "f" new') pre), post'.
  - rewrite starts_with_cons. cbn [one_of] in Ho.
    apply orb_false_iff in Ho as [Ho _]. now rewrite Ho.
Qed.

Lemma font_weights_keep_colour (pre d post : string) :
  all is_hex d = true ->
  exists pre' post',
    css_font_weights (pre ++ String "#" d ++ post) = pre' ++ String "#" d ++ post'.
Proof.
  intros Hd. unfold css_font_weights.
  destruct (replace_keeps_colour "nt-weight:normal" "ont-weight:400" pre d post
              "o" eq_refl eq_refl Hd) as (p1 & q1 & E1).
  change (replace "font-weight:normal" "font-weight:400"
            (pre ++ String "#" d ++ post)) with
    (replace (String "f" (String "o" "nt-weight:normal")) (String "f" "ont-weight:400")
            (pre ++ String "#" d ++ post)).
  rewrite E1.
  exact (replace_keeps_colour "nt-weight:bold" "ont-weight:700" p1 d q1
           "o" eq_refl eq_refl Hd).
Qed.

(** *** The colour and [css_remove_empty_rules] *)

(** No match begins in a text without braces that is not followed by
    the two braces of an empty rule. *)
Lemma empty_rules_miss_stretch (z t : string) :
  brace_free z = true -> stops (none_of "}{") t ->
  starts_with "{}" t = false ->
  match_at Pat.empty_rules (z ++ t) = None.
Proof.
  intros Hz Ht Hs.
  destruct (match_at Pat.empty_rules (z ++ t)) as [[m rest]|] eqn:E;
    [|reflexivity].
  exfalso. apply empty_rules_shape in E as (w & E & Hw & _).
  change (w ++ "{}" ++ rest) with (w ++ String "{" (String "}" rest)) in E.
  destruct t as [|b t].
  - assert (Hb : brace_free (z ++ EmptyString) = true)
      by now rewrite brace_free_app, Hz.
    rewrite E, brace_free_app in Hb.
    apply andb_true_iff in Hb as [_ Hb]. discriminate Hb.
  - cbn [stops] in Ht.
    apply first_brace_unique in E as (_ & -> & ->); try assumption;
      try reflexivity.
    discriminate Hs.
Qed.

Lemma empty_rules_copy (f : re_match -> string) (z t : string) :
  brace_free z = true -> stops (none_of "}{") t ->
  starts_with "{}" t = false ->
  sub Pat.empty_rules f (z ++ t) = z ++ sub Pat.empty_rules f t.
Proof.
  intros Hz Ht Hs. induction z as [|c z IH]; [reflexivity|].
  cbn [append].
  rewrite sub_miss by now apply (empty_rules_miss_stretch (String c z)).
  unfold brace_free in Hz. cbn [all] in Hz. apply andb_true_iff in Hz as [_ Hz].
  now rewrite IH.
Qed.

(** A text without braces that begins with [#] and is not followed by
    [{}] is copied, wherever it stands. *)
Lemma empty_rules_keeps_stretch (f : re_match -> string) (n : nat) :
  forall pre z t, String.length pre <= n ->
  brace_free z = true -> begins "#" z = true ->
  stops (none_of "}{") t -> starts_with "{}" t = false ->
  sub Pat.empty_rules f (pre ++ z ++ t)
  = sub Pat.empty_rules f pre ++ z ++ sub Pat.empty_rules f t.
Proof.
  induction n as [|n IH]; intros pre z t Hn Hz Hb Ht Hs.
  - destruct pre; [|simpl in Hn; lia].
    rewrite sub_empty by apply empty_rules_consuming.
    cbn [append]. now apply empty_rules_copy.
  - destruct pre as [|c pre].
    { rewrite sub_empty by apply empty_rules_consuming.
      cbn [append]. now apply empty_rules_copy. }
    destruct (match_at Pat.empty_rules (String c pre)) as [[m rest]|] eqn:E.
    + pose proof (empty_rules_consuming _ _ _ E) as Hlt.
      apply empty_rules_shape in E as (w & E & Hw & Hne). rewrite E in *.
      rewrite !app_assoc.
      change ("{}" ++ rest ++ z ++ t) with ("{}" ++ (rest ++ z ++ t)).
      rewrite <- (app_assoc w "{}" (rest ++ z ++ t)).
      rewrite <- (app_assoc w "{}" rest).
      assert (Hne' : w ++ "{}" <> EmptyString) by (destruct w; discriminate).
      rewrite (sub_hit Pat.empty_rules f (w ++ "{}") _ [w ++ "{}"] Hne');
        [| rewrite app_assoc; now apply empty_rules_hit].
      rewrite (sub_hit Pat.empty_rules f (w ++ "{}") rest [w ++ "{}"] Hne');
        [| rewrite app_assoc; now apply empty_rules_hit].
      rewrite IH; [now rewrite app_assoc | | assumption ..].
      simpl in Hn, Hlt. lia.
    + assert (E' : match_at Pat.empty_rules (String c pre ++ z ++ t) = None).
      { destruct (match_at Pat.empty_rules (String c pre ++ z ++ t))
          as [[m rest]|] eqn:E'; [|reflexivity]. exfalso.
        destruct (first_brace (String c pre)) as [Hp|(w0 & b0 & r0 & Ep & Hw0 & Hb0)].
        - rewrite <- app_assoc in E'.
          rewrite empty_rules_miss_stretch in E';
            [discriminate E' | | assumption | assumption].
          now rewrite brace_free_app, Hp, Hz.
        - apply empty_rules_shape in E' as (w & E' & Hw & Hne).
          change (w ++ "{}" ++ rest) with (w ++ String "{" (String "}" rest)) in E'.
          rewrite Ep, app_assoc in E'. cbn [append] in E'.
          apply first_brace_unique in E' as (<- & -> & E'); try assumption;
            try reflexivity.
          destruct r0 as [|e r0]; cbn [append] in E'.
          + destruct z as [|z0 z]; [discriminate Hb|]. cbn [begins] in Hb.
            apply Ascii.eqb_eq in Hb as <-. discriminate E'.
          + injection E' as -> _.
            change (w0 ++ String "{" (String "}" r0)) with (w0 ++ "{}" ++ r0) in Ep.
            rewrite Ep, (empty_rules_hit w0 r0 Hw0 Hne) in E. discriminate E. }
      cbn [append] in *. rewrite !sub_miss by assumption.
      rewrite IH by (assumption || (simpl in Hn; lia)). reflexivity.
Qed.

Lemma last_char_cons (c : ascii) (s : string) :
  s <> EmptyString -> last_char (String c s) = last_char s.
Proof. destruct s; [congruence | reflexivity]. Qed.

Lemma closed_tail (c : ascii) (a : string) :
  closed (String c a) = true -> closed a = true.
Proof.
  destruct a as [|d a]; [reflexivity|]. unfold closed.
  now rewrite last_char_cons by discriminate.
Qed.

Lemma closed_suffix (a b : string) : closed (a ++ b) = true -> closed b = true.
Proof.
  induction a as [|c a IH]; intros H; [exact H|].
  cbn [append] in H. apply closed_tail in H. now apply IH.
Qed.

Lemma closed_has_brace (c : ascii) (a : string) :
  closed (String c a) = true -> brace_free (String c a) = false.
Proof.
  revert c. induction a as [|d a IH]; intros c H.
  - unfold closed in H. cbn [last_char] in H. apply negb_true_iff in H.
    unfold brace_free. cbn [all]. now rewrite H.
  - apply closed_tail in H. apply IH in H.
    unfold brace_free in *. cbn [all] in *. rewrite H. apply andb_false_r.
Qed.

(** Behind a text that ends with a brace the scan starts afresh, unless
    a closing brace follows. *)
Lemma empty_rules_closed (f : re_match -> string) (n : nat) :
  forall a u, String.length a <= n ->
  closed a = true -> begins "}" u = false ->
  sub Pat.empty_rules f (a ++ u)
  = sub Pat.empty_rules f a ++ sub Pat.empty_rules f u.
Proof.
  induction n as [|n IH]; intros a u Hn Ha Hu.
  - destruct a; [|simpl in Hn; lia].
    now rewrite sub_empty by apply empty_rules_consuming.
  - destruct a as [|c a].
    { now rewrite sub_empty by apply empty_rules_consuming. }
    destruct (match_at Pat.empty_rules (String c a)) as [[m rest]|] eqn:E.
    + pose proof (empty_rules_consuming _ _ _ E) as Hlt.
      apply empty_rules_shape in E as (w & E & Hw & Hne). rewrite E in *.
      assert (Hre : closed rest = true).
      { change (w ++ "{}" ++ rest) with (w ++ ("{}" ++ rest)) in Ha.
        now apply closed_suffix, closed_suffix in Ha. }
      rewrite !app_assoc.
      change ("{}" ++ rest ++ u) with ("{}" ++ (rest ++ u)).
      rewrite <- (app_assoc w "{}" (rest ++ u)).
      rewrite <- (app_assoc w "{}" rest).
      assert (Hne' : w ++ "{}" <> EmptyString) by (destruct w; discriminate).
      rewrite (sub_hit Pat.empty_rules f (w ++ "{}") _ [w ++ "{}"] Hne');
        [| rewrite app_assoc; now apply empty_rules_hit].
      rewrite (sub_hit Pat.empty_rules f (w ++ "{}") rest [w ++ "{}"] Hne');
        [| rewrite app_assoc; now apply empty_rules_hit].
      rewrite IH; [now rewrite app_assoc | | assumption | assumption].
      simpl in Hn, Hlt. lia.
    + assert (E' : match_at Pat.empty_rules (String c a ++ u) = None).
      { destruct (match_at Pat.empty_rules (String c a ++ u))
          as [[m rest]|] eqn:E'; [|reflexivity]. exfalso.
        apply empty_rules_shape in E' as (w & E' & Hw & Hne).
        change (w ++ "{}" ++ rest) with (w ++ String "{" (String "}" rest)) in E'.
        destruct (first_brace (String c a)) as [Hp|(w0 & b0 & r0 & Ep & Hw0 & Hb0)].
        - rewrite (closed_has_brace c a Ha) in Hp. discriminate Hp.
        - rewrite Ep, app_assoc in E'. cbn [append] in E'.
          apply first_brace_unique in E' as (<- & -> & E'); try assumption;
            try reflexivity.
          destruct r0 as [|e r0]; cbn [append] in E'.
          + rewrite E' in Hu. discriminate Hu.
          + injection E' as -> _.
            change (w0 ++ String "{" (String "}" r0)) with (w0 ++ "{}" ++ r0) in Ep.
            rewrite Ep, (empty_rules_hit w0 r0 Hw0 Hne) in E. discriminate E. }
      cbn [append] in *. rewrite !sub_miss by assumption.
      rewrite IH; [reflexivity | simpl in Hn; lia | | assumption].
      now apply closed_tail in Ha.
Qed.

(** An empty rule goes with everything between the last brace in front
    of it and its own braces. *)
Lemma empty_rules_takes_stretch (a w rest : string) :
  closed a = true -> brace_free w = true -> w <> EmptyString ->
  css_remove_empty_rules (a ++ w ++ "{}" ++ rest)
  = css_remove_empty_rules a ++ css_remove_empty_rules rest.
Proof.
  intros Ha Hw Hne. unfold css_remove_empty_rules.
  rewrite (empty_rules_closed _ (String.length a)); [| apply le_n | assumption |].
  - f_equal. rewrite <- app_assoc.
    rewrite (sub_hit Pat.empty_rules _ (w ++ "{}") rest [w ++ "{}"]);
      [reflexivity | destruct w; discriminate |].
    rewrite app_assoc. now apply empty_rules_hit.
  - destruct w as [|c w]; [congruence|]. cbn [append begins].
    unfold brace_free in Hw. cbn [all] in Hw. apply andb_true_iff in Hw as [Hc _].
    destruct (Ascii.eqb_spec "}" c) as [<-|]; [discriminate Hc | reflexivity].
Qed.

(** Every text is a text that is empty or ends with a brace, and a
    text without braces behind it. *)
Lemma last_brace_split (pre : string) :
  exists a s, pre = a ++ s /\ closed a = true /\ brace_free s = true.
Proof.
  induction pre as [|c pre (a & s & -> & Ha & Hs)].
  - now exists EmptyString, EmptyString.
  - destruct a as [|d a].
    + destruct (none_of "}{" c) eqn:Hc.
      * exists EmptyString, (String c s). repeat split.
        unfold brace_free in *. cbn [all append]. now rewrite Hc.
      * exists (String c EmptyString), s. repeat split; [|assumption].
        unfold closed. cbn [last_char]. now rewrite Hc.
    + exists (String c (String d a)), s. repeat split; [|assumption].
      unfold closed in *. now rewrite last_char_cons by discriminate.
Qed.

Lemma heads_empty_rule_split (post : string) :
  heads_empty_rule post = true ->
  exists x rest, post = x ++ "{}" ++ rest /\ brace_free x = true.
Proof.
  unfold heads_empty_rule. intros H.
  destruct (skip_while_split (none_of "}{") post) as (x & E & Hx).
  apply starts_with_app in H as [rest H]. rewrite H in E.
  now exists x, rest.
Qed.

Lemma hex8_shape (h : string) :
  is_hex8 h = true -> exists d, h = String "#" d /\ all is_hex d = true.
Proof.
  destruct h as [|c d]; [discriminate|]. cbn [is_hex8]. intros H.
  apply andb_true_iff in H as [H Hd]. apply andb_true_iff in H as [Hc _].
  unfold is_chr in Hc. apply Ascii.eqb_eq in Hc as <-. now exists d.
Qed.

(** The last two rules and a colour that no empty rule follows. *)
Lemma last_rules_keep_colour (pre d post : string) :
  all is_hex d = true -> heads_empty_rule post = false ->
  exists pre' post',
    css_font_weights (css_remove_empty_rules (pre ++ String "#" d ++ post))
    = pre' ++ String "#" d ++ post'.
Proof.
  intros Hd Hp. unfold heads_empty_rule in Hp.
  destruct (skip_while_split (none_of "}{") post) as (x & E & Hx).
  set (t := skip_while (none_of "}{") post) in *.
  assert (Ht : stops (none_of "}{") t) by apply skip_while_stops.
  unfold css_remove_empty_rules. rewrite E.
  replace (pre ++ String "#" d ++ x ++ t) with (pre ++ (String "#" d ++ x) ++ t)
    by (now rewrite !app_assoc).
  rewrite (empty_rules_keeps_stretch _ (String.length pre));
    [| apply le_n | | reflexivity | assumption | assumption].
  - rewrite app_assoc. now apply font_weights_keep_colour.
  - rewrite brace_free_app.
    change (brace_free (String "#" d)) with (brace_free d).
    rewrite (hex_brace_free d Hd). exact Hx.
Qed.

(** C7, as the code has it.  [css_shorten_hex] is the twelfth rule of
    [minify_css] and is not run again: the text it returns goes through
    [css_rgba2hex] and [css_hsla2hex] and then through the last two rules
    only.  For every input and every eight-digit hex colour, its pairs of
    digits doubled or not: a colour in the text that [css_rgba2hex]
    returned stands in the text that [css_hsla2hex] returns; a colour in
    that text stands with all eight digits in the output of [minify_css]
    unless the braces of an empty rule follow it with no other brace in
    between; and then [css_remove_empty_rules] deletes it whole, with
    everything from the last brace in front of it to those braces. *)
Theorem minify_css_keeps_eight_digits (tbl : list (string * string))
    (rgb hsl rgba hsla : re_match -> option string)
    (css c12 c13 c14 h : string) :
  before_alpha_conversions tbl rgb hsl css = Some c12 ->
  css_rgba2hex rgba c12 = Some c13 ->
  css_hsla2hex hsla c13 = Some c14 ->
  is_hex8 h = true ->
  (forall pre post, c13 = pre ++ h ++ post ->
     exists pre' post', c14 = pre' ++ h ++ post')
  /\ (forall pre post, c14 = pre ++ h ++ post ->
      heads_empty_rule post = false ->
      exists pre' post',
        minify_css tbl rgb hsl rgba hsla css = Some (pre' ++ h ++ post'))
  /\ (forall pre post, c14 = pre ++ h ++ post ->
      heads_empty_rule post = true ->
      exists a s x rest,
        pre = a ++ s /\ post = x ++ "{}" ++ rest
        /\ closed a = true /\ brace_free s = true /\ brace_free x = true
        /\ minify_css tbl rgb hsl rgba hsla css
           = Some (css_font_weights
                     (css_remove_empty_rules a ++ css_remove_empty_rules rest))).
Proof.
  intros H12 H13 H14 Hh.
  rewrite minify_css_split, H12. cbn [bind]. rewrite H13. cbn [bind].
  rewrite H14. cbn [bind].
  destruct (hex8_shape h Hh) as (d & -> & Hd).
  split; [|split].
  - intros pre post ->. apply sub_cb_some in H14. rewrite H14.
    rewrite (hsla_passes _ pre d post Hd). eauto.
  - intros pre post -> Hp.
    destruct (last_rules_keep_colour pre d post Hd Hp) as (pre' & post' & ->).
    eauto.
  - intros pre post -> Hp.
    destruct (last_brace_split pre) as (a & s & -> & Ha & Hs).
    destruct (heads_empty_rule_split post Hp) as (x & rest & -> & Hx).
    exists a, s, x, rest. repeat split; try assumption.
    f_equal. f_equal.
    replace ((a ++ s) ++ String "#" d ++ x ++ "{}" ++ rest)
      with (a ++ (s ++ String "#" d ++ x) ++ "{}" ++ rest)
      by (now rewrite !app_assoc).
    apply empty_rules_takes_stretch; [assumption | | destruct s; discriminate].
    rewrite !brace_free_app, Hs, Hx, andb_true_r.
    change (brace_free (String "#" d)) with (brace_free d).
    now apply hex_brace_free.
Qed.

Lemma minify_css_keeps_eight_digits_witness :
  (exists pre' post',
     Sample.minify_css "a { color: rgba(255, 255, 255, 1) !important; }"
     = Some (pre' ++ "#ffffffff" ++ post'))
  /\ (exists a s x rest,
        "a{color:" = a ++ s /\ ";&:hover{}}" = x ++ "{}" ++ rest
        /\ closed a = true /\ brace_free s = true /\ brace_free x = true
        /\ Sample.minify_css "a{color:rgba(255,255,255,1);&:hover{}}"
           = Some (css_font_weights
                     (css_remove_empty_rules a ++ css_remove_empty_rules rest))).
Proof.
  split.
  - apply (minify_css_keeps_eight_digits Sample.REPLACABLE_CLRS Sample.hex6
             Sample.hex6 Sample.hex8 Sample.hex8
             "a { color: rgba(255, 255, 255, 1) !important; }"
             "a{color:rgba(255,255,255,1) !important}"
             "a{color:#ffffffff !important}" "a{color:#ffffffff !important}"
             "#ffffffff" eq_refl eq_refl eq_refl eq_refl)
      with (pre := "a{color:") (post := " !important}"); reflexivity.
  - apply (minify_css_keeps_eight_digits Sample.REPLACABLE_CLRS Sample.hex6
             Sample.hex6 Sample.hex8 Sample.hex8
             "a{color:rgba(255,255,255,1);&:hover{}}"
             "a{color:rgba(255,255,255,1);&:hover{}}"
             "a{color:#ffffffff;&:hover{}}" "a{color:#ffffffff;&:hover{}}"
             "#ffffffff" eq_refl eq_refl eq_refl eq_refl); reflexivity.
Defined.

(** C7 as stated fails: the colour that [css_rgba2hex] returns does not
    remain in the output where it stands in front of an empty rule. *)
Lemma minify_css_keeps_eight_digits_counterexample :
  css_rgba2hex Sample.hex8 "a{color:rgba(255,255,255,1);&:hover{}}"
  = Some "a{color:#ffffffff;&:hover{}}"
  /\ Sample.minify_css "a{color:rgba(255,255,255,1);&:hover{}}" = Some "a{}"
  /\ contains "#ffffffff" "a{}" = false.
Proof. repeat split; vm_compute; reflexivity. Qed.

(** Had [css_shorten_hex] run after the conversions, the colour would
    have lost digits. *)
Lemma css_shorten_hex_after_conversion :
  css_shorten_hex "a{border:1px solid #ffffffff}" = "a{border:1px solid #fffff}".
Proof. reflexivity. Qed.
